(** * mcp_agent/agent_core.py: the agent orchestration loop

    A shallow embedding of [agent_core.py] (JSON extraction, the language
    filter, the deterministic hint extractors, tool-call validation, the
    result compactor and the orchestration loop [run_agent]) together with
    the part of the Python runtime the module leans on: [str] as a list of
    code points, JSON values, [json.loads]/[json.dumps], [int()]/[float()],
    and the backtracking semantics of [re.search] for the four patterns the
    module uses.

    Outside the model: the chat backend always answers with a text (a
    transport failure of [llm_chat] is not a reply), and the limits of the
    interpreter (recursion depth, the length of a digit string [int()]
    accepts) are not reached. *)

From Stdlib Require Import ZArith List Bool Lia String Ascii.
From Stdlib Require Import Floats.SpecFloat.
Import ListNotations.
Open Scope Z_scope.

Set Implicit Arguments.

(** ** Python [str]: a sequence of Unicode code points *)

Definition str := list Z.

(** Source text is written as UTF-8 literals and decoded once. *)
Definition byte_of (a : ascii) : Z := Z.of_nat (nat_of_ascii a).

Fixpoint bytes_of (s : string) : list Z :=
  match s with
  | EmptyString => []
  | String a s' => byte_of a :: bytes_of s'
  end.

Definition cont (b : Z) : Z := Z.land b 63.

Fixpoint utf8_decode (fuel : nat) (bs : list Z) : list Z :=
  match fuel with
  | O => []
  | S fuel' =>
    match bs with
    | [] => []
    | b0 :: r0 =>
      if b0 <? 128 then b0 :: utf8_decode fuel' r0
      else if b0 <? 224 then
        match r0 with
        | b1 :: r1 => (Z.shiftl (Z.land b0 31) 6 + cont b1) :: utf8_decode fuel' r1
        | _ => []
        end
      else if b0 <? 240 then
        match r0 with
        | b1 :: b2 :: r2 =>
          (Z.shiftl (Z.land b0 15) 12 + Z.shiftl (cont b1) 6 + cont b2)
            :: utf8_decode fuel' r2
        | _ => []
        end
      else
        match r0 with
        | b1 :: b2 :: b3 :: r3 =>
          (Z.shiftl (Z.land b0 7) 18 + Z.shiftl (cont b1) 12
             + Z.shiftl (cont b2) 6 + cont b3) :: utf8_decode fuel' r3
        | _ => []
        end
    end
  end.

Definition u (s : string) : str :=
  let bs := bytes_of s in utf8_decode (List.length bs) bs.

Fixpoint str_eqb (a b : str) : bool :=
  match a, b with
  | [], [] => true
  | x :: a', y :: b' => (x =? y) && str_eqb a' b'
  | _, _ => false
  end.

Fixpoint starts_with (p s : str) : bool :=
  match p, s with
  | [], _ => true
  | x :: p', y :: s' => (x =? y) && starts_with p' s'
  | _ :: _, [] => false
  end.

(** [sub in s] *)
Fixpoint str_in (p s : str) : bool :=
  starts_with p s ||
  match s with
  | [] => false
  | _ :: s' => str_in p s'
  end.

(** [s.find(c)] for a one-character needle: the index of its first
    occurrence, or [None] where Python returns [-1]. *)
Fixpoint find_char (c : Z) (s : str) : option nat :=
  match s with
  | [] => None
  | x :: s' =>
    if x =? c then Some O
    else match find_char c s' with
         | Some i => Some (S i)
         | None => None
         end
  end.

(** [s.replace(c, "")] for a one-character [c]. *)
Definition remove_char (c : Z) (s : str) : str :=
  filter (fun x => negb (x =? c)) s.

(** [str.isspace] on one code point (the set CPython's
    [_PyUnicode_IsWhitespace] accepts); [\s] of [re] uses the same set. *)
Definition is_space (c : Z) : bool :=
  ((9 <=? c) && (c <=? 13)) || ((28 <=? c) && (c <=? 32))
  || (c =? 133) || (c =? 160) || (c =? 5760)
  || ((8192 <=? c) && (c <=? 8202))
  || (c =? 8232) || (c =? 8233) || (c =? 8239) || (c =? 8287) || (c =? 12288).

Fixpoint lstrip_by (space : Z -> bool) (s : str) : str :=
  match s with
  | c :: s' => if space c then lstrip_by space s' else s
  | [] => []
  end.

Definition strip_by (space : Z -> bool) (s : str) : str :=
  rev (lstrip_by space (rev (lstrip_by space s))).

(** [s.strip()] *)
Definition strip (s : str) : str := strip_by is_space s.

(** What [int()] and [float()] trim from a string: the same set but for
    U+001C..U+001F, which they do not take for spaces. *)
Definition is_number_space (c : Z) : bool :=
  is_space c && negb ((28 <=? c) && (c <=? 31)).

Definition strip_number (s : str) : str := strip_by is_number_space s.

(** The digits of a non-negative integer, most significant first. *)
Fixpoint digits_pos (fuel : nat) (n : Z) (acc : str) : str :=
  match fuel with
  | O => acc
  | S fuel' =>
    if n <? 10 then (48 + n) :: acc
    else digits_pos fuel' (n / 10) ((48 + n mod 10) :: acc)
  end.

(** [str(n)] for an [int]. *)
Definition str_of_Z (n : Z) : str :=
  if n <? 0 then 45 :: digits_pos (S (Z.to_nat (Z.log2 (- n)))) (- n) []
  else digits_pos (S (Z.to_nat (Z.log2 n))) n [].

(** ** Character classes *)

Definition is_han (c : Z) : bool := (19968 <=? c) && (c <=? 40959).
Definition is_hangul (c : Z) : bool := (44032 <=? c) && (c <=? 55203).
Definition is_ascii_digit (c : Z) : bool := (48 <=? c) && (c <=? 57).
Definition is_ascii_upper (c : Z) : bool := (65 <=? c) && (c <=? 90).
Definition is_ascii_lower (c : Z) : bool := (97 <=? c) && (c <=? 122).

(** ** Exceptions and the result of a call that may raise *)

Inductive exn :=
| ValueError (msg : str)
| TypeError
| AttributeError
| KeyError
| OverflowError
| RequestException.

Inductive res (A : Type) :=
| Ok (a : A)
| Raise (e : exn).
Arguments Ok {A} a.
Arguments Raise {A} e.

Definition bind {A B} (m : res A) (f : A -> res B) : res B :=
  match m with
  | Ok a => f a
  | Raise e => Raise e
  end.

Notation "x <- m ;; k" := (bind m (fun x => k))
  (at level 61, m at next level, right associativity).

(** ** JSON values, as [json.loads] builds them *)

Definition float := spec_float.

#[warnings="-register-all"]
Inductive json :=
| JNull
| JBool (b : bool)
| JInt (n : Z)
| JFloat (f : float)
| JStr (s : str)
| JList (l : list json)
| JDict (d : list (str * json)).

(** A [dict] keeps insertion order and has one entry per key. *)
Definition dict := list (str * json).

Fixpoint dict_get (k : str) (d : dict) : option json :=
  match d with
  | [] => None
  | (k', v) :: d' => if str_eqb k k' then Some v else dict_get k d'
  end.

(** [d[k] = v]: an existing key keeps its place. *)
Fixpoint dict_set (k : str) (v : json) (d : dict) : dict :=
  match d with
  | [] => [(k, v)]
  | (k', v') :: d' =>
    if str_eqb k k' then (k', v) :: d' else (k', v') :: dict_set k v d'
  end.

(** [d.get(k)] and [d.get(k, default)] *)
Definition get (k : str) (d : dict) : json :=
  match dict_get k d with
  | Some v => v
  | None => JNull
  end.

Definition get_default (k : str) (dflt : json) (d : dict) : json :=
  match dict_get k d with
  | Some v => v
  | None => dflt
  end.

(** [x.get(k)] on a value that need not be a dict. *)
Definition attr_get (k : str) (x : json) : res json :=
  match x with
  | JDict d => Ok (get k d)
  | _ => Raise AttributeError
  end.

Definition float_is_zero (f : float) : bool :=
  match f with
  | S754_zero _ => true
  | _ => false
  end.

(** [bool(x)] *)
Definition truthy (x : json) : bool :=
  match x with
  | JNull => false
  | JBool b => b
  | JInt n => negb (n =? 0)
  | JFloat f => negb (float_is_zero f)
  | JStr s => match s with [] => false | _ => true end
  | JList l => match l with [] => false | _ => true end
  | JDict d => match d with [] => false | _ => true end
  end.

(** [x == s] for a [str] constant [s] *)
Definition eq_str (x : json) (s : str) : bool :=
  match x with
  | JStr t => str_eqb t s
  | _ => false
  end.

Definition is_none (x : json) : bool :=
  match x with
  | JNull => true
  | _ => false
  end.

(** ** What the model takes from the Unicode database and from [repr]

    Case, alphanumeric class and decimal value are fixed below for ASCII,
    for the Hangul syllables and for the CJK unified ideographs (caseless
    letters that are no digits); for every other code point they are read
    from the database: [uni_isalnum] is [str.isalnum], [uni_lower] the
    lower-case mapping, [uni_decimal] the value of a decimal digit.
    [py_repr] is [repr] on the values the model does not print itself
    (floats, quoted strings, containers). *)
Class PyRuntime := {
  uni_isalnum : Z -> bool;
  uni_lower : Z -> list Z;
  uni_decimal : Z -> option Z;
  py_repr : json -> str
}.

Section Runtime.
Context {RT : PyRuntime}.

(** [\w] of [re] on [str] patterns: alphanumeric or underscore. *)
Definition is_word (c : Z) : bool :=
  if c <? 128 then
    is_ascii_digit c || is_ascii_upper c || is_ascii_lower c || (c =? 95)
  else is_hangul c || is_han c || uni_isalnum c.

(** The value of a decimal digit (category Nd), [\d] of [re]. *)
Definition decimal_value (c : Z) : option Z :=
  if c <? 128 then (if is_ascii_digit c then Some (c - 48) else None)
  else if is_hangul c || is_han c then None
  else uni_decimal c.

Definition is_digit (c : Z) : bool :=
  match decimal_value c with
  | Some _ => true
  | None => false
  end.

Definition lower_char (c : Z) : list Z :=
  if c <? 128 then (if is_ascii_upper c then [c + 32] else [c])
  else if is_hangul c || is_han c then [c]
  else uni_lower c.

(** [s.lower()] *)
Definition lower (s : str) : str := flat_map lower_char s.

(** [str(x)], also what an f-string puts for [{x}]. *)
Definition py_str (x : json) : str :=
  match x with
  | JNull => u "None"
  | JBool true => u "True"
  | JBool false => u "False"
  | JInt n => str_of_Z n
  | JStr s => s
  | _ => py_repr x
  end.

(** *** [int()] *)

(** digit (["_"] digit)* up to the end of the string *)
Fixpoint int_digits (s : str) (acc : Z) (after_digit : bool) : option Z :=
  match s with
  | [] => if after_digit then Some acc else None
  | c :: s' =>
    match decimal_value c with
    | Some d => int_digits s' (acc * 10 + d) true
    | None =>
      if (c =? 95) && after_digit then int_digits s' acc false else None
    end
  end.

Definition int_of_str (s : str) : option Z :=
  match strip_number s with
  | 45 :: r => option_map Z.opp (int_digits r 0 false)
  | 43 :: r => int_digits r 0 false
  | r => int_digits r 0 false
  end.

Definition invalid_int_literal (s : str) : exn :=
  ValueError (u "invalid literal for int() with base 10: " ++ py_repr (JStr s)).

(** Truncation toward zero; NaN and the infinities raise. *)
Definition Z_of_float (f : float) : res Z :=
  match f with
  | S754_nan => Raise (ValueError (u "cannot convert float NaN to integer"))
  | S754_infinity _ => Raise OverflowError
  | S754_zero _ => Ok 0
  | S754_finite s m e =>
    let a := if 0 <=? e then Z.shiftl (Zpos m) e else Z.shiftr (Zpos m) (- e) in
    Ok (if s then - a else a)
  end.

Definition py_int (x : json) : res Z :=
  match x with
  | JInt n => Ok n
  | JBool b => Ok (if b then 1 else 0)
  | JFloat f => Z_of_float f
  | JStr s =>
    match int_of_str s with
    | Some n => Ok n
    | None => Raise (invalid_int_literal s)
    end
  | _ => Raise TypeError
  end.

(** *** [float()] : binary64, round to nearest even *)

Definition prec : Z := 53.
Definition emax : Z := 1024.

(** The double nearest to [m * 10^e10] for [0 <= m]. *)
Definition float_of_decimal (neg : bool) (m e10 : Z) : float :=
  if m =? 0 then S754_zero neg
  else if 0 <=? e10 then
    binary_normalize prec emax ((if neg then - m else m) * 10 ^ e10) 0 neg
  else
    let '(q, e, l) := SFdiv_core_binary prec emax m 0 (10 ^ (- e10)) 0 in
    binary_round_aux prec emax neg q e l.

(** [float(n)] for an [int]: too large a value raises. *)
Definition float_of_Z (n : Z) : res float :=
  match binary_normalize prec emax n 0 false with
  | S754_infinity _ => Raise OverflowError
  | f => Ok f
  end.

(** digit (["_"] digit)*, as far as it goes: value, number of digits, rest *)
Fixpoint digitpart (s : str) (acc : Z) (n : nat) : Z * nat * str :=
  match s with
  | c :: s' =>
    match decimal_value c with
    | Some d => digitpart s' (acc * 10 + d) (S n)
    | None =>
      match n, s' with
      | S _, c' :: _ =>
        if (c =? 95) && is_digit c' then digitpart s' acc n else (acc, n, s)
      | _, _ => (acc, n, s)
      end
    end
  | [] => (acc, n, s)
  end.

Definition ascii_lower (s : str) : str :=
  map (fun c => if is_ascii_upper c then c + 32 else c) s.

(** [e|E] [sign] digitpart, then the end of the string *)
Definition float_exponent (s : str) : option Z :=
  match s with
  | [] => Some 0
  | c :: r =>
    if (c =? 101) || (c =? 69) then
      let '(neg, r') :=
        match r with
        | 45 :: r' => (true, r')
        | 43 :: r' => (false, r')
        | _ => (false, r)
        end in
      match digitpart r' 0 O with
      | (e, S _, []) => Some (if neg then - e else e)
      | _ => None
      end
    else None
  end.

Definition float_of_str (s : str) : option float :=
  let '(neg, r) :=
    match strip_number s with
    | 45 :: r => (true, r)
    | 43 :: r => (false, r)
    | r => (false, r)
    end in
  let w := ascii_lower r in
  if str_eqb w (u "inf") || str_eqb w (u "infinity") then Some (S754_infinity neg)
  else if str_eqb w (u "nan") then Some S754_nan
  else
    let '(ip, ni, r1) := digitpart r 0 O in
    let '(fp, nf, r2) :=
      match r1 with
      | 46 :: r1' => digitpart r1' ip O
      | _ => (ip, O, r1)
      end in
    match ni, nf with
    | O, O => None
    | _, _ =>
      match float_exponent r2 with
      | Some e => Some (float_of_decimal neg fp (e - Z.of_nat nf))
      | None => None
      end
    end.

Definition py_float (x : json) : res float :=
  match x with
  | JFloat f => Ok f
  | JInt n => float_of_Z n
  | JBool b => float_of_Z (if b then 1 else 0)
  | JStr s =>
    match float_of_str s with
    | Some f => Ok f
    | None =>
      Raise (ValueError (u "could not convert string to float: " ++ py_repr (JStr s)))
    end
  | _ => Raise TypeError
  end.

End Runtime.

(** ** [re]: the backtracking matcher, for the constructs the module uses

    Literals, character sets, [\d], [\s], [\b], greedy [*], ordered
    alternation and capturing groups, with [re.IGNORECASE].  Literal
    characters of a pattern are ASCII or Hangul. *)

Inductive regex :=
| RChr (c : Z)
| RSet (ranges : list (Z * Z))
| RDigit
| RSpace
| RBoundary
| REps
| RSeq (r1 r2 : regex)
| RAlt (r1 r2 : regex)
| RStar (r : regex)
| RGroup (n : nat) (r : regex).

(** A position in the subject: the text before it (nearest first) and after. *)
Record cursor := { before : str; after : str }.

Definition captures := list (nat * str).

Definition group (n : nat) (cs : captures) : option str :=
  match find (fun p => Nat.eqb (fst p) n) cs with
  | Some p => Some (snd p)
  | None => None
  end.

Definition in_ranges (rs : list (Z * Z)) (c : Z) : bool :=
  existsb (fun r => (fst r <=? c) && (c <=? snd r)) rs.

(** The characters [x] stands for under IGNORECASE: the two cases of an
    ASCII letter, and the four non-ASCII letters [re] folds onto ASCII
    (U+0130, U+0131, U+017F, U+212A). *)
Definition ci_variants (x : Z) : list Z :=
  if is_ascii_upper x then [x; x + 32]
  else if is_ascii_lower x then [x; x - 32]
  else if (x =? 304) || (x =? 305) then [x; 105; 73]
  else if x =? 383 then [x; 115; 83]
  else if x =? 8490 then [x; 107; 75]
  else [x].

Definition variants (ignorecase : bool) (x : Z) : list Z :=
  if ignorecase then ci_variants x else [x].

Definition advance (cur : cursor) (x : Z) (rest : str) : cursor :=
  {| before := x :: before cur; after := rest |}.

Fixpoint regex_size (r : regex) : nat :=
  match r with
  | RSeq a b | RAlt a b => S (regex_size a + regex_size b)
  | RStar a | RGroup _ a => S (regex_size a)
  | _ => 1%nat
  end.

Fixpoint lit (s : str) : regex :=
  match s with
  | [] => REps
  | [c] => RChr c
  | c :: s' => RSeq (RChr c) (lit s')
  end.

Definition plus (r : regex) : regex := RSeq r (RStar r).

Section Regex.
Context {RT : PyRuntime}.

Definition at_boundary (cur : cursor) : bool :=
  let w l := match l with c :: _ => is_word c | [] => false end in
  xorb (w (before cur)) (w (after cur)).

Definition one_char (cur : cursor) (ok : Z -> bool)
    (k : cursor -> option (cursor * captures)) : option (cursor * captures) :=
  match after cur with
  | x :: rest => if ok x then k (advance cur x rest) else None
  | [] => None
  end.

Fixpoint rmatch (fuel : nat) (ic : bool) (r : regex) (cur : cursor) (cs : captures)
    (k : cursor -> captures -> option (cursor * captures)) {struct fuel}
    : option (cursor * captures) :=
  match fuel with
  | O => None
  | S fuel' =>
    match r with
    | RChr c =>
      one_char cur (fun x => existsb (Z.eqb c) (variants ic x)) (fun cur' => k cur' cs)
    | RSet rs =>
      one_char cur (fun x => existsb (in_ranges rs) (variants ic x)) (fun cur' => k cur' cs)
    | RDigit => one_char cur is_digit (fun cur' => k cur' cs)
    | RSpace => one_char cur is_space (fun cur' => k cur' cs)
    | RBoundary => if at_boundary cur then k cur cs else None
    | REps => k cur cs
    | RSeq a b =>
      rmatch fuel' ic a cur cs (fun cur' cs' => rmatch fuel' ic b cur' cs' k)
    | RAlt a b =>
      match rmatch fuel' ic a cur cs k with
      | Some m => Some m
      | None => rmatch fuel' ic b cur cs k
      end
    | RStar a =>
      match rmatch fuel' ic a cur cs (fun cur' cs' =>
              if (List.length (after cur') <? List.length (after cur))%nat
              then rmatch fuel' ic (RStar a) cur' cs' k
              else None) with
      | Some m => Some m
      | None => k cur cs
      end
    | RGroup n a =>
      rmatch fuel' ic a cur cs (fun cur' cs' =>
        let len := (List.length (before cur') - List.length (before cur))%nat in
        k cur' ((n, rev (firstn len (before cur'))) :: cs'))
    end
  end.

(** A match that starts at the cursor. *)
Definition match_at (ic : bool) (r : regex) (cur : cursor) : option captures :=
  let fuel := (regex_size r + List.length (after cur) + 1)%nat in
  match rmatch fuel ic r cur [] (fun cur' cs => Some (cur', cs)) with
  | Some (_, cs) => Some cs
  | None => None
  end.

Fixpoint search_from (ic : bool) (r : regex) (pre rest : str) : option captures :=
  match match_at ic r {| before := pre; after := rest |} with
  | Some cs => Some cs
  | None =>
    match rest with
    | [] => None
    | x :: rest' => search_from ic r (x :: pre) rest'
    end
  end.

(** [re.search(r, text)]: the leftmost match, as its groups. *)
Definition re_search (ic : bool) (r : regex) (text : str) : option captures :=
  search_from ic r [] text.

End Regex.

(** ** [json.loads] (CPython's scanner, strict mode) *)

Definition is_json_ws (c : Z) : bool :=
  (c =? 32) || (c =? 9) || (c =? 10) || (c =? 13).

Fixpoint skip_ws (s : str) : str :=
  match s with
  | c :: s' => if is_json_ws c then skip_ws s' else s
  | [] => []
  end.

Definition hex_val (c : Z) : option Z :=
  if is_ascii_digit c then Some (c - 48)
  else if (97 <=? c) && (c <=? 102) then Some (c - 87)
  else if (65 <=? c) && (c <=? 70) then Some (c - 55)
  else None.

Definition hex4 (a b c d : Z) : option Z :=
  match hex_val a, hex_val b, hex_val c, hex_val d with
  | Some x, Some y, Some z, Some w => Some (((x * 16 + y) * 16 + z) * 16 + w)
  | _, _, _, _ => None
  end.

(** The character a one-letter escape stands for: quote, backslash, slash,
    b, f, n, r, t. *)
Definition simple_escape (e : Z) : option Z :=
  if e =? 34 then Some 34
  else if e =? 92 then Some 92
  else if e =? 47 then Some 47
  else if e =? 98 then Some 8
  else if e =? 102 then Some 12
  else if e =? 110 then Some 10
  else if e =? 114 then Some 13
  else if e =? 116 then Some 9
  else None.

Definition high_surrogate (c : Z) : bool := (55296 <=? c) && (c <=? 56319).
Definition low_surrogate (c : Z) : bool := (56320 <=? c) && (c <=? 57343).
Definition join_surrogates (hi lo : Z) : Z :=
  65536 + Z.lor (Z.shiftl (hi - 55296) 10) (lo - 56320).

(** The text after an opening quote: the decoded string and what follows
    the closing quote. *)
Fixpoint scan_string (s : str) (acc : str) {struct s} : option (str * str) :=
  match s with
  | [] => None
  | c :: rest =>
    if c =? 34 then Some (rev acc, rest)
    else if c =? 92 then
      match rest with
      | [] => None
      | e :: rest1 =>
        if e =? 117 then
          match rest1 with
          | h1 :: h2 :: h3 :: h4 :: rest2 =>
            match hex4 h1 h2 h3 h4 with
            | None => None
            | Some c1 =>
              if high_surrogate c1 then
                match rest2 with
                | b :: v :: g1 :: g2 :: g3 :: g4 :: rest3 =>
                  if (b =? 92) && (v =? 117) then
                    match hex4 g1 g2 g3 g4 with
                    | None => None
                    | Some c2 =>
                      if low_surrogate c2
                      then scan_string rest3 (join_surrogates c1 c2 :: acc)
                      else scan_string rest2 (c1 :: acc)
                    end
                  else scan_string rest2 (c1 :: acc)
                | _ => scan_string rest2 (c1 :: acc)
                end
              else scan_string rest2 (c1 :: acc)
            end
          | _ => None
          end
        else
          match simple_escape e with
          | Some x => scan_string rest1 (x :: acc)
          | None => None
          end
      end
    else if c <? 32 then None
    else scan_string rest (c :: acc)
  end.

(** A run of ASCII digits: value so far, how many, the rest. *)
Fixpoint ascii_digits (s : str) (acc : Z) (n : nat) : Z * nat * str :=
  match s with
  | c :: s' =>
    if is_ascii_digit c then ascii_digits s' (acc * 10 + (c - 48)) (S n)
    else (acc, n, s)
  | [] => (acc, n, s)
  end.

(** A number: an optional minus, then 0 or a run of digits not starting
    with 0, then an optional fraction (a dot and digits) and an optional
    exponent (e or E, an optional sign, digits).  An [int] when neither a
    fraction nor an exponent is there, else a [float]. *)
Definition scan_number (s : str) : option (json * str) :=
  let '(neg, s0) :=
    match s with
    | 45 :: r => (true, r)
    | _ => (false, s)
    end in
  let int_part :=
    match s0 with
    | c :: r =>
      if c =? 48 then Some (0, r)
      else if is_ascii_digit c then
        let '(v, _, r') := ascii_digits s0 0 O in Some (v, r')
      else None
    | [] => None
    end in
  match int_part with
  | None => None
  | Some (ip, s1) =>
    let '(m, nf, s2) :=
      match s1 with
      | 46 :: r =>
        match ascii_digits r ip O with
        | (_, O, _) => (ip, O, s1)
        | fr => fr
        end
      | _ => (ip, O, s1)
      end in
    let '(ex, s3) :=
      match s2 with
      | c :: r =>
        if (c =? 101) || (c =? 69) then
          let '(eneg, r') :=
            match r with
            | 45 :: r' => (true, r')
            | 43 :: r' => (false, r')
            | _ => (false, r)
            end in
          match ascii_digits r' 0 O with
          | (_, O, _) => (None, s2)
          | (e, _, r'') => (Some (if eneg then - e else e), r'')
          end
        else (None, s2)
      | [] => (None, s2)
      end in
    match nf, ex with
    | O, None => Some (JInt (if neg then - ip else ip), s3)
    | _, _ =>
      let e := match ex with Some e => e | None => 0 end in
      Some (JFloat (float_of_decimal neg m (e - Z.of_nat nf)), s3)
    end
  end.

Definition literal (w : str) (v : json) (s : str) : option (json * str) :=
  if starts_with w s then Some (v, skipn (List.length w) s) else None.

Section Containers.
Variable parse_value : str -> option (json * str).

(** Members of an object, from the quote of a key on. *)
Fixpoint parse_members (n : nat) (s : str) (acc : dict) : option (json * str) :=
  match n with
  | O => None
  | S n' =>
    match s with
    | 34 :: r =>
      match scan_string r [] with
      | Some (k, r1) =>
        match skip_ws r1 with
        | 58 :: r2 =>
          match parse_value (skip_ws r2) with
          | Some (v, r3) =>
            match skip_ws r3 with
            | 44 :: r4 => parse_members n' (skip_ws r4) (dict_set k v acc)
            | 125 :: r4 => Some (JDict (dict_set k v acc), r4)
            | _ => None
            end
          | None => None
          end
        | _ => None
        end
      | None => None
      end
    | _ => None
    end
  end.

(** Elements of an array, from the first character of an element on. *)
Fixpoint parse_elements (n : nat) (s : str) (acc : list json) : option (json * str) :=
  match n with
  | O => None
  | S n' =>
    match parse_value s with
    | Some (v, r) =>
      match skip_ws r with
      | 44 :: r1 => parse_elements n' (skip_ws r1) (v :: acc)
      | 93 :: r1 => Some (JList (rev (v :: acc)), r1)
      | _ => None
      end
    | None => None
    end
  end.

End Containers.

Fixpoint parse_value (fuel : nat) (s : str) : option (json * str) :=
  match fuel with
  | O => None
  | S fuel' =>
    match s with
    | [] => None
    | c :: r =>
      if c =? 34 then
        match scan_string r [] with
        | Some (t, r') => Some (JStr t, r')
        | None => None
        end
      else if c =? 123 then
        match skip_ws r with
        | 125 :: r' => Some (JDict [], r')
        | r' => parse_members (parse_value fuel') (List.length r') r' []
        end
      else if c =? 91 then
        match skip_ws r with
        | 93 :: r' => Some (JList [], r')
        | r' => parse_elements (parse_value fuel') (List.length r') r' []
        end
      else if starts_with (u "null") s then literal (u "null") JNull s
      else if starts_with (u "true") s then literal (u "true") (JBool true) s
      else if starts_with (u "false") s then literal (u "false") (JBool false) s
      else
        match scan_number s with
        | Some x => Some x
        | None =>
          if starts_with (u "NaN") s then literal (u "NaN") (JFloat S754_nan) s
          else if starts_with (u "Infinity") s
          then literal (u "Infinity") (JFloat (S754_infinity false)) s
          else literal (u "-Infinity") (JFloat (S754_infinity true)) s
        end
    end
  end.

(** [json.loads(s)]; [None] where it raises. *)
Definition json_loads (s : str) : option json :=
  let s0 := skip_ws s in
  match parse_value (S (List.length s0)) s0 with
  | Some (v, r) =>
    match skip_ws r with
    | [] => Some v
    | _ => None
    end
  | None => None
  end.

(** ** [json.dumps(x, ensure_ascii=False)] and [json.dumps(..., indent=n)] *)

Definition hex_digit (n : Z) : Z := if n <? 10 then 48 + n else 87 + n.

Definition escape_char (c : Z) : str :=
  if c =? 34 then u "\" ++ [34]
  else if c =? 92 then u "\\"
  else if c =? 10 then u "\n"
  else if c =? 13 then u "\r"
  else if c =? 9 then u "\t"
  else if c =? 8 then u "\b"
  else if c =? 12 then u "\f"
  else if c <? 32 then u "\u00" ++ [hex_digit (c / 16); hex_digit (c mod 16)]
  else [c].

Definition quote (s : str) : str := [34] ++ flat_map escape_char s ++ [34].

Fixpoint join (sep : str) (l : list str) : str :=
  match l with
  | [] => []
  | [x] => x
  | x :: l' => x ++ sep ++ join sep l'
  end.

Section Dumps.
Context {RT : PyRuntime}.

Definition dumps_float (f : float) : str :=
  match f with
  | S754_nan => u "NaN"
  | S754_infinity false => u "Infinity"
  | S754_infinity true => u "-Infinity"
  | _ => py_repr (JFloat f)
  end.

Definition newline_indent (indent : option nat) (level : nat) : str :=
  match indent with
  | Some n => 10 :: repeat 32 (n * level)
  | None => []
  end.

Definition item_separator (indent : option nat) (level : nat) : str :=
  match indent with
  | Some _ => u "," ++ newline_indent indent level
  | None => u ", "
  end.

Fixpoint dumps (indent : option nat) (level : nat) (x : json) {struct x} : str :=
  match x with
  | JNull => u "null"
  | JBool true => u "true"
  | JBool false => u "false"
  | JInt n => str_of_Z n
  | JFloat f => dumps_float f
  | JStr s => quote s
  | JList [] => u "[]"
  | JList l =>
    u "[" ++ newline_indent indent (S level)
      ++ join (item_separator indent (S level)) (map (dumps indent (S level)) l)
      ++ newline_indent indent level ++ u "]"
  | JDict [] => u "{}"
  | JDict d =>
    u "{" ++ newline_indent indent (S level)
      ++ join (item_separator indent (S level))
           (map (fun kv => let '(k, v) := kv in
                           quote k ++ u ": " ++ dumps indent (S level) v) d)
      ++ newline_indent indent level ++ u "}"
  end.

Definition json_dumps (x : json) : str := dumps None O x.
Definition json_dumps_indent (n : nat) (x : json) : str := dumps (Some n) O x.

End Dumps.

(** * agent_core.py *)

(** ** Settings read from the environment when the module is loaded, and
    the prompt text imported from [prompts.py] (no branch reads it). *)

Record settings := {
  MAX_TOOL_CALLS : Z;
  WINDOW_MIN : Z;
  WINDOW_MAX : Z;
  LIMIT_MIN : Z;
  LIMIT_MAX : Z;
  MAX_LANG_RETRY : Z;
  TOOL_SPEC : str
}.

(** The values used when the environment sets none. *)
Definition default_settings (tool_spec : str) : settings :=
  {| MAX_TOOL_CALLS := 2;
     WINDOW_MIN := 5;
     WINDOW_MAX := 20160;
     LIMIT_MIN := 1;
     LIMIT_MAX := 20;
     MAX_LANG_RETRY := 3;
     TOOL_SPEC := tool_spec |}.

Definition LANG_SPEC : str := u
"당신은 SRE/AIOps 보조 에이전트입니다.

[필수 규칙]
- 모든 자연어 출력은 반드시 한국어로만 작성하십시오. (중국어/영어/일본어 금지)
- 반드시 JSON만 출력하십시오. JSON 외 텍스트(설명, 마크다운, 코드블록) 금지.
- JSON 키는 TOOL_SPEC에 정의된 영문 키를 그대로 사용하십시오.
- title/summary/findings/next_actions의 모든 문자열은 한국어로만 작성하십시오.
- next_actions는 3~5개로 작성하고, 각 항목은 실행 가능한 짧은 한국어 문장으로 작성하십시오.
- 시스템 오류/제약 안내가 필요하면 한국어로만 작성하십시오.
- 비한국어(특히 중국어/한자)가 포함되면 즉시 잘못된 출력입니다. 절대로 포함하지 마십시오.".

(** Keys and fixed values of the envelopes. *)
Definition k_action : str := Eval vm_compute in u "action".
Definition k_tool : str := Eval vm_compute in u "tool".
Definition k_args : str := Eval vm_compute in u "args".
Definition k_cluster : str := Eval vm_compute in u "cluster".
Definition k_status : str := Eval vm_compute in u "status".
Definition k_namespace : str := Eval vm_compute in u "namespace".
Definition k_window_minutes : str := Eval vm_compute in u "window_minutes".
Definition k_limit : str := Eval vm_compute in u "limit".
Definition k_min_delta : str := Eval vm_compute in u "min_delta".
Definition k_min_ratio : str := Eval vm_compute in u "min_ratio".
Definition k_type : str := Eval vm_compute in u "type".
Definition k_content : str := Eval vm_compute in u "content".
Definition k_retry : str := Eval vm_compute in u "retry".
Definition k_reason : str := Eval vm_compute in u "reason".
Definition k_call : str := Eval vm_compute in u "call".
Definition k_error : str := Eval vm_compute in u "error".
Definition k_result : str := Eval vm_compute in u "result".
Definition s_tool_call : str := Eval vm_compute in u "tool_call".
Definition s_final : str := Eval vm_compute in u "final".
Definition s_error : str := Eval vm_compute in u "error".
Definition s_current_error_services : str :=
  Eval vm_compute in u "current_error_services".
Definition s_increasing_error_services : str :=
  Eval vm_compute in u "increasing_error_services".

Definition clamp_int (v lo hi : Z) : Z := Z.max lo (Z.min hi v).

(** [max(a, b)] and [min(a, b)] on floats keep [a] unless [b] is strictly
    beyond it. *)
Definition float_lt (a b : float) : bool := SFltb a b.
Definition float_le (a b : float) : bool := SFleb a b.
Definition float_min (a b : float) : float := if float_lt b a then b else a.
Definition float_max (a b : float) : float := if float_lt a b then b else a.

Definition clamp_float (v lo hi : float) : float :=
  float_max lo (float_min hi v).

(** The doubles 1.0, 2.0 and 100.0 *)
Definition f_1 : float := Eval vm_compute in binary_normalize prec emax 1 0 false.
Definition f_2 : float := Eval vm_compute in binary_normalize prec emax 2 0 false.
Definition f_100 : float := Eval vm_compute in binary_normalize prec emax 100 0 false.

(** The place of a float among the numbers: its class (infinite, negative,
    zero, positive), then its exponent and its digits. *)
Definition place (f : float) : Z * Z * Z :=
  match f with
  | S754_infinity true => (-2, 0, 0)
  | S754_finite true m e => (-1, - e, Zneg m)
  | S754_zero _ => (0, 0, 0)
  | S754_finite false m e => (1, e, Zpos m)
  | S754_infinity false => (2, 0, 0)
  | S754_nan => (3, 0, 0)
  end.

Definition is_nan (f : float) : bool :=
  match f with S754_nan => true | _ => false end.

(** ** JSON extraction *)

(** The scan from the first opening brace: how many characters the
    candidate has, when the depth comes back to zero. *)
Fixpoint brace_scan (s : str) (depth : Z) : option nat :=
  match s with
  | [] => None
  | ch :: s' =>
    if ch =? 123 then option_map S (brace_scan s' (depth + 1))
    else if ch =? 125 then
      if depth - 1 =? 0 then Some 1%nat
      else option_map S (brace_scan s' (depth - 1))
    else option_map S (brace_scan s' depth)
  end.

Definition extract_first_json_object (text : str) : option json :=
  match text with
  | [] => None
  | _ =>
    match find_char 123 text with
    | None => None
    | Some start =>
      let tail := skipn start text in
      match brace_scan tail 0 with
      | Some n => json_loads (firstn n tail)
      | None => None
      end
    end
  end.

(** The envelope of a reply: [None] where the loop takes [not obj]. *)
Definition envelope (o : option json) : option json :=
  match o with
  | Some x => if truthy x then Some x else None
  | None => None
  end.

Section AgentCore.
Context {RT : PyRuntime}.

(** ** Language enforcement helpers *)

Definition cjk_re : regex := RSet [(19968, 40959)].

Definition contains_cjk (text : str) : bool :=
  match re_search false cjk_re text with
  | Some _ => true
  | None => false
  end.

Definition FALLBACK : str := u
"한국어로만 출력해야 하나, 모델 출력에 비한국어 문구가 포함되어 일부 내용을 생략했습니다.".

Definition _fix_str (s : str) : str :=
  if contains_cjk s then FALLBACK else s.

Fixpoint _walk (x : json) : json :=
  match x with
  | JDict d => JDict (map (fun kv => let '(k, v) := kv in (k, _walk v)) d)
  | JList l => JList (map _walk l)
  | JStr s => JStr (_fix_str s)
  | _ => x
  end.

Definition sanitize_korean_only (obj : json) : json := _walk obj.

(** ** Question parsing *)

Definition token_re : regex :=
  RGroup 1 (RSeq (RSet [(97, 122); (48, 57)])
                 (RStar (RSet [(97, 122); (48, 57); (45, 45)]))).

Definition namespace_re : regex :=
  RSeq RBoundary (RSeq token_re (RSeq (RStar RSpace)
    (RSeq (RGroup 2 (RAlt (lit (u "네임스페이스")) (lit (u "namespace")))) RBoundary))).

Definition cluster_re : regex :=
  RSeq RBoundary (RSeq token_re (RSeq (RStar RSpace)
    (RSeq (RGroup 2 (RAlt (lit (u "클러스터")) (lit (u "cluster")))) RBoundary))).

Definition window_re : regex :=
  RSeq (lit (u "최근")) (RSeq (RGroup 1 (plus RDigit))
    (RGroup 2 (RAlt (lit (u "주일")) (RAlt (lit (u "주")) (RAlt (lit (u "일"))
       (RAlt (lit (u "시간")) (lit (u "분")))))))).

Definition group1_stripped (m : option captures) : option str :=
  match m with
  | Some cs => option_map strip (group 1 cs)
  | None => None
  end.

Definition extract_namespace_from_question (question : str) : option str :=
  group1_stripped (re_search true namespace_re question).

Definition extract_cluster_from_question (question : str) : option str :=
  group1_stripped (re_search true cluster_re question).

(** [int(s)] on a run of decimal digits *)
Definition int_of_digits (s : str) : Z :=
  fold_left (fun acc c => acc * 10 + match decimal_value c with
                                     | Some d => d
                                     | None => 0
                                     end) s 0.

Definition parse_window_minutes_ko (question : str) : option Z :=
  let q := remove_char 32 question in
  match re_search false window_re q with
  | None => None
  | Some m =>
    match group 1 m, group 2 m with
    | Some digits, Some unit =>
      let n := int_of_digits digits in
      if str_eqb unit (u "주일") || str_eqb unit (u "주") then Some (n * 7 * 24 * 60)
      else if str_eqb unit (u "일") then Some (n * 24 * 60)
      else if str_eqb unit (u "시간") then Some (n * 60)
      else if str_eqb unit (u "분") then Some n
      else None
    | _, _ => None
    end
  end.

Definition choose_status_from_question (question : str) : str :=
  let q := lower question in
  if str_in (u "warn") q || str_in (u "warning") q || str_in (u "경고") question
  then u "warn"
  else if str_in (u "info") q || str_in (u "정보") question then u "info"
  else if str_in (u "debug") q || str_in (u "디버그") question then u "debug"
  else u "error".

(** ** Tool call validation and normalisation *)

(** Code that updates the [args] dict in place and may raise: the dict is
    threaded through, and stays as it was when the exception left. *)
Definition M (A : Type) : Type := dict -> dict * res A.

Definition ret {A} (a : A) : M A := fun d => (d, Ok a).
Definition raise {A} (e : exn) : M A := fun d => (d, Raise e).
Definition lift {A} (r : res A) : M A := fun d => (d, r).
Definition bindM {A B} (m : M A) (f : A -> M B) : M B :=
  fun d =>
    match m d with
    | (d', Ok a) => f a d'
    | (d', Raise e) => (d', Raise e)
    end.
Definition arg (k : str) : M json := fun d => (d, Ok (get k d)).
Definition arg_default (k : str) (dflt : json) : M json :=
  fun d => (d, Ok (get_default k dflt d)).
Definition set_arg (k : str) (v : json) : M unit :=
  fun d => (dict_set k v d, Ok tt).

Notation "x <~ m ;; k" := (bindM m (fun x => k))
  (at level 61, m at next level, right associativity).
Notation "m ;;; k" := (bindM m (fun _ => k))
  (at level 61, right associativity).

Definition or_default (s dflt : str) : str :=
  match s with
  | [] => dflt
  | _ => s
  end.

Definition nonblank (s : str) : bool :=
  match strip s with
  | [] => false
  | _ => true
  end.

Definition E_not_tool_call : exn := ValueError (u "Not a tool_call action").
Definition E_tool_not_allowed (tool : json) : exn :=
  ValueError (u "Tool not allowed: " ++ py_str tool).
Definition E_cluster : exn := ValueError (u "cluster must be specified explicitly").
Definition E_status : exn := ValueError (u "status must be a string").
Definition E_namespace : exn := ValueError (u "namespace must be a string or null").

Definition allowed_tool (tool : json) : bool :=
  eq_str tool s_current_error_services || eq_str tool s_increasing_error_services.

Section Validation.
Variable cfg : settings.

Definition normalize_args (tool : json) : M unit :=
  cluster <~ arg k_cluster ;;
  c <~ match cluster with
       | JStr c => if nonblank c then ret (strip c) else raise E_cluster
       | _ => raise E_cluster
       end ;;
  set_arg k_cluster (JStr c) ;;;
  status <~ arg_default k_status (JStr s_error) ;;
  st <~ match (if is_none status then JStr s_error else status) with
        | JStr st => ret st
        | _ => raise E_status
        end ;;
  set_arg k_status (JStr (or_default (strip st) s_error)) ;;;
  namespace <~ arg_default k_namespace JNull ;;
  match namespace with
  | JNull => set_arg k_namespace JNull
  | JStr ns =>
    set_arg k_namespace (match strip ns with [] => JNull | t => JStr t end)
  | _ => raise E_namespace
  end ;;;
  w <~ arg_default k_window_minutes (JInt 15) ;;
  window <~ lift (py_int w) ;;
  l <~ arg_default k_limit (JInt 10) ;;
  limit <~ lift (py_int l) ;;
  set_arg k_window_minutes (JInt (clamp_int window (WINDOW_MIN cfg) (WINDOW_MAX cfg))) ;;;
  set_arg k_limit (JInt (clamp_int limit (LIMIT_MIN cfg) (LIMIT_MAX cfg))) ;;;
  if eq_str tool s_increasing_error_services then
    d <~ arg_default k_min_delta (JInt 10) ;;
    min_delta <~ lift (py_int d) ;;
    set_arg k_min_delta (JInt (clamp_int min_delta 1 999999)) ;;;
    r <~ arg_default k_min_ratio (JFloat f_2) ;;
    min_ratio <~ lift (py_float r) ;;
    set_arg k_min_ratio (JFloat (clamp_float min_ratio f_1 f_100))
  else ret tt.

(** The call object after the function, and how the function left: [args]
    is the dict held by the call when that one is truthy, a fresh dict
    otherwise (then the call sees it only on success). *)
Definition validate_and_normalize_call (call : dict) : dict * res unit :=
  if negb (eq_str (get k_action call) s_tool_call) then (call, Raise E_not_tool_call)
  else
    let tool := get k_tool call in
    let held := get k_args call in
    if negb (allowed_tool tool) then (call, Raise (E_tool_not_allowed tool))
    else
      match (if truthy held then held else JDict []) with
      | JDict args =>
        match normalize_args tool args with
        | (args', Ok _) => (dict_set k_args (JDict args') call, Ok tt)
        | (args', Raise e) =>
          ((if truthy held then dict_set k_args (JDict args') call else call), Raise e)
        end
      | _ => (call, Raise AttributeError)
      end.

End Validation.

(** ** Tool runner (with [tools_client.py]) *)

Inductive role := system | user | assistant.

Record message := { msg_role : role; content : str }.

(** The collaborators: the chat backend answers a conversation with text;
    the tool service answers a POST of a JSON payload, or fails. *)
Record world := {
  llm_chat : list message -> str;
  http_post : str -> json -> res json
}.

(** Parameters of a function with their defaults, in order. *)
Definition signature := list (str * option json).

Definition current_error_services_sig : signature :=
  [(k_cluster, None); (k_window_minutes, Some (JInt 15)); (k_limit, Some (JInt 10));
   (k_status, Some (JStr s_error)); (k_namespace, Some JNull)].

Definition increasing_error_services_sig : signature :=
  [(k_cluster, None); (k_window_minutes, Some (JInt 15)); (k_limit, Some (JInt 10));
   (k_min_delta, Some (JInt 10)); (k_min_ratio, Some (JFloat f_2));
   (k_status, Some (JStr s_error)); (k_namespace, Some JNull)].

Fixpoint bind_parameters (sig : signature) (args : dict) : res dict :=
  match sig with
  | [] => Ok []
  | (k, dflt) :: sig' =>
    match dict_get k args, dflt with
    | Some v, _ | None, Some v =>
      rest <- bind_parameters sig' args ;; Ok ((k, v) :: rest)
    | None, None => Raise TypeError
    end
  end.

(** [f( **args )]: the payload the function posts; an unexpected keyword,
    a missing parameter or an [args] that is no mapping is a [TypeError]. *)
Definition call_with_keywords (sig : signature) (args : json) : res dict :=
  match args with
  | JDict d =>
    if forallb (fun kv => existsb (fun p => str_eqb (fst kv) (fst p)) sig) d
    then bind_parameters sig d
    else Raise TypeError
  | _ => Raise TypeError
  end.

(** One POST to the tool service. *)
Definition request := (str * json)%type.

Definition post (w : world) (path : str) (payload : res dict) : list request * res json :=
  match payload with
  | Ok p => ([(path, JDict p)], http_post w path (JDict p))
  | Raise e => ([], Raise e)
  end.

(** [tools_client.py]: each function posts its payload; the requests made
    come with the result or the exception. *)
Definition current_error_services (w : world) (kwargs : json) : list request * res json :=
  post w (u "/tools/current-error-services")
       (call_with_keywords current_error_services_sig kwargs).

Definition increasing_error_services (w : world) (kwargs : json) : list request * res json :=
  post w (u "/tools/increasing-error-services")
       (call_with_keywords increasing_error_services_sig kwargs).

Definition run_tool (w : world) (tool : json) (args : json) : list request * res json :=
  if eq_str tool s_current_error_services then current_error_services w args
  else if eq_str tool s_increasing_error_services then increasing_error_services w args
  else ([], Raise (ValueError (u "Unknown tool"))).

Definition or_else (a b : json) : json := if truthy a then a else b.

(** One row of [services_top5]. *)
Definition compact_row (s : json) : res json :=
  match s with
  | JDict d =>
    let row :=
      map (fun k => (k, get k d))
          [u "service"; u "count"; u "previous"; u "current"; u "delta"; u "ratio"] in
    match or_else (get (u "samples") d) (JList []) with
    | JList [] => Ok (JDict row)
    | JList (x :: _) => Ok (JDict (row ++ [(u "sample", JStr (firstn 220 (py_str x)))]))
    | JStr (c :: _) => Ok (JDict (row ++ [(u "sample", JStr [c])]))
    | JDict _ => Raise KeyError
    | _ => Raise TypeError
    end
  | _ => Raise AttributeError
  end.

Fixpoint compact_rows (top : list json) : res (list json) :=
  match top with
  | [] => Ok []
  | s :: top' =>
    row <- compact_row s ;; rest <- compact_rows top' ;; Ok (row :: rest)
  end.

Definition compact_tool_result (tool : json) (result : json) : res json :=
  rs <- attr_get (u "services") result ;;
  match or_else rs (JList []), result with
  | JList services, JDict r =>
    out <- compact_rows (firstn 5 services) ;;
    Ok (JDict [(k_tool, tool);
               (u "summary", get (u "summary") r);
               (u "window", or_else (get (u "window") r) (get (u "comparison") r));
               (u "services_total", JInt (Z.of_nat (List.length services)));
               (u "services_top5", JList out)])
  | JStr _, _ => Raise AttributeError
  | _, _ => Raise TypeError
  end.

End AgentCore.

(** ** Agent main loop *)

(** What one run of [run_agent] holds: the conversation, the two counters
    and the trace; [invocations] lists the requests that reached the tool
    service (kept for the proofs, the code has no such variable). *)
Record state := {
  messages : list message;
  tool_calls : Z;
  lang_retry : Z;
  trace : list json;
  invocations : list request
}.

(** The hints drawn from the question before the loop starts. *)
Record hints := {
  hinted_cluster : option str;
  hinted_namespace : option str;
  hinted_window : option Z;
  hinted_status : str
}.

(** How one pass of the [while True] body ends: back to the model, a
    [return final, trace], or an exception that leaves [run_agent]. *)
Inductive outcome :=
| Continue (st : state)
| Return (final : json) (st : state)
| Raised (e : exn) (st : state).

Definition say (r : role) (c : str) : message := {| msg_role := r; content := c |}.

Definition append_messages (ms : list message) (st : state) : state :=
  {| messages := messages st ++ ms; tool_calls := tool_calls st;
     lang_retry := lang_retry st; trace := trace st;
     invocations := invocations st |}.

Definition append_trace (es : list json) (st : state) : state :=
  {| messages := messages st; tool_calls := tool_calls st;
     lang_retry := lang_retry st; trace := trace st ++ es;
     invocations := invocations st |}.

Definition set_lang_retry (n : Z) (st : state) : state :=
  {| messages := messages st; tool_calls := tool_calls st;
     lang_retry := n; trace := trace st;
     invocations := invocations st |}.

Definition set_tool_calls (n : Z) (st : state) : state :=
  {| messages := messages st; tool_calls := n;
     lang_retry := lang_retry st; trace := trace st;
     invocations := invocations st |}.

Definition log_requests (rs : list request) (st : state) : state :=
  {| messages := messages st; tool_calls := tool_calls st;
     lang_retry := lang_retry st; trace := trace st;
     invocations := invocations st ++ rs |}.

(** A trace entry [{"type": t, ...}]. *)
Definition entry (t : string) (fields : dict) : json :=
  JDict ((k_type, JStr (u t)) :: fields).

Definition RAW_CORRECTION : str := u
"방금 출력에 중국어/한자 문자가 포함되었습니다.
- 중국어/한자/영어를 절대 사용하지 마십시오.
- 한국어로만, 그리고 JSON만 출력하십시오.
- 반드시 JSON 객체 1개만 출력하십시오.".

Definition FINAL_CORRECTION : str := u
"방금 출력에 중국어/한자 문자가 포함되었습니다.
- 중국어/한자/영어를 절대 사용하지 마십시오.
- 한국어로만 다시 작성하십시오.
- 반드시 action=final JSON 1개만 출력하십시오.
- 특히 findings/next_actions에 비한국어 문자가 들어가면 안 됩니다.".

Definition LIMIT_REACHED : str := u
"Tool call limit reached. Output action=final JSON now (Korean-only, JSON-only).".

Definition invalid_call_message (error : str) : str :=
  u "Tool call is invalid: " ++ error ++ u
". 사용자에게 필요한 추가 정보를 한국어로 질문하고 action=final JSON으로 종료하십시오.".

Definition NEXT_STEP : str := [10; 10] ++ u
"다음 단계 결정: 추가 드릴다운이 도움이 되면 또 다른 tool_call을 하십시오. 아니면 action=final로 한국어 JSON만 출력하십시오.".

Definition parse_failure_final : json :=
  JDict [(k_action, JStr s_final);
         (u "title", JStr (u "LLM 출력 오류"));
         (u "summary", JStr (u
"LLM이 유효한 JSON을 반환하지 않았습니다. 모델/프롬프트 규칙을 확인하십시오."));
         (u "findings", JList []);
         (u "next_actions", JList [
            JStr (u "OLLAMA_MODEL과 TOOL_SPEC 규칙을 확인합니다.");
            JStr (u "LLM이 JSON만 출력하도록 system prompt를 강화합니다.");
            JStr (u "동일 질문으로 재시도해 출력 형식을 확인합니다.")])].

Section Loop.
Context {RT : PyRuntime}.
Variable cfg : settings.
Variable w : world.
Variable h : hints.

Definition unknown_action_final (action obj : json) : json :=
  JDict [(k_action, JStr s_final);
         (u "title", JStr (u "알 수 없는 action"));
         (u "summary", JStr (u "LLM이 알 수 없는 action을 반환했습니다: " ++ py_str action));
         (u "findings", JList [obj]);
         (u "next_actions", JList [
            JStr (u "TOOL_SPEC의 action 정의를 점검합니다.");
            JStr (u "모델이 JSON 규칙을 준수하는지 확인합니다.");
            JStr (u "동일 질문으로 재시도하여 출력 패턴을 확인합니다.")])].

(** The inner [while contains_cjk(text) and raw_retry < 2]; [left] is
    [2 - raw_retry]. *)
Fixpoint raw_language_retry (left : nat) (text : str) (st : state) : str * state :=
  match left with
  | O => (text, st)
  | S left' =>
    if contains_cjk text then
      let raw_retry := 2 - Z.of_nat left in
      let st1 := append_trace
        [entry "llm_raw_rejected_language"
               [(k_content, JStr text); (k_retry, JInt (raw_retry + 1))]] st in
      let st2 := append_messages [say assistant text; say user RAW_CORRECTION] st1 in
      raw_language_retry left' (llm_chat w (messages st2)) st2
    else (text, st)
  end.

(** [text = llm_chat(messages)] and the raw-text language retries. *)
Definition await_model (st : state) : str * state :=
  raw_language_retry 2 (llm_chat w (messages st)) st.

(** [x[k] = v] on a value that need not be a dict. *)
Definition set_item (k : str) (v : json) (x : json) : res json :=
  match x with
  | JDict d => Ok (JDict (dict_set k v d))
  | _ => Raise TypeError
  end.

Definition is_blank_or_not_str (x : json) : bool :=
  match x with
  | JStr s => negb (nonblank s)
  | _ => true
  end.

(** [x in (None, "", "null")] *)
Definition namespace_unset (x : json) : bool :=
  is_none x || eq_str x [] || eq_str x (u "null").

Definition some_nonempty (o : option str) : option str :=
  match o with
  | Some [] => None
  | _ => o
  end.

(** The hint injection of the [tool_call] branch, up to [obj["args"] =
    args_obj]. *)
Definition backfill (obj : dict) : res dict :=
  let obj := match dict_get k_args obj with
             | Some _ => obj
             | None => dict_set k_args (JDict []) obj
             end in
  let args_obj := or_else (get k_args obj) (JDict []) in
  args_obj <-
    match some_nonempty (hinted_cluster h) with
    | Some c =>
      v <- attr_get k_cluster args_obj ;;
      if is_blank_or_not_str v then set_item k_cluster (JStr c) args_obj
      else Ok args_obj
    | None => Ok args_obj
    end ;;
  args_obj <-
    match some_nonempty (hinted_namespace h) with
    | Some ns =>
      v <- attr_get k_namespace args_obj ;;
      if namespace_unset v
      then set_item k_namespace (JStr ns) args_obj
      else Ok args_obj
    | None => Ok args_obj
    end ;;
  args_obj <-
    match hinted_window h with
    | Some n => if n =? 0 then Ok args_obj
                else set_item k_window_minutes (JInt n) args_obj
    | None => Ok args_obj
    end ;;
  args_obj <-
    match hinted_status h with
    | [] => Ok args_obj
    | status =>
      v <- attr_get k_status args_obj ;;
      if is_none v then set_item k_status (JStr status) args_obj
      else Ok args_obj
    end ;;
  Ok (dict_set k_args args_obj obj).

Definition on_final (obj : json) (st : state) : outcome :=
  let dump := json_dumps obj in
  if contains_cjk dump then
    let n := lang_retry st + 1 in
    let st1 := append_trace
      [entry "final_rejected_language" [(k_content, obj); (k_retry, JInt n)]]
      (set_lang_retry n st) in
    if MAX_LANG_RETRY cfg <=? n then
      let sanitized := sanitize_korean_only obj in
      Return sanitized (append_trace [entry "final_sanitized" [(k_content, sanitized)]] st1)
    else
      Continue (append_messages [say assistant dump; say user FINAL_CORRECTION] st1)
  else Return obj (append_trace [entry "final" [(k_content, obj)]] st).

Definition reject_tool_call (obj : dict) (st : state) : state :=
  append_trace
    [entry "tool_call_rejected" [(k_reason, JStr (u "limit_reached")); (k_call, JDict obj)]]
    (append_messages [say assistant (json_dumps (JDict obj)); say user LIMIT_REACHED] st).

Definition invalid_tool_call (error : str) (obj : dict) (st : state) : state :=
  append_trace
    [entry "tool_call_invalid" [(k_error, JStr error); (k_call, JDict obj)]]
    (append_messages [say assistant (json_dumps (JDict obj));
                      say user (invalid_call_message error)] st).

Definition tool_result_message (compact : json) : str :=
  u "Tool result:" ++ [10] ++ json_dumps_indent 2 compact ++ NEXT_STEP.

(** The call passed validation: count it, run the tool, compact. *)
Definition execute_tool (call : dict) (st : state) : outcome :=
  match dict_get k_tool call, dict_get k_args call with
  | Some tool, Some args =>
    let st1 := set_tool_calls (tool_calls st + 1) st in
    let '(requests, r) := run_tool w tool args in
    let st2 := log_requests requests st1 in
    match r with
    | Raise e => Raised e st2
    | Ok result =>
      match compact_tool_result tool result with
      | Raise e => Raised e st2
      | Ok compact =>
        Continue
          (append_messages
             [say assistant (json_dumps (JDict call));
              say user (tool_result_message compact)]
             (append_trace
                [entry "tool_call" [(k_call, JDict call)];
                 entry "tool_result" [(k_result, compact)]] st2))
      end
    end
  | _, _ => Raised KeyError st
  end.

Definition on_tool_call (obj : dict) (st : state) : outcome :=
  if MAX_TOOL_CALLS cfg <=? tool_calls st then Continue (reject_tool_call obj st)
  else
    match backfill obj with
    | Raise e => Raised e st
    | Ok obj1 =>
      match validate_and_normalize_call cfg obj1 with
      | (obj2, Raise (ValueError error)) => Continue (invalid_tool_call error obj2 st)
      | (_, Raise e) => Raised e st
      | (call, Ok _) => execute_tool call st
      end
    end.

(** The branch on [obj.get("action")]. *)
Definition dispatch (obj : json) (st : state) : outcome :=
  match obj with
  | JDict d =>
    let action := get k_action d in
    if eq_str action s_final then on_final obj st
    else if eq_str action s_tool_call then on_tool_call d st
    else Return (unknown_action_final action obj)
                (append_trace [entry "unknown_action" [(k_content, obj)]] st)
  | _ => Raised AttributeError st
  end.

(** One pass of the body of [while True]. *)
Definition loop_body (st : state) : outcome :=
  let '(text, st1) := await_model st in
  match envelope (extract_first_json_object text) with
  | None =>
    Return parse_failure_final
           (append_trace [entry "llm_raw" [(k_content, JStr text)]] st1)
  | Some obj => dispatch obj st1
  end.

(** At most [n] passes; [Continue] when the loop is still running then. *)
Fixpoint iterate (n : nat) (st : state) : outcome :=
  match n with
  | O => Continue st
  | S n' =>
    match loop_body st with
    | Continue st' => iterate n' st'
    | o => o
    end
  end.

End Loop.

Section RunAgent.
Context {RT : PyRuntime}.

Definition question_hints (question : str) : hints :=
  {| hinted_cluster := extract_cluster_from_question question;
     hinted_namespace := extract_namespace_from_question question;
     hinted_window := parse_window_minutes_ko question;
     hinted_status := choose_status_from_question question |}.

Definition initial_state (cfg : settings) (question : str) : state :=
  {| messages := [say system LANG_SPEC; say system (TOOL_SPEC cfg); say user question];
     tool_calls := 0;
     lang_retry := 0;
     trace := [];
     invocations := [] |}.

(** [run_agent(question)], cut after [n] passes of the loop. *)
Definition run_agent (cfg : settings) (w : world) (question : str) (n : nat) : outcome :=
  iterate cfg w (question_hints question) n (initial_state cfg question).

End RunAgent.

(** * The properties the specification states, in its own words *)

(** The spec's language rule: a string is non-compliant when one of its
    code points lies in U+4E00..U+9FFF. *)
Definition non_compliant (s : str) : Prop :=
  exists c, In c s /\ 19968 <= c <= 40959.

(** The spec's sanitizing fallback: every non-compliant leaf string becomes
    the fixed sentence, the rest of the structure is unchanged. *)
#[warnings="-register-all"]
Inductive sanitized_spec : json -> json -> Prop :=
| san_bad s : non_compliant s -> sanitized_spec (JStr s) (JStr FALLBACK)
| san_good s : ~ non_compliant s -> sanitized_spec (JStr s) (JStr s)
| san_null : sanitized_spec JNull JNull
| san_bool b : sanitized_spec (JBool b) (JBool b)
| san_int n : sanitized_spec (JInt n) (JInt n)
| san_float f : sanitized_spec (JFloat f) (JFloat f)
| san_list l l' :
    Forall2 sanitized_spec l l' -> sanitized_spec (JList l) (JList l')
| san_dict d d' :
    Forall2 (fun kv kv' => fst kv = fst kv' /\ sanitized_spec (snd kv) (snd kv')) d d' ->
    sanitized_spec (JDict d) (JDict d').

(** What is in any part of a JSON value: its strings, keys included. *)
Fixpoint strings_of (x : json) : list str :=
  match x with
  | JStr s => [s]
  | JList l => flat_map strings_of l
  | JDict d => flat_map (fun kv => let '(k, v) := kv in k :: strings_of v) d
  | _ => []
  end.

(** The string values of a JSON value, keys left out. *)
Fixpoint values_of (x : json) : list str :=
  match x with
  | JStr s => [s]
  | JList l => flat_map values_of l
  | JDict d => flat_map (fun kv => let '(_, v) := kv in values_of v) d
  | _ => []
  end.

(** Brace depth of a text: opening braces minus closing ones. *)
Fixpoint depth (s : str) : Z :=
  match s with
  | [] => 0
  | c :: s' => (if c =? 123 then 1 else if c =? 125 then -1 else 0) + depth s'
  end.

(** No unmatched brace: no prefix closes more than it opened, and the
    whole text closes all it opened. *)
Definition no_unmatched_braces (s : str) : Prop :=
  depth s = 0 /\ forall n, 0 <= depth (firstn n s).

(** A text that opens with a brace whose depth comes back to zero at its
    last character and not before. *)
Definition balanced_object (s : str) : Prop :=
  (exists r, s = 123 :: r) /\ depth s = 0 /\
  forall n, (0 < n < List.length s)%nat -> 0 < depth (firstn n s).


(** ** The counters of a run *)

Definition state_of (o : outcome) : state :=
  match o with
  | Continue st | Return _ st | Raised _ st => st
  end.

Definition running (o : outcome) : bool :=
  match o with
  | Continue _ => true
  | _ => false
  end.

(** The trace entries of one type. *)
Definition entries_of_type (t : string) (tr : list json) : list json :=
  filter (fun e => match e with
                   | JDict d => eq_str (get k_type d) (u t)
                   | _ => false
                   end) tr.

Definition count_type (t : string) (tr : list json) : Z :=
  Z.of_nat (List.length (entries_of_type t tr)).

(** Passes of the loop that went back to the model through a rejected or
    an invalid tool call. *)
Definition ungated (st : state) : Z :=
  count_type "tool_call_rejected" (trace st) + count_type "tool_call_invalid" (trace st).

(** Final envelopes turned down by the language check. *)
Definition rejected_finals (st : state) : Z :=
  count_type "final_rejected_language" (trace st).

(** What the bounds of the loop are about. *)
Record counters := {
  c_tool_calls : Z;
  c_lang_retry : Z;
  c_invocations : Z;
  c_ungated : Z;
  c_rejected_finals : Z
}.

Definition counters_of (st : state) : counters :=
  {| c_tool_calls := tool_calls st;
     c_lang_retry := lang_retry st;
     c_invocations := Z.of_nat (List.length (invocations st));
     c_ungated := ungated st;
     c_rejected_finals := rejected_finals st |}.

(** The three ways back to the model: a tool call was counted (and at most
    one request made), a final envelope was turned down for its language,
    or a tool call was rejected or found invalid. *)
Definition executed (cfg : settings) (c c' : counters) : Prop :=
  c_tool_calls c < MAX_TOOL_CALLS cfg /\
  c_tool_calls c' = c_tool_calls c + 1 /\
  c_invocations c <= c_invocations c' <= c_invocations c + 1 /\
  c_lang_retry c' = c_lang_retry c /\
  c_ungated c' = c_ungated c /\
  c_rejected_finals c' = c_rejected_finals c.

Definition language_rejected (c c' : counters) : Prop :=
  c_lang_retry c' = c_lang_retry c + 1 /\
  c_rejected_finals c' = c_rejected_finals c + 1 /\
  c_tool_calls c' = c_tool_calls c /\
  c_invocations c' = c_invocations c /\
  c_ungated c' = c_ungated c.

Definition turned_away (c c' : counters) : Prop :=
  c_ungated c' = c_ungated c + 1 /\
  c_tool_calls c' = c_tool_calls c /\
  c_lang_retry c' = c_lang_retry c /\
  c_invocations c' = c_invocations c /\
  c_rejected_finals c' = c_rejected_finals c.

(** What one pass does to the counters, by the way it ends. *)
Definition pass_effect (cfg : settings) (c : counters) (o : outcome) : Prop :=
  let c' := counters_of (state_of o) in
  match o with
  | Continue _ =>
    executed cfg c c' \/
    (language_rejected c c' /\ c_lang_retry c' < MAX_LANG_RETRY cfg) \/
    turned_away c c'
  | Return _ _ =>
    c' = c \/ (language_rejected c c' /\ MAX_LANG_RETRY cfg <= c_lang_retry c')
  | Raised _ _ =>
    c' = c \/ executed cfg c c'
  end.

(** The counters while the loop runs, [k] passes in. *)
Definition good (cfg : settings) (k : Z) (c : counters) : Prop :=
  0 <= c_invocations c <= c_tool_calls c /\ c_tool_calls c <= MAX_TOOL_CALLS cfg /\
  0 <= c_lang_retry c < MAX_LANG_RETRY cfg /\
  c_rejected_finals c = c_lang_retry c /\
  k = c_tool_calls c + c_lang_retry c + c_ungated c.

(** The counters however the loop stands or ended, [k] passes in. *)
Definition bounded (cfg : settings) (k : Z) (o : outcome) : Prop :=
  let c := counters_of (state_of o) in
  0 <= c_invocations c <= c_tool_calls c /\ c_tool_calls c <= MAX_TOOL_CALLS cfg /\
  0 <= c_lang_retry c <= MAX_LANG_RETRY cfg /\
  c_rejected_finals c = c_lang_retry c /\
  (running o = true -> good cfg k c).

(** The ceiling on tool calls. *)
Definition below_ceiling (cfg : settings) (c : counters) : Prop :=
  c_invocations c <= c_tool_calls c /\ c_tool_calls c <= MAX_TOOL_CALLS cfg.

(** ** The hint injection on a dict *)

(** The four assignments of the hint injection, on [args] as a dict. *)
Definition fill_cluster (h : hints) (args : dict) : dict :=
  match some_nonempty (hinted_cluster h) with
  | Some c =>
    if is_blank_or_not_str (get k_cluster args) then dict_set k_cluster (JStr c) args
    else args
  | None => args
  end.

Definition fill_namespace (h : hints) (args : dict) : dict :=
  match some_nonempty (hinted_namespace h) with
  | Some ns =>
    if namespace_unset (get k_namespace args) then dict_set k_namespace (JStr ns) args
    else args
  | None => args
  end.

Definition fill_window (h : hints) (args : dict) : dict :=
  match hinted_window h with
  | Some n => if n =? 0 then args else dict_set k_window_minutes (JInt n) args
  | None => args
  end.

Definition fill_status (h : hints) (args : dict) : dict :=
  match hinted_status h with
  | [] => args
  | status =>
    if is_none (get k_status args) then dict_set k_status (JStr status) args
    else args
  end.

(** ** Inputs of the examples *)

(** JSON text is written with an apostrophe where the text has a double
    quote. *)
Definition dq (s : str) : str := map (fun c => if c =? 39 then 34 else c) s.

Definition json_a1 : str := dq (u "{'a': 1}").

(** The question of scenario A. *)
Definition scenario_A : str := u "marios-stg-eks 클러스터 최근 30분 에러 서비스".

(** The hints of scenario A. *)
Definition scenario_A_hints : hints :=
  {| hinted_cluster := Some (u "marios-stg-eks"); hinted_namespace := None;
     hinted_window := Some 30; hinted_status := u "error" |}.

(** The runtime of the examples: a Unicode database with no letters,
    digits or case pairs beyond those fixed above, and a [repr] that prints
    a question mark. *)
Definition example_runtime : PyRuntime :=
  {| uni_isalnum := fun _ => false;
     uni_lower := fun c => [c];
     uni_decimal := fun _ => None;
     py_repr := fun _ => u "?" |}.

(** A model that answers every prompt with the same text, and a tool
    service that is down. *)
Definition constant_model (reply : str) : world :=
  {| llm_chat := fun _ => reply;
     http_post := fun _ _ => Raise RequestException |}.

(** A model that gives its replies in turn (every prompt adds two messages
    to the three of the start), and a tool service that finds no service. *)
Definition scripted_model (replies : list str) : world :=
  {| llm_chat := fun ms => nth ((List.length ms - 3) / 2) replies [];
     http_post := fun _ _ =>
       Ok (JDict [(u "summary", JStr (u "0 services")); (u "services", JList [])]) |}.

(** A tool call that names no tool. *)
Definition stubborn_reply : str := dq (u "{'action': 'tool_call'}").

Definition tool_call_reply : str :=
  dq (u "{'action': 'tool_call', 'tool': 'current_error_services', 'args': {'cluster': 'marios-prd-eks'}}").

Definition final_reply : str :=
  dq (u "{'action': 'final', 'title': '요약', 'summary': '에러 없음', 'findings': [], 'next_actions': []}").

Definition final_envelope : json :=
  JDict [(k_action, JStr s_final); (u "title", JStr (u "요약"));
         (u "summary", JStr (u "에러 없음")); (u "findings", JList []);
         (u "next_actions", JList [])].

(** A final envelope with a key written in Han characters, as text and as
    parsed. *)
Definition han_key_reply : str :=
  dq (u "{'action': 'final', 'title': '요약', '摘要': 'ok'}").

Definition han_key_envelope : json :=
  JDict [(k_action, JStr s_final); (u "title", JStr (u "요약")); (u "摘要", JStr (u "ok"))].

(** A tool call whose [limit] is null. *)
Definition null_limit_reply : str :=
  dq (u "{'action': 'tool_call', 'tool': 'current_error_services', 'args': {'cluster': 'marios-prd-eks', 'limit': null}}").

(** A call for the comparison tool with both thresholds far too high. *)
Definition call_increasing : dict :=
  [(k_action, JStr s_tool_call);
   (k_tool, JStr s_increasing_error_services);
   (k_args, JDict [(k_cluster, JStr (u "marios-prd-eks"));
                   (k_min_delta, JInt 5000000);
                   (k_min_ratio, JInt 250)])].

(** The proposed call of scenario E, and one for a tool that is not on
    the list. *)
Definition scenario_E_call : dict :=
  [(k_action, JStr s_tool_call); (k_tool, JStr s_current_error_services);
   (k_args, JDict [])].

Definition unlisted_tool_call : dict :=
  [(k_action, JStr s_tool_call); (k_tool, JStr (u "restart_service"));
   (k_args, JDict [])].




Definition no_hints : hints :=
  {| hinted_cluster := None; hinted_namespace := None; hinted_window := None;
     hinted_status := u "error" |}.


(** A state in which two tool calls were counted. *)
Definition state_at_ceiling : state :=
  {| messages := []; tool_calls := 2; lang_retry := 0; trace := []; invocations := [] |}.

(** * What the proofs of the further properties speak of *)

(** ** Normal form of the arguments *)

(** A string with no white space (of the given kind) at its head. *)
Definition clean_head (space : Z -> bool) (s : str) : Prop :=
  match s with
  | [] => True
  | c :: _ => space c = false
  end.

(** The arguments as a successful normalisation leaves them. *)
Definition common_args (cfg : settings) (args : dict) (c st : str) (nsv : json) (window limit : Z) : dict :=
  dict_set k_limit (JInt (clamp_int limit (LIMIT_MIN cfg) (LIMIT_MAX cfg)))
    (dict_set k_window_minutes (JInt (clamp_int window (WINDOW_MIN cfg) (WINDOW_MAX cfg)))
       (dict_set k_namespace nsv
          (dict_set k_status (JStr (or_default (strip st) s_error))
             (dict_set k_cluster (JStr (strip c)) args)))).

(** What validation makes of a proposed namespace; [None] where it raises. *)
Definition namespace_value (x : json) : option json :=
  match x with
  | JNull => Some JNull
  | JStr ns => Some (match strip ns with [] => JNull | t => JStr t end)
  | _ => None
  end.

(** Arguments in normal form: what a successful validation leaves, and
    leaves alone when it meets them again. *)
Definition normal_args (cfg : settings) (tool : json) (args : dict) : Prop :=
  exists c st nsv w l,
    dict_get k_cluster args = Some (JStr c) /\ c <> [] /\ strip c = c /\
    dict_get k_status args = Some (JStr st) /\ st <> [] /\ strip st = st /\
    dict_get k_namespace args = Some nsv /\
    (nsv = JNull \/ exists ns, nsv = JStr ns /\ ns <> [] /\ strip ns = ns) /\
    dict_get k_window_minutes args = Some (JInt w) /\
    clamp_int w (WINDOW_MIN cfg) (WINDOW_MAX cfg) = w /\
    dict_get k_limit args = Some (JInt l) /\
    clamp_int l (LIMIT_MIN cfg) (LIMIT_MAX cfg) = l /\
    (eq_str tool s_increasing_error_services = true ->
     exists md mr,
       dict_get k_min_delta args = Some (JInt md) /\ 1 <= md <= 999999 /\
       dict_get k_min_ratio args = Some (JFloat mr) /\
       clamp_float mr f_1 f_100 = mr).

(** The arguments validation reads or writes. *)
Definition known_arguments : list str :=
  [k_cluster; k_status; k_namespace; k_window_minutes; k_limit; k_min_delta; k_min_ratio].

(** ** The conversation of a run *)

(** One exchange after the opening messages: what the model said, and what
    the loop answered. *)
Definition turn (t : str * str) : list message :=
  [say assistant (fst t); say user (snd t)].

(** [st'] holds what [st] holds, and then more exchanges, more trace
    entries and more requests. *)
Definition extends (st st' : state) : Prop :=
  (exists turns, messages st' = messages st ++ flat_map turn turns) /\
  (exists entries, trace st' = trace st ++ entries) /\
  (exists requests, invocations st' = invocations st ++ requests).

(** What a pass that returns has recorded last in the trace. *)
Definition recorded {RT : PyRuntime} (f : json) (tr : list json) : Prop :=
  last tr JNull = entry "final" [(k_content, f)] \/
  last tr JNull = entry "final_sanitized" [(k_content, f)] \/
  (f = parse_failure_final /\
   exists text, last tr JNull = entry "llm_raw" [(k_content, JStr text)]) \/
  (exists d, f = unknown_action_final (get k_action d) (JDict d) /\
             last tr JNull = entry "unknown_action" [(k_content, JDict d)]).

(** ** Keyword calls and the request models of the tool service *)

(** The value a keyword call binds to a parameter: the one supplied, or
    the default. *)
Definition bound_value (kwargs : dict) (param : str * option json) : option json :=
  match dict_get (fst param) kwargs with
  | Some v => Some v
  | None => snd param
  end.

(** The two tools: name, path of the endpoint, parameters. *)
Definition tools : list (str * (str * signature)) :=
  [(s_current_error_services,
    (u "/tools/current-error-services", current_error_services_sig));
   (s_increasing_error_services,
    (u "/tools/increasing-error-services", increasing_error_services_sig))].

(** What a field of a request model asks of its value: a string of some
    minimal length, a string or null, an integer or a float within
    bounds. *)
Inductive annotation :=
| a_str (min_length : nat)
| a_optional_str
| a_int (ge : Z) (le : option Z)
| a_float (ge le : float).

Record model_field := {
  field_name : str;
  field_annotation : annotation;
  field_default : option json
}.

(** models/current_error_services_request.py *)
Definition CurrentErrorServicesRequest : list model_field :=
  [ {| field_name := k_cluster; field_annotation := a_str 1; field_default := None |};
    {| field_name := k_namespace; field_annotation := a_optional_str;
       field_default := Some JNull |};
    {| field_name := k_status; field_annotation := a_str 1;
       field_default := Some (JStr s_error) |};
    {| field_name := k_window_minutes; field_annotation := a_int 5 (Some 20160);
       field_default := Some (JInt 15) |};
    {| field_name := k_limit; field_annotation := a_int 1 (Some 20);
       field_default := Some (JInt 10) |} ].

(** models/increasing_error_services_request.py *)
Definition IncreasingErrorServicesRequest : list model_field :=
  [ {| field_name := k_cluster; field_annotation := a_str 1; field_default := None |};
    {| field_name := k_namespace; field_annotation := a_optional_str;
       field_default := Some JNull |};
    {| field_name := k_status; field_annotation := a_str 1;
       field_default := Some (JStr s_error) |};
    {| field_name := k_window_minutes; field_annotation := a_int 5 (Some 20160);
       field_default := Some (JInt 15) |};
    {| field_name := k_limit; field_annotation := a_int 1 (Some 20);
       field_default := Some (JInt 10) |};
    {| field_name := k_min_delta; field_annotation := a_int 1 None;
       field_default := Some (JInt 10) |};
    {| field_name := k_min_ratio; field_annotation := a_float f_1 f_100;
       field_default := Some (JFloat f_2) |} ].

(** A value of the declared type that meets the declared constraints. *)
Definition meets (a : annotation) (v : json) : bool :=
  match a, v with
  | a_str n, JStr s => (n <=? List.length s)%nat
  | a_optional_str, JNull => true
  | a_optional_str, JStr _ => true
  | a_int ge le, JInt z =>
    (ge <=? z) && match le with Some hi => z <=? hi | None => true end
  | a_float ge le, JFloat f => float_le ge f && float_le f le
  | _, _ => false
  end.

(** A payload that gives every field such a value, or leaves out one that
    has a default. *)
Definition fits (model : list model_field) (payload : dict) : bool :=
  forallb (fun f =>
             match dict_get (field_name f) payload with
             | Some v => meets (field_annotation f) v
             | None => match field_default f with Some _ => true | None => false end
             end) model.

(** mcp_server.py: the request model of each endpoint. *)
Definition request_model (path : str) : option (list model_field) :=
  if str_eqb path (u "/tools/current-error-services")
  then Some CurrentErrorServicesRequest
  else if str_eqb path (u "/tools/increasing-error-services")
  then Some IncreasingErrorServicesRequest
  else None.

(** A request to a known endpoint whose payload fits the model of it. *)
Definition well_formed_request (rq : request) : Prop :=
  exists model payload,
    request_model (fst rq) = Some model /\ snd rq = JDict payload /\
    fits model payload = true.

(** ** The rows of a compact result *)

Definition row_keys : list str :=
  [u "service"; u "count"; u "previous"; u "current"; u "delta"; u "ratio"].

(** A row of [services_top5] made from the service [s]: the six fields of
    [s], null where [s] has none, and then at most one sample of at most
    220 characters. *)
Definition compact_row_of (s row : json) : Prop :=
  exists d rest,
    s = JDict d /\ row = JDict (map (fun k => (k, get k d)) row_keys ++ rest) /\
    (rest = [] \/
     exists sample, rest = [(u "sample", JStr sample)] /\
                    (List.length sample <= 220)%nat).

(** ** The shapes of question the hint extractors are proved on *)

(** The units of a window and their minutes. *)
Definition window_units : list (str * Z) :=
  [(u "주일", 7 * 24 * 60); (u "주", 7 * 24 * 60); (u "일", 24 * 60); (u "시간", 60);
   (u "분", 1)].

(** The last group of the window pattern. *)
Definition unit_re : regex :=
  RGroup 2 (RAlt (lit (u "주일")) (RAlt (lit (u "주")) (RAlt (lit (u "일"))
       (RAlt (lit (u "시간")) (lit (u "분")))))).

(** The characters of a cluster or namespace name: ASCII letters and
    digits, and then hyphens too. *)
Definition name_start (c : Z) : bool :=
  is_ascii_lower c || is_ascii_upper c || is_ascii_digit c.

Definition name_char (c : Z) : bool := name_start c || (c =? 45).

(** A name the token pattern takes whole: it starts with a letter or a
    digit and goes on with letters, digits and hyphens. *)
Definition is_name (s : str) : bool :=
  match s with
  | c :: s' => name_start c && forallb name_char s'
  | [] => false
  end.

(** What the token pattern cannot take: the end of the text, or a
    character outside its set. *)
Definition ends_name (rest : str) : Prop :=
  match rest with
  | x :: _ => existsb (in_ranges [(97, 122); (48, 57); (45, 45)]) (variants true x) = false
  | [] => True
  end.

(** The words for cluster and for namespace, as the patterns spell them. *)
Definition cluster_words : list str := [u "클러스터"; u "cluster"].
Definition namespace_words : list str := [u "네임스페이스"; u "namespace"].

(** What may stand between a name and its keyword, and after the keyword. *)
Definition word_ends {RT : PyRuntime} (rest : str) : Prop :=
  match rest with
  | x :: _ => is_word x = false
  | [] => True
  end.

(** * agent_server.py *)

Record AskRequest := {
  question : str;
  include_trace : bool
}.

(** What [ask] hands to the framework: the body of the answer, or an
    [HTTPException]. *)
Inductive answer :=
| Body (body : dict)
| HTTPException (status_code : Z) (detail : json).

Section Server.
Context {RT : PyRuntime}.

(** [AGENT_API_KEY] is read from the environment when the module is
    loaded; [str(e)] and the text of the traceback are the interpreter's. *)
Variable AGENT_API_KEY : str.
Variable exception_text : exn -> str.
Variable format_exc : exn -> str.

(** [not x_api_key or x_api_key != AGENT_API_KEY], when a key is set *)
Definition key_refused (x_api_key : option str) : bool :=
  match AGENT_API_KEY with
  | [] => false
  | _ =>
    match x_api_key with
    | None => true
    | Some k => match k with [] => true | _ => negb (str_eqb k AGENT_API_KEY) end
    end
  end.

(** [ask(req, x_api_key)], with [run_agent] cut after [n] passes: [None]
    when the run has not ended by then. *)
Definition ask (cfg : settings) (w : world) (req : AskRequest) (x_api_key : option str)
    (n : nat) : option answer :=
  if key_refused x_api_key
  then Some (HTTPException 401 (JStr (u "Invalid API key")))
  else
    match run_agent cfg w (question req) n with
    | Return result st =>
      Some (Body (if include_trace req
                  then [(u "result", result); (u "trace", JList (trace st))]
                  else [(u "result", result)]))
    | Raised e st =>
      Some (HTTPException 502
              (JDict [(u "error", JStr (exception_text e));
                      (u "where", JStr (u "agent_server.ask -> run_agent"));
                      (u "traceback", JStr (format_exc e))]))
    | Continue _ => None
    end.

(** No key is configured, or the header carries it. *)
Definition key_accepted (x_api_key : option str) : Prop :=
  AGENT_API_KEY = [] \/ x_api_key = Some AGENT_API_KEY.

End Server.

(** ** The accounts of a run *)

(** The counter, the trace and the requests agree: every call counted made
    one request and left a [tool_call] and a [tool_result] entry. *)
Definition settled (st : state) : Prop :=
  tool_calls st = count_type "tool_call" (trace st) /\
  count_type "tool_result" (trace st) = count_type "tool_call" (trace st) /\
  Z.of_nat (List.length (invocations st)) = tool_calls st.

(** The same, but for a last call that was counted and then raised, with
    or without its request made. *)
Definition interrupted (st : state) : Prop :=
  tool_calls st = count_type "tool_call" (trace st) + 1 /\
  count_type "tool_result" (trace st) = count_type "tool_call" (trace st) /\
  tool_calls st - 1 <= Z.of_nat (List.length (invocations st)) <= tool_calls st.


(** ** Inputs of the further examples *)

(** A call with padded arguments, a limit written as text, a window far
    too long and an argument the tool does not have. *)
Definition padded_call : dict :=
  [(k_action, JStr s_tool_call); (k_tool, JStr s_current_error_services);
   (k_args, JDict [(k_cluster, JStr (u "  marios-prd-eks ")); (k_status, JStr (u " "));
                   (k_namespace, JStr (u " dtslm ")); (k_window_minutes, JInt 100000);
                   (k_limit, JStr (u "7")); (u "verbose", JBool true)])].

(** A call that proposes a window of five minutes, and the hints of a
    question that asks for thirty. *)
Definition five_minute_call : dict :=
  [(k_action, JStr s_tool_call); (k_tool, JStr s_current_error_services);
   (k_args, JDict [(k_cluster, JStr (u "marios-prd-eks")); (k_window_minutes, JInt 5)])].

Definition thirty_minute_hints : hints :=
  {| hinted_cluster := None; hinted_namespace := None; hinted_window := Some 30;
     hinted_status := u "error" |}.

(** A tool result with six services, each with a sample of 300 characters. *)
Definition six_services_result : json :=
  JDict [(u "summary", JStr (u "top 10"));
         (u "comparison", JStr (u "now and before"));
         (u "services",
          JList (map (fun n => JDict [(u "service", JStr (str_of_Z n)); (u "count", JInt n);
                                      (u "samples", JList [JStr (repeat 120 300)])])
                     [6; 5; 4; 3; 2; 1]))].

(** A question that names a namespace, and one that speaks of warnings. *)
Definition namespace_question : str := u "dtslm namespace errors".

Definition warning_question : str := u "any WARNings or info for prod?".

(** * datadog_api_sample: the tool service *)

Module Datadog.

(** ** datadog_config.py *)

(** [s.rstrip(c)] for a one-character [c] *)
Definition rstrip_char (c : Z) (s : str) : str :=
  rev (lstrip_by (Z.eqb c) (rev s)).

Definition _normalize_host (site : option str) : str :=
  let s := strip (match site with Some s => s | None => [] end) in
  match s with
  | [] => u "https://api.datadoghq.com"
  | _ =>
    if starts_with (u "http://") s || starts_with (u "https://") s
    then rstrip_char 47 s
    else if starts_with (u "api.") s then rstrip_char 47 (u "https://" ++ s)
    else rstrip_char 47 (u "https://api." ++ s)
  end.

(** ** Python numbers the ranking needs *)

(** [a / b] on integers with [0 < a] and [0 < b]: the double nearest to the
    quotient; a quotient too large for a double raises. *)
Definition true_divide (a b : Z) : res float :=
  let '(q, e, l) := SFdiv_core_binary prec emax a 0 b 0 in
  match binary_round_aux prec emax false q e l with
  | S754_infinity _ => Raise OverflowError
  | f => Ok f
  end.

(** [round(x, 2)]: the exact value of [x] rounded to two decimals, ties to
    the even digit, and from there to the nearest double. *)
Definition round2 (x : float) : float :=
  match x with
  | S754_finite s m e =>
    if 0 <=? e then x
    else
      let n := Zpos m * 100 in
      let d := 2 ^ (- e) in
      let q := n / d in
      let r := n mod d in
      let q' := if (d <? 2 * r) || ((2 * r =? d) && Z.odd q) then q + 1 else q in
      float_of_decimal s q' (-2)
  | _ => x
  end.

Definition float_ge (a b : float) : bool := SFleb b a.

(** [a == b] on floats *)
Definition float_eqb (a b : float) : bool := SFeqb a b.

(** [f == n] for a float and an integer, exactly *)
Definition float_eq_int (f : float) (n : Z) : bool :=
  match f with
  | S754_zero _ => n =? 0
  | S754_finite s m e =>
    let v := if s then Zneg m else Zpos m in
    if 0 <=? e then n =? v * 2 ^ e else n * 2 ^ (- e) =? v
  | _ => false
  end.

(** ** Dict keys *)

(** Lists and dicts cannot be keys. *)
Definition hashable (k : json) : bool :=
  match k with
  | JList _ | JDict _ => false
  | _ => true
  end.

Definition as_int (k : json) : option Z :=
  match k with
  | JInt n => Some n
  | JBool b => Some (if b then 1 else 0)
  | _ => None
  end.

(** [a == b] on keys: numbers by value, strings by their characters. *)
Definition key_eqb (a b : json) : bool :=
  match a, b with
  | JNull, JNull => true
  | JStr s, JStr t => str_eqb s t
  | JFloat f, JFloat g => float_eqb f g
  | JFloat f, _ => match as_int b with Some n => float_eq_int f n | None => false end
  | _, JFloat g => match as_int a with Some n => float_eq_int g n | None => false end
  | _, _ =>
    match as_int a, as_int b with
    | Some m, Some n => m =? n
    | _, _ => false
    end
  end.

(** A dict with any hashable key, in insertion order. *)
Definition kdict (A : Type) := list (json * A).

Fixpoint kdict_get A (k : json) (d : kdict A) : option A :=
  match d with
  | [] => None
  | (k', v) :: d' => if key_eqb k k' then Some v else kdict_get k d'
  end.

Fixpoint kdict_set A (k : json) (v : A) (d : kdict A) : kdict A :=
  match d with
  | [] => [(k, v)]
  | (k', v') :: d' =>
    if key_eqb k k' then (k', v) :: d' else (k', v') :: kdict_set k v d'
  end.

(** ** Time *)

(** A [datetime] in UTC as its microseconds since the epoch; the first and
    the last instant a [datetime] can hold. *)
Definition datetime_min : Z := -62135596800 * 1000000.
Definition datetime_max : Z := 253402300799 * 1000000 + 999999.

(** [t - timedelta(minutes=m)]: neither the [timedelta] nor the result may
    leave its range. *)
Definition minus_minutes (t m : Z) : res Z :=
  if (m / 1440 <? -999999999) || (999999999 <? m / 1440) then Raise OverflowError
  else
    let t' := t - m * 60000000 in
    if (t' <? datetime_min) || (datetime_max <? t') then Raise OverflowError
    else Ok t'.

(** ** The Logs API *)

(** A bucket of an aggregate response: [by] and [computes] are a dict or
    [None] when set ([None] here: the attribute is not set, reading it
    raises). *)
Record bucket := {
  by_ : option json;
  computes : option json
}.

(** The attributes of a log: [message] and the nested [attributes], null
    when not set. *)
Record log_attributes := {
  message : json;
  nested_attributes : json
}.

(** A log of a list response, with its [attributes] when set. *)
Record log := { attributes : option log_attributes }.

(** What [sample_logs_for_service] asks of [list_logs]. *)
Record LogsListRequest := {
  filter_from : str;
  filter_to : str;
  filter_query : str;
  sort_timestamp_descending : bool;
  page_limit : Z
}.

(** The client: [aggregate_logs] gives the buckets of [resp.data] ([None]
    when there are none), [list_logs] the logs of [resp.data]; the clock
    gives the present instant. *)
Record LogsApi := {
  aggregate_logs : json -> res (option (list bucket));
  list_logs : LogsListRequest -> res (option (list log));
  utc_now : Z
}.

Section DatadogApi.
Context {RT : PyRuntime}.

(** [dt.isoformat()] is the interpreter's. *)
Variable iso : Z -> str.
Variable api : LogsApi.

(** ** datadog_api.py *)

Definition attribute (x : option json) : res json :=
  match x with
  | Some v => Ok v
  | None => Raise AttributeError
  end.

(** [x.get(k, default)] on a value that need not be a dict *)
Definition attr_get_default (k : str) (dflt : json) (x : json) : res json :=
  match x with
  | JDict d => Ok (get_default k dflt d)
  | _ => Raise AttributeError
  end.

Definition aggregate_body (query : str) (time_from time_to : Z) (facet : str) (limit : Z)
    : json :=
  JDict [(u "filter", JDict [(u "from", JStr (iso time_from));
                             (u "to", JStr (iso time_to));
                             (u "query", JStr query)]);
         (u "compute", JList [JDict [(u "aggregation", JStr (u "count"))]]);
         (u "group_by",
          JList [JDict [(u "facet", JStr facet);
                        (u "limit", JInt limit);
                        (u "sort", JDict [(u "type", JStr (u "measure"));
                                          (u "aggregation", JStr (u "count"));
                                          (u "order", JStr (u "desc"))])]])].

(** The loop over the buckets. *)
Fixpoint collect_buckets (facet : str) (bs : list bucket) : res (list json) :=
  match bs with
  | [] => Ok []
  | b :: bs' =>
    by_b <- attribute (by_ b) ;;
    key <- attr_get facet (or_else by_b (JDict [])) ;;
    computes_b <- attribute (computes b) ;;
    cnt <- attr_get_default (u "c0") (JInt 0) (or_else computes_b (JDict [])) ;;
    if truthy key then
      n <- py_int cnt ;;
      rest <- collect_buckets facet bs' ;;
      Ok (JDict [(u "key", key); (u "count", JInt n)] :: rest)
    else collect_buckets facet bs'
  end.

Definition aggregate_top (query : str) (time_from time_to : Z) (facet : str) (limit : Z)
    : res (list json) :=
  data <- aggregate_logs api (aggregate_body query time_from time_to facet limit) ;;
  collect_buckets facet (match data with Some bs => bs | None => [] end).

(** [r[k]] *)
Definition item (k : str) (r : json) : res json :=
  match r with
  | JDict d =>
    match dict_get k d with
    | Some v => Ok v
    | None => Raise KeyError
    end
  | _ => Raise TypeError
  end.

Fixpoint service_rows (rows : list json) : res (list json) :=
  match rows with
  | [] => Ok []
  | r :: rows' =>
    key <- item (u "key") r ;;
    count <- item (u "count") r ;;
    rest <- service_rows rows' ;;
    Ok (JDict [(u "service", key); (u "count", count)] :: rest)
  end.

Definition aggregate_top_services (query : str) (time_from time_to : Z) (limit : Z)
    : res (list json) :=
  rows <- aggregate_top query time_from time_to (u "service") limit ;;
  service_rows rows.

(** The first of the given keys that [nested] has with a truthy value. *)
Fixpoint first_truthy (keys : list str) (nested : dict) : option json :=
  match keys with
  | [] => None
  | k :: keys' =>
    match dict_get k nested with
    | Some v => if truthy v then Some v else first_truthy keys' nested
    | None => first_truthy keys' nested
    end
  end.

Definition _extract_message (it : log) : str :=
  match attributes it with
  | None => u "(no attributes)"
  | Some attrs =>
    if truthy (message attrs) then py_str (message attrs)
    else
      match nested_attributes attrs with
      | JDict nested =>
        match first_truthy [u "message"; u "msg"; u "log"; u "error"; u "exception"] nested with
        | Some v => py_str v
        | None => u "(message field not found)"
        end
      | _ => u "(message field not found)"
      end
  end.

Definition sample_logs_for_service (base_query : str) (service_name : json)
    (time_from time_to : Z) (limit : Z) : res (list json) :=
  let q := base_query ++ u " service:" ++ py_str service_name in
  data <- list_logs api {| filter_from := iso time_from; filter_to := iso time_to;
                           filter_query := q; sort_timestamp_descending := true;
                           page_limit := limit |} ;;
  Ok (map (fun it => JStr (firstn 300 (_extract_message it)))
          (match data with Some l => l | None => [] end)).

Definition build_log_query (cluster status : str) (namespace : option str) : str :=
  let parts := [u "kube_cluster_name:" ++ cluster] in
  let parts := match status with [] => parts | _ => parts ++ [u "status:" ++ status] end in
  let parts := match namespace with
               | Some (c :: ns) => parts ++ [u "kube_namespace:" ++ c :: ns]
               | _ => parts
               end in
  let parts := parts ++ [u "service:*"] in
  join (u " ") parts.

(** [row["samples"] = sample_logs_for_service(...)] for every row in turn *)
Fixpoint add_samples (base : str) (time_from time_to : Z) (rows : list json)
    : res (list json) :=
  match rows with
  | [] => Ok []
  | row :: rows' =>
    service <- item (u "service") row ;;
    samples <- sample_logs_for_service base service time_from time_to 2 ;;
    row' <- set_item (u "samples") (JList samples) row ;;
    rest <- add_samples base time_from time_to rows' ;;
    Ok (row' :: rest)
  end.

Definition json_of_namespace (namespace : option str) : json :=
  match namespace with
  | Some ns => JStr ns
  | None => JNull
  end.

Definition window_of (time_from time_to : Z) : json :=
  JDict [(u "from", JStr (iso time_from)); (u "to", JStr (iso time_to))].

Definition current_error_services (cluster status : str) (namespace : option str)
    (window_minutes limit : Z) : res json :=
  let now := utc_now api in
  t_from <- minus_minutes now window_minutes ;;
  let base := build_log_query cluster status namespace in
  top <- aggregate_top_services base t_from now limit ;;
  top <- add_samples base t_from now top ;;
  Ok (JDict [(u "summary",
              JStr (u "최근 " ++ str_of_Z window_minutes
                      ++ u "분 동안 에러가 발생한 서비스 Top " ++ str_of_Z limit));
             (u "window", window_of t_from now);
             (u "query", JStr base);
             (u "services", JList top)]).

(** [{r["service"]: r["count"] for r in prev}] *)
Fixpoint previous_counts (prev : list json) (acc : kdict json) : res (kdict json) :=
  match prev with
  | [] => Ok acc
  | r :: prev' =>
    s <- item (u "service") r ;;
    c <- item (u "count") r ;;
    if hashable s then previous_counts prev' (kdict_set s c acc) else Raise TypeError
  end.

(** [cur_c / max(prev_c, 1) if cur_c > 0 else 0.0] *)
Definition ratio_of (cur_c prev_c : Z) : res float :=
  if 0 <? cur_c then true_divide cur_c (Z.max prev_c 1) else Ok (S754_zero false).

Definition as_count (x : json) : res Z :=
  match x with
  | JInt n => Ok n
  | _ => Raise TypeError
  end.

(** The loop over the current counts: the rows that pass both thresholds. *)
Fixpoint increased (prev_map : kdict json) (min_delta : Z) (min_ratio : float)
    (cur : list json) : res (list json) :=
  match cur with
  | [] => Ok []
  | r :: cur' =>
    s <- item (u "service") r ;;
    c <- item (u "count") r ;;
    cur_c <- as_count c ;;
    p <- (if hashable s
          then Ok (match kdict_get s prev_map with Some v => v | None => JInt 0 end)
          else Raise TypeError) ;;
    prev_c <- as_count p ;;
    let delta := cur_c - prev_c in
    ratio <- ratio_of cur_c prev_c ;;
    rest <- increased prev_map min_delta min_ratio cur' ;;
    if (min_delta <=? delta) && float_ge ratio min_ratio then
      Ok (JDict [(u "service", s); (u "previous", JInt prev_c); (u "current", JInt cur_c);
                 (u "delta", JInt delta); (u "ratio", JFloat (round2 ratio))] :: rest)
    else Ok rest
  end.

(** The sort key [(x["ratio"], x["delta"])] of a row. *)
Definition sort_key (row : json) : float * Z :=
  match row with
  | JDict d =>
    (match get (u "ratio") d with JFloat f => f | _ => S754_nan end,
     match get (u "delta") d with JInt n => n | _ => 0 end)
  | _ => (S754_nan, 0)
  end.

(** [a < b] on such keys *)
Definition key_lt (a b : float * Z) : bool :=
  if float_eqb (fst a) (fst b) then snd a <? snd b else float_lt (fst a) (fst b).

(** [rows.sort(key=..., reverse=True)]: descending, and rows with equal
    keys stay in the order they had. *)
Fixpoint insert_descending (x : json) (sorted : list json) : list json :=
  match sorted with
  | [] => [x]
  | y :: sorted' =>
    if key_lt (sort_key y) (sort_key x) then x :: sorted
    else y :: insert_descending x sorted'
  end.

Definition sort_descending (rows : list json) : list json :=
  fold_left (fun acc x => insert_descending x acc) rows [].

(** [rows[:limit]] *)
Definition upto (limit : Z) (rows : list json) : list json :=
  if 0 <=? limit then firstn (Z.to_nat limit) rows
  else firstn (Z.to_nat (Z.of_nat (List.length rows) + limit)) rows.

Definition increasing_error_services (cluster status : str) (namespace : option str)
    (window_minutes limit min_delta : Z) (min_ratio : float) : res json :=
  let now := utc_now api in
  cur_from <- minus_minutes now window_minutes ;;
  let prev_to := cur_from in
  prev_from <- minus_minutes prev_to window_minutes ;;
  let base := build_log_query cluster status namespace in
  cur <- aggregate_top_services base cur_from now 1000 ;;
  prev <- aggregate_top_services base prev_from prev_to 1000 ;;
  prev_map <- previous_counts prev [] ;;
  rows <- increased prev_map min_delta min_ratio cur ;;
  let rows := upto limit (sort_descending rows) in
  rows <- add_samples base cur_from now rows ;;
  Ok (JDict [(u "summary",
              JStr (u "최근 " ++ str_of_Z window_minutes
                      ++ u "분 동안 에러가 증가한 서비스 Top " ++ str_of_Z limit));
             (u "comparison",
              JDict [(u "current", window_of cur_from now);
                     (u "previous", window_of prev_from prev_to)]);
             (u "threshold",
              JDict [(u "min_delta", JInt min_delta); (u "min_ratio", JFloat min_ratio)]);
             (u "query", JStr base);
             (u "services", JList rows)]).

End DatadogApi.

End Datadog.

(** ** What the statements about the tool service say *)

Definition ends_with_slash (s : str) : Prop :=
  match rev s with
  | c :: _ => c = 47
  | [] => False
  end.

(** A sample is a text of at most 300 characters. *)
Definition snippet (x : json) : Prop :=
  exists t, x = JStr t /\ (List.length t <= 300)%nat.

(** A row of the current errors: a named service, its count and its samples. *)
Definition reported (row : json) : Prop :=
  exists service count samples,
    row = JDict [(u "service", service); (u "count", JInt count);
                 (u "samples", JList samples)] /\
    truthy service = true /\ Forall snippet samples.







(** A row of a window: a named service and its count. *)
Definition tallied (row : json) : Prop :=
  exists service n,
    row = JDict [(u "service", service); (u "count", JInt n)] /\ truthy service = true.


(** ** Inputs of the examples of the tool service *)

(** An instant as the text of its microseconds stands for its ISO form. *)
Definition example_iso (t : Z) : str := str_of_Z t.

Definition example_now : Z := 1700000000 * 1000000.

Definition example_bucket (service : json) (count : json) : Datadog.bucket :=
  {| Datadog.by_ := Some (JDict [(u "service", service)]);
     Datadog.computes := Some (JDict [(u "c0", count)]) |}.

(** A client with four services in the window that ends now (one of them
    without a name), three in any other window, and one long log line for
    every service. *)
Definition example_logs_api : Datadog.LogsApi :=
  {| Datadog.aggregate_logs := fun body =>
       match body with
       | JDict b =>
         match get (u "filter") b with
         | JDict f =>
           match get (u "to") f with
           | JStr t =>
             if str_eqb t (example_iso example_now)
             then Ok (Some [example_bucket (JStr (u "web")) (JInt 40);
                            example_bucket (JStr (u "db")) (JInt 12);
                            example_bucket (JStr []) (JInt 90);
                            example_bucket (JStr (u "cache")) (JStr (u "33"));
                            example_bucket (JStr (u "batch")) (JInt 60)])
             else Ok (Some [example_bucket (JStr (u "web")) (JInt 10);
                            example_bucket (JStr (u "db")) (JInt 11);
                            example_bucket (JStr (u "batch")) (JInt 20)])
           | _ => Raise TypeError
           end
         | _ => Raise TypeError
         end
       | _ => Raise TypeError
       end;
     Datadog.list_logs := fun _ =>
       Ok (Some [{| Datadog.attributes :=
                      Some {| Datadog.message := JStr (repeat 120 400);
                              Datadog.nested_attributes := JNull |} |}]);
     Datadog.utc_now := example_now |}.

(** * Proofs *)

(** ** Strings and dicts *)

Lemma str_eqb_refl (s : str) : str_eqb s s = true.
Proof.
  induction s as [|c s IH]; simpl; [reflexivity|].
  now rewrite Z.eqb_refl.
Qed.

Lemma str_eqb_eq (a b : str) : str_eqb a b = true <-> a = b.
Proof.
  split.
  - revert b; induction a as [|x a IH]; intros [|y b]; simpl; try discriminate; auto.
    intro H. apply andb_prop in H as [Hx Hab].
    apply Z.eqb_eq in Hx. f_equal; auto.
  - intros ->. apply str_eqb_refl.
Qed.

Lemma str_eqb_sym (a b : str) : str_eqb a b = str_eqb b a.
Proof.
  destruct (str_eqb a b) eqn:E.
  - apply str_eqb_eq in E. subst. now rewrite str_eqb_refl.
  - destruct (str_eqb b a) eqn:E'; [|reflexivity].
    apply str_eqb_eq in E'. subst. now rewrite str_eqb_refl in E.
Qed.

Lemma dict_get_set_same k v d : dict_get k (dict_set k v d) = Some v.
Proof.
  induction d as [|[k' v'] d IH]; simpl.
  - now rewrite str_eqb_refl.
  - destruct (str_eqb k k') eqn:E; simpl; rewrite E; auto.
Qed.

Lemma dict_get_set_other k k' v d :
  str_eqb k' k = false -> dict_get k' (dict_set k v d) = dict_get k' d.
Proof.
  intro Hne. induction d as [|[k0 v0] d IH]; simpl.
  - now rewrite Hne.
  - destruct (str_eqb k k0) eqn:E; simpl.
    + apply str_eqb_eq in E. subst k0. now rewrite Hne.
    + now rewrite IH.
Qed.

Lemma dict_set_same k v d : dict_get k d = Some v -> dict_set k v d = d.
Proof.
  induction d as [|[k0 v0] d IH]; simpl; [discriminate|].
  destruct (str_eqb k k0) eqn:E.
  - now intros [= ->].
  - intro H. now rewrite IH.
Qed.

Lemma get_set_same k v d : get k (dict_set k v d) = v.
Proof. unfold get. now rewrite dict_get_set_same. Qed.

Lemma get_set_other k k' v d :
  str_eqb k' k = false -> get k' (dict_set k v d) = get k' d.
Proof. intro H. unfold get. now rewrite dict_get_set_other. Qed.

Lemma get_default_set_other k k' v dflt d :
  str_eqb k' k = false -> get_default k' dflt (dict_set k v d) = get_default k' dflt d.
Proof. intro H. unfold get_default. now rewrite dict_get_set_other. Qed.

(** Induction on JSON values, through lists and dicts. *)
Lemma json_nested_ind (P : json -> Prop) :
  P JNull -> (forall b, P (JBool b)) -> (forall n, P (JInt n)) ->
  (forall f, P (JFloat f)) -> (forall s, P (JStr s)) ->
  (forall l, Forall P l -> P (JList l)) ->
  (forall d, Forall (fun kv => P (snd kv)) d -> P (JDict d)) ->
  forall x, P x.
Proof.
  intros Hn Hb Hi Hf Hs Hl Hd.
  fix IH 1.
  intros [ | b | n | f | s | l | d].
  - exact Hn.
  - apply Hb.
  - apply Hi.
  - apply Hf.
  - apply Hs.
  - apply Hl. induction l as [|x l IHl]; constructor; [apply IH | exact IHl].
  - apply Hd. induction d as [|[k v] d IHd]; constructor; [apply IH | exact IHd].
Qed.

(** ** The language filter *)

Section Language.
Context {RT : PyRuntime}.

Lemma match_at_cjk pre rest :
  match_at false cjk_re {| before := pre; after := rest |} =
  match rest with
  | x :: _ => if is_han x then Some [] else None
  | [] => None
  end.
Proof.
  unfold match_at. rewrite Nat.add_1_r. simpl.
  unfold one_char. destruct rest as [|x rest]; simpl; [reflexivity|].
  unfold is_han. rewrite !orb_false_r.
  now destruct ((19968 <=? x) && (x <=? 40959)).
Qed.

Lemma search_from_cjk rest : forall pre,
  search_from false cjk_re pre rest = if existsb is_han rest then Some [] else None.
Proof.
  induction rest as [|x rest IH]; intro pre; cbn [search_from existsb];
    rewrite match_at_cjk.
  - reflexivity.
  - destruct (is_han x); cbn [orb]; [reflexivity|]. apply IH.
Qed.

Lemma contains_cjk_existsb s : contains_cjk s = existsb is_han s.
Proof.
  unfold contains_cjk, re_search. rewrite search_from_cjk.
  now destruct (existsb is_han s).
Qed.

Lemma is_han_range c : is_han c = true <-> 19968 <= c <= 40959.
Proof. unfold is_han. rewrite andb_true_iff, !Z.leb_le. tauto. Qed.

Lemma contains_cjk_spec s : contains_cjk s = true <-> non_compliant s.
Proof.
  rewrite contains_cjk_existsb, existsb_exists. unfold non_compliant.
  split; intros [c [Hin Hc]]; exists c; split; auto; now apply is_han_range.
Qed.

Lemma contains_cjk_app a b : contains_cjk (a ++ b) = contains_cjk a || contains_cjk b.
Proof. rewrite !contains_cjk_existsb. apply existsb_app. Qed.

Lemma fix_str_spec s :
  (non_compliant s /\ _fix_str s = FALLBACK) \/ (~ non_compliant s /\ _fix_str s = s).
Proof.
  unfold _fix_str. destruct (contains_cjk s) eqn:E.
  - left. split; [now apply contains_cjk_spec | reflexivity].
  - right. split; [|reflexivity]. intro H. apply contains_cjk_spec in H. congruence.
Qed.

Lemma walk_sanitized x : sanitized_spec x (_walk x).
Proof.
  induction x as [ | b | n | f | s | l IH | d IH] using json_nested_ind;
    simpl; try constructor.
  - destruct (fix_str_spec s) as [[H ->]|[H ->]]; now constructor.
  - induction IH; simpl; constructor; auto.
  - induction IH as [|[k v] d Hv _ IHd]; simpl; constructor; auto.
Qed.

Lemma sanitized_walk x : forall y, sanitized_spec x y -> y = _walk x.
Proof.
  induction x as [ | b | n | f | s | l IH | d IH] using json_nested_ind;
    intros y Hy; inversion Hy; subst; simpl; try reflexivity.
  - destruct (fix_str_spec s) as [[_ ->]|[H _]]; [reflexivity | contradiction].
  - destruct (fix_str_spec s) as [[H _]|[_ ->]]; [contradiction | reflexivity].
  - f_equal. clear Hy. revert l' H0.
    induction IH as [|x l Hx _ IHl]; intros l' H; inversion H; subst; simpl.
    + reflexivity.
    + f_equal; auto.
  - f_equal. clear Hy. revert d' H0.
    induction IH as [|[k v] d Hv _ IHd]; intros d' H; inversion H; subst; simpl.
    + reflexivity.
    + destruct y as [k' v']; simpl in *. destruct H2 as [<- Hs].
      f_equal; auto. f_equal. now apply Hv.
Qed.

(** C6. A string is non-compliant exactly when [contains_cjk] finds a code
    point of U+4E00..U+9FFF in it, and [sanitize_korean_only] yields exactly
    the value the rule describes: each non-compliant leaf string replaced by
    the one fallback sentence, compliant strings, other values, keys and the
    shape of lists and dicts as they were. *)
Theorem C6_language_filter_and_sanitize :
  (forall s, contains_cjk s = true <-> exists c, In c s /\ 19968 <= c <= 40959) /\
  (forall obj out, sanitize_korean_only obj = out <-> sanitized_spec obj out).
Proof.
  split.
  - intro s. apply contains_cjk_spec.
  - intros obj out. unfold sanitize_korean_only. split.
    + intros <-. apply walk_sanitized.
    + intro H. symmetry. now apply sanitized_walk.
Qed.

End Language.

(** ** The extractor *)

Lemma find_char_app_first c pre r :
  ~ In c pre -> find_char c (pre ++ c :: r) = Some (List.length pre).
Proof.
  induction pre as [|x pre IH]; intro Hn; simpl.
  - now rewrite Z.eqb_refl.
  - destruct (x =? c) eqn:E.
    + apply Z.eqb_eq in E. subst. exfalso. apply Hn. now left.
    + rewrite IH; [reflexivity|]. intro H. apply Hn. now right.
Qed.

Lemma find_char_none c s : ~ In c s <-> find_char c s = None.
Proof.
  induction s as [|x s IH]; simpl.
  - tauto.
  - destruct (x =? c) eqn:E.
    + apply Z.eqb_eq in E. subst. split; [intro H; exfalso; auto | discriminate].
    + apply Z.eqb_neq in E. destruct (find_char c s) eqn:F.
      * split; [|discriminate]. intro H. exfalso.
        assert (Hs : ~ In c s) by tauto. apply IH in Hs. discriminate.
      * split; [reflexivity|]. intros _ [H|H]; [congruence|].
        revert H. now apply IH.
Qed.

Lemma find_char_skipn c s i :
  find_char c s = Some i -> exists r, skipn i s = c :: r.
Proof.
  revert i. induction s as [|x s IH]; intros i; simpl; [discriminate|].
  destruct (x =? c) eqn:E.
  - intros [= <-]. apply Z.eqb_eq in E. subst. now exists s.
  - destruct (find_char c s) as [j|]; [|discriminate].
    intros [= <-]. simpl. now apply IH.
Qed.

(** The scan stops at the end of [r] when the depth, started at [d], comes
    to zero there and not before. *)
Lemma brace_scan_stops r : forall d suffix,
  1 <= d -> d + depth r = 0 ->
  (forall n, (n < List.length r)%nat -> 0 < d + depth (firstn n r)) ->
  brace_scan (r ++ suffix) d = Some (List.length r).
Proof.
  induction r as [|c r IH]; intros d suffix Hd Hz Hpos; simpl in *.
  - lia.
  - assert (Htail : forall d', d' = d + (if c =? 123 then 1 else if c =? 125 then -1 else 0) ->
              forall n, (n < List.length r)%nat -> 0 < d' + depth (firstn n r)).
    { intros d' -> n Hn. specialize (Hpos (S n)). simpl in Hpos. lia. }
    destruct (c =? 123) eqn:E1; [|destruct (c =? 125) eqn:E2].
    + rewrite (IH (d + 1)); [reflexivity | lia | lia | apply Htail; lia].
    + destruct (d - 1 =? 0) eqn:E3.
      * apply Z.eqb_eq in E3. destruct r as [|c' r]; [reflexivity|].
        specialize (Hpos 1%nat). simpl in Hpos. rewrite E1, E2 in Hpos. lia.
      * apply Z.eqb_neq in E3.
        rewrite (IH (d - 1)); [reflexivity | lia | lia | apply Htail; lia].
    + rewrite (IH d); [reflexivity | lia | lia | apply Htail; lia].
Qed.


Lemma depth_open r : depth (123 :: r) = 1 + depth r.
Proof. reflexivity. Qed.

Lemma depth_cons c r :
  depth (c :: r) = (if c =? 123 then 1 else if c =? 125 then -1 else 0) + depth r.
Proof. reflexivity. Qed.

Lemma brace_scan_balanced bj suffix :
  balanced_object bj -> brace_scan (bj ++ suffix) 0 = Some (List.length bj).
Proof.
  intros [[r ->] [Hz Hpos]]. rewrite depth_open in Hz.
  cbn [app brace_scan List.length]. change (123 =? 123) with true. cbn iota.
  rewrite (brace_scan_stops r); [reflexivity | lia | lia |].
  intros n Hn. specialize (Hpos (S n)).
  cbn [firstn List.length] in Hpos. rewrite depth_open in Hpos. apply Hpos. lia.
Qed.

Lemma extract_of_balanced prefix bj suffix :
  ~ In 123 prefix -> balanced_object bj ->
  extract_first_json_object (prefix ++ bj ++ suffix) = json_loads bj.
Proof.
  intros Hpre Hbal.
  pose proof (brace_scan_balanced suffix Hbal) as Hscan.
  destruct Hbal as [[r ->] _].
  assert (Hskip : skipn (List.length prefix) (prefix ++ (123 :: r) ++ suffix)
                  = (123 :: r) ++ suffix).
  { now rewrite skipn_app, Nat.sub_diag, skipn_all. }
  unfold extract_first_json_object.
  destruct (prefix ++ (123 :: r) ++ suffix) eqn:Etext.
  { destruct prefix; discriminate. }
  rewrite <- Etext in *.
  change ((123 :: r) ++ suffix) with (123 :: r ++ suffix) at 1.
  rewrite find_char_app_first by assumption.
  cbv zeta. change (123 :: r ++ suffix) with ((123 :: r) ++ suffix).
  rewrite Hskip, Hscan.
  now rewrite firstn_app, Nat.sub_diag, firstn_all, firstn_O, app_nil_r.
Qed.

(** What a successful scan says about the text it went through. *)
Lemma brace_scan_sound s : forall d n,
  1 <= d -> brace_scan s d = Some n ->
  (n <= List.length s)%nat /\ d + depth (firstn n s) = 0 /\
  forall m, (m < n)%nat -> 0 < d + depth (firstn m s).
Proof.
  induction s as [|c s IH]; intros d n Hd; cbn [brace_scan]; [discriminate|].
  assert (Hstep : forall d', 1 <= d' ->
            d' = d + (if c =? 123 then 1 else if c =? 125 then -1 else 0) ->
            option_map S (brace_scan s d') = Some n ->
            (n <= List.length (c :: s))%nat /\ d + depth (firstn n (c :: s)) = 0 /\
            forall m, (m < n)%nat -> 0 < d + depth (firstn m (c :: s))).
  { intros d' Hd' Ed' H. destruct (brace_scan s d') as [k|] eqn:Ek; [|discriminate].
    injection H as <-. destruct (IH d' k Hd' Ek) as [Hlen [Hz Hpos]].
    cbn [List.length firstn]. rewrite depth_cons. repeat split; [lia | lia |].
    intros [|m] Hm; cbn [firstn]; [cbn [depth]; lia|].
    rewrite depth_cons. specialize (Hpos m). lia. }
  destruct (c =? 123) eqn:E1; [|destruct (c =? 125) eqn:E2].
  - apply Hstep; lia.
  - destruct (d - 1 =? 0) eqn:E3.
    + intros [= <-]. apply Z.eqb_eq in E3.
      cbn [List.length firstn]. rewrite depth_cons, E1, E2. cbn [depth].
      repeat split; [lia | lia |].
      intros [|m] Hm; [cbn; lia | lia].
    + apply Z.eqb_neq in E3. apply Hstep; lia.
  - apply Hstep; lia.
Qed.

Lemma find_char_firstn c s i : find_char c s = Some i -> ~ In c (firstn i s).
Proof.
  revert i. induction s as [|x s IH]; intros i; cbn [find_char]; [discriminate|].
  destruct (x =? c) eqn:E.
  - intros [= <-]. cbn. tauto.
  - destruct (find_char c s) as [j|]; [|discriminate].
    intros [= <-]. cbn [firstn]. intros [H|H].
    + apply Z.eqb_neq in E. contradiction.
    + now apply (IH j).
Qed.

Lemma brace_scan_region r n :
  brace_scan (123 :: r) 0 = Some n -> balanced_object (firstn n (123 :: r)).
Proof.
  cbn [brace_scan]. change (123 =? 123) with true. cbn iota. change (0 + 1) with 1.
  destruct (brace_scan r 1) as [k|] eqn:Ek; [|discriminate].
  intros [= <-]. destruct (@brace_scan_sound r 1 k ltac:(lia) Ek) as [Hlen [Hz Hpos]].
  cbn [firstn]. split; [now eexists|]. split.
  - rewrite depth_open. lia.
  - intros m Hm. cbn [List.length] in Hm. rewrite length_firstn in Hm.
    destruct m as [|m]; [lia|]. cbn [firstn]. rewrite depth_open.
    rewrite firstn_firstn. replace (Nat.min m k) with m by lia.
    specialize (Hpos m). lia.
Qed.

Lemma extract_some text v :
  extract_first_json_object text = Some v ->
  exists prefix bj suffix,
    text = prefix ++ bj ++ suffix /\ ~ In 123 prefix /\ balanced_object bj /\
    json_loads bj = Some v.
Proof.
  unfold extract_first_json_object. destruct text as [|c0 t0] eqn:Et; [discriminate|].
  rewrite <- Et. clear Et c0 t0.
  destruct (find_char 123 text) as [start|] eqn:Ef; [|discriminate].
  cbv zeta. destruct (brace_scan (skipn start text) 0) as [n|] eqn:Es; [|discriminate].
  intro Hv.
  exists (firstn start text), (firstn n (skipn start text)), (skipn n (skipn start text)).
  rewrite !firstn_skipn. split; [reflexivity|]. split; [|split; [|exact Hv]].
  - now apply find_char_firstn.
  - destruct (find_char_skipn _ _ Ef) as [r Hr]. rewrite Hr in *.
    now apply brace_scan_region.
Qed.

(** C7 (amended). When the text before the object has no opening brace and
    the object opens with a brace whose depth, counted over every brace
    character, first returns to zero at its last character, the extractor
    returns what [json.loads] gives for exactly that object (nothing when it
    does not parse), whatever follows it.  A text without an opening brace
    gives nothing, and whatever is returned was parsed from such a first
    balanced region. *)
Theorem C7_extract_first_balanced_object :
  (forall prefix bj suffix,
     ~ In 123 prefix -> balanced_object bj ->
     extract_first_json_object (prefix ++ bj ++ suffix) = json_loads bj) /\
  (forall text, ~ In 123 text -> extract_first_json_object text = None) /\
  (forall text v,
     extract_first_json_object text = Some v ->
     exists prefix bj suffix,
       text = prefix ++ bj ++ suffix /\ ~ In 123 prefix /\ balanced_object bj /\
       json_loads bj = Some v).
Proof.
  split; [|split].
  - intros. now apply extract_of_balanced.
  - intros text H. apply find_char_none in H.
    unfold extract_first_json_object. rewrite H. now destruct text.
  - apply extract_some.
Qed.

(** Every prefix of a text of fewer than [k] characters has depth >= 0. *)
Tactic Notation "prefix_depths" integer(k) :=
  let n := fresh "n" in
  intro n;
  do k (destruct n as [|n]; [vm_compute; easy|]);
  vm_compute; easy.

Lemma json_a1_balanced : balanced_object json_a1.
Proof.
  split; [now eexists|]. split; [reflexivity|].
  intros n Hn. change (List.length json_a1) with 8%nat in Hn.
  do 8 (destruct n as [|n]; [first [lia | vm_compute; reflexivity]|]). lia.
Qed.

Lemma C7_witness :
  extract_first_json_object (u "Sure! " ++ json_a1 ++ u " Anything else?")
  = json_loads json_a1.
Proof.
  apply (proj1 C7_extract_first_balanced_object).
  - vm_compute. intuition discriminate.
  - exact json_a1_balanced.
Defined.

(** C7 as stated fails: a prefix may hold a matched pair of braces, and then
    the extractor returns the object of the prefix. *)
Lemma C7_counterexample :
  ~ (forall prefix bj suffix,
       no_unmatched_braces prefix -> no_unmatched_braces suffix ->
       balanced_object bj ->
       extract_first_json_object (prefix ++ bj ++ suffix) = json_loads bj).
Proof.
  intro H. specialize (H (u "{} ") json_a1 []).
  assert (E : extract_first_json_object (u "{} " ++ json_a1 ++ []) = Some (JDict []))
    by reflexivity.
  assert (L : json_loads json_a1 = Some (JDict [(u "a", JInt 1)])) by reflexivity.
  rewrite E, L in H.
  assert (Some (JDict []) = Some (JDict [(u "a", JInt 1)])); [|discriminate].
  apply H.
  - split; [reflexivity | prefix_depths 4].
  - split; [reflexivity | prefix_depths 1].
  - exact json_a1_balanced.
Qed.

(** ** The hint extractors *)

Section Hints.
Context {RT : PyRuntime}.

(** C9. On the question of scenario A the extractors give the cluster
    [marios-stg-eks], a window of 30 minutes, the status [error] and no
    namespace; they read the question only, so every run on that question
    works with these hints, whatever the model and the tools answer. *)
Theorem C9_scenario_A_hints :
  extract_cluster_from_question scenario_A = Some (u "marios-stg-eks") /\
  parse_window_minutes_ko scenario_A = Some 30 /\
  choose_status_from_question scenario_A = u "error" /\
  extract_namespace_from_question scenario_A = None /\
  forall cfg w n,
    run_agent cfg w scenario_A n =
    iterate cfg w {| hinted_cluster := Some (u "marios-stg-eks");
                     hinted_namespace := None;
                     hinted_window := Some 30;
                     hinted_status := u "error" |} n (initial_state cfg scenario_A).
Proof.
  assert (Hc : extract_cluster_from_question scenario_A = Some (u "marios-stg-eks"))
    by (vm_compute; reflexivity).
  assert (Hw : parse_window_minutes_ko scenario_A = Some 30) by (vm_compute; reflexivity).
  assert (Hs : choose_status_from_question scenario_A = u "error")
    by (vm_compute; reflexivity).
  assert (Hn : extract_namespace_from_question scenario_A = None)
    by (vm_compute; reflexivity).
  split; [exact Hc|]. split; [exact Hw|]. split; [exact Hs|]. split; [exact Hn|].
  intros cfg w n. unfold run_agent, question_hints. now rewrite Hc, Hw, Hs, Hn.
Qed.

End Hints.

(** ** Clamping *)

Lemma clamp_int_range v lo hi : lo <= hi -> lo <= clamp_int v lo hi <= hi.
Proof. unfold clamp_int. lia. Qed.

Lemma clamp_int_above v lo hi : lo <= hi -> hi < v -> clamp_int v lo hi = hi.
Proof. unfold clamp_int. lia. Qed.

(** The order of the floats that are numbers is that of their places. *)
Lemma SFcompare_antisym a b : SFcompare b a = option_map CompOpp (SFcompare a b).
Proof.
  destruct a as [sa|sa| |sa ma ea], b as [sb|sb| |sb mb eb]; cbn;
    try reflexivity; try (destruct sa; reflexivity); try (destruct sb; reflexivity);
    try (destruct sa, sb; reflexivity).
  destruct sa, sb; cbn; try reflexivity;
    rewrite (Z.compare_antisym ea eb); destruct (ea ?= eb); cbn; try reflexivity;
    change (Pos.compare_cont Eq mb ma) with (Pos.compare mb ma);
    change (Pos.compare_cont Eq ma mb) with (Pos.compare ma mb);
    rewrite (Pos.compare_antisym ma mb); destruct (ma ?= mb)%positive; reflexivity.
Qed.


Lemma SFcompare_place a b :
  is_nan a = false -> is_nan b = false ->
  let '(ca, ea, ma) := place a in
  let '(cb, eb, mb) := place b in
  match SFcompare a b with
  | Some Lt => ca < cb \/ (ca = cb /\ (ea < eb \/ (ea = eb /\ ma < mb)))
  | Some Eq => ca = cb /\ ea = eb /\ ma = mb
  | Some Gt => cb < ca \/ (ca = cb /\ (eb < ea \/ (ea = eb /\ mb < ma)))
  | None => False
  end.
Proof.
  destruct a as [sa|sa| |sa ma ea], b as [sb|sb| |sb mb eb]; try discriminate; intros _ _;
    cbn [place SFcompare];
    try (destruct sa; cbn; lia); try (destruct sb; cbn; lia);
    try (destruct sa, sb; cbn; lia).
  destruct sa, sb; cbn; try lia.
  - destruct (Z.compare_spec ea eb); try lia.
    change (Pos.compare_cont Eq ma mb) with (Pos.compare ma mb).
    destruct (Pos.compare_spec ma mb); cbn; lia.
  - destruct (Z.compare_spec ea eb); try lia.
    change (Pos.compare_cont Eq ma mb) with (Pos.compare ma mb).
    destruct (Pos.compare_spec ma mb); cbn; lia.
Qed.

Lemma place_eq a b : is_nan a = false -> is_nan b = false ->
  SFcompare a b = Some Eq -> b <> S754_zero true -> b <> S754_zero false -> a = b.
Proof.
  intros Ha Hb H Hz1 Hz2. pose proof (SFcompare_place a b Ha Hb) as Hp.
  rewrite H in Hp.
  destruct a as [sa|sa| |sa ma ea], b as [sb|sb| |sb mb eb]; try discriminate;
    try (destruct sb; congruence);
    cbn [place] in Hp;
    try (destruct sa; destruct sb; cbn in Hp; try lia; try reflexivity; fail);
    try (destruct sa; cbn in Hp; lia); try (destruct sb; cbn in Hp; lia).
  destruct sa, sb; cbn in Hp; try lia.
  - destruct Hp as (_ & He & Hm). assert (ea = eb) by lia. injection Hm as ->. now subst.
  - destruct Hp as (_ & He & Hm). injection Hm as ->. now subst.
Qed.

Lemma clamp_float_cases r :
  (SFltb r f_1 = true -> clamp_float r f_1 f_100 = f_1) /\
  (SFleb f_1 r = true -> SFleb r f_100 = true -> clamp_float r f_1 f_100 = r) /\
  (SFltb f_100 r = true -> clamp_float r f_1 f_100 = f_100) /\
  (r = S754_nan -> clamp_float r f_1 f_100 = f_100).
Proof.
  destruct (is_nan r) eqn:En.
  { destruct r; try discriminate. repeat split; try discriminate. }
  pose proof (SFcompare_place r f_1 En eq_refl) as H1.
  pose proof (SFcompare_place r f_100 En eq_refl) as H100.
  pose proof (SFcompare_antisym r f_1) as A1.
  pose proof (SFcompare_antisym r f_100) as A100.
  pose proof (@place_eq r f_1 En eq_refl) as E1.
  pose proof (@place_eq r f_100 En eq_refl) as E100.
  unfold clamp_float, float_max, float_min, float_lt, SFltb, SFleb.
  rewrite A100.
  destruct (place r) as [[c e] m]. cbn [place f_1 f_100] in H1, H100.
  destruct (SFcompare r f_1) as [[| |]|], (SFcompare r f_100) as [[| |]|];
    cbn [option_map CompOpp] in *; try contradiction; rewrite ?A1;
    repeat split; intros; try discriminate; try reflexivity; try lia;
    try (symmetry; apply E1; [reflexivity|discriminate|discriminate]);
    try (symmetry; apply E100; [reflexivity|discriminate|discriminate]);
    try (subst r; discriminate En).
Qed.

Lemma SFltb_SFleb a b : SFltb a b = true -> SFleb a b = true.
Proof. unfold SFltb, SFleb. now destruct (SFcompare a b) as [[]|]. Qed.

Lemma clamp_float_range v :
  float_le f_1 (clamp_float v f_1 f_100) = true /\
  float_le (clamp_float v f_1 f_100) f_100 = true.
Proof.
  unfold clamp_float, float_max, float_min, float_lt, float_le.
  destruct (SFltb v f_100) eqn:Ehi.
  - destruct (SFltb f_1 v) eqn:Elo.
    + split; now apply SFltb_SFleb.
    + split; reflexivity.
  - split; reflexivity.
Qed.

Section Normalisation.
Context {RT : PyRuntime}.

Lemma bindM_ok A B (m : M A) (f : A -> M B) d d' b :
  bindM m f d = (d', Ok b) ->
  exists a d1, m d = (d1, Ok a) /\ f a d1 = (d', Ok b).
Proof.
  unfold bindM. destruct (m d) as [d1 [a|e]]; [|discriminate].
  intro H. now exists a, d1.
Qed.

Ltac bind_ok H a d E :=
  apply bindM_ok in H as (a & d & E & H).

Lemma normalize_args_increasing cfg args args' :
  normalize_args cfg (JStr s_increasing_error_services) args = (args', Ok tt) ->
  exists v r,
    py_int (get_default k_min_delta (JInt 10) args) = Ok v /\
    py_float (get_default k_min_ratio (JFloat f_2) args) = Ok r /\
    get k_min_delta args' = JInt (clamp_int v 1 999999) /\
    get k_min_ratio args' = JFloat (clamp_float r f_1 f_100).
Proof.
  unfold normalize_args. intro H.
  bind_ok H cluster d0 E0. unfold arg in E0. injection E0 as <- <-.
  bind_ok H c d1 E1.
  assert (d1 = args) as ->.
  { destruct (get k_cluster args); try discriminate.
    destruct (nonblank s); [now injection E1|discriminate]. }
  clear E1.
  bind_ok H x d2 E2. unfold set_arg in E2. injection E2 as <- <-.
  bind_ok H status d3 E3. unfold arg_default in E3. injection E3 as <- <-.
  bind_ok H st d4 E4.
  match type of E4 with (match ?x with _ => _ end) _ = _ =>
    destruct x; try discriminate; injection E4 as <- <- end.
  bind_ok H x d5 E5. unfold set_arg in E5. injection E5 as <- <-.
  bind_ok H ns d6 E6. unfold arg_default in E6. injection E6 as <- <-.
  bind_ok H x d7 E7.
  assert (exists nsv, d7 = dict_set k_namespace nsv
            (dict_set k_status (JStr (or_default (strip s) s_error))
               (dict_set k_cluster (JStr c) args))) as [nsv ->].
  { match type of E7 with (match ?x with _ => _ end) _ = _ =>
      destruct x; try discriminate; unfold set_arg in E7; injection E7 as <- _;
      eexists; reflexivity end. }
  clear E7.
  bind_ok H wv d8 E8. unfold arg_default in E8. injection E8 as <- <-.
  bind_ok H window d9 E9. unfold lift in E9. injection E9 as <- E9.
  bind_ok H lv d10 E10. unfold arg_default in E10. injection E10 as <- <-.
  bind_ok H limit d11 E11. unfold lift in E11. injection E11 as <- E11.
  bind_ok H x1 d12 E12. unfold set_arg in E12. injection E12 as <- <-.
  bind_ok H x2 d13 E13. unfold set_arg in E13. injection E13 as <- <-.
  rewrite (proj2 (str_eqb_eq _ _) eq_refl : eq_str (JStr s_increasing_error_services) s_increasing_error_services = true) in H.
  bind_ok H dv d14 E14. unfold arg_default in E14. injection E14 as <- <-.
  bind_ok H min_delta d15 E15. unfold lift in E15. injection E15 as <- E15.
  bind_ok H x3 d16 E16. unfold set_arg in E16. injection E16 as <- <-.
  bind_ok H rv d17 E17. unfold arg_default in E17. injection E17 as <- <-.
  bind_ok H min_ratio d18 E18. unfold lift in E18. injection E18 as <- E18.
  unfold set_arg in H. injection H as <-.
  exists min_delta, min_ratio.
  repeat rewrite get_default_set_other in E15 by reflexivity.
  repeat rewrite get_default_set_other in E18 by reflexivity.
  split; [exact E15|]. split; [exact E18|]. split.
  - rewrite get_set_other by reflexivity. apply get_set_same.
  - apply get_set_same.
Qed.
Lemma normalize_args_needs_cluster cfg tool args args' :
  normalize_args cfg tool args = (args', Ok tt) -> args <> [].
Proof.
  intros H ->. unfold normalize_args in H.
  bind_ok H cluster d0 E0. unfold arg in E0. injection E0 as <- <-.
  bind_ok H c d1 E1. discriminate.
Qed.

Lemma validate_ok cfg call call' :
  validate_and_normalize_call cfg call = (call', Ok tt) ->
  exists args args',
    get k_args call = JDict args /\
    normalize_args cfg (get k_tool call) args = (args', Ok tt) /\
    call' = dict_set k_args (JDict args') call.
Proof.
  unfold validate_and_normalize_call.
  destruct (negb (eq_str (get k_action call) s_tool_call)); [discriminate|].
  destruct (negb (allowed_tool (get k_tool call))); [discriminate|].
  destruct (truthy (get k_args call)) eqn:Et.
  - destruct (get k_args call) as [ | | | | | |args]; try discriminate.
    destruct (normalize_args cfg (get k_tool call) args) as [args' [[]|e]] eqn:En;
      [|discriminate].
    intros [= <-]. now exists args, args'.
  - destruct (normalize_args cfg (get k_tool call) []) as [args' [[]|e]] eqn:En;
      [|discriminate].
    now apply normalize_args_needs_cluster in En.
Qed.

(** C10. For [increasing_error_services] a call that passes validation
    comes out with [min_delta] clamped into [1, 999999]: with [v] what
    [int()] makes of the proposed value (of 10 when there is none), it is 1
    when [v] is below 1, [v] itself from 1 to 999999, and 999999 when [v]
    is above; and with [min_ratio] clamped into [1.0, 100.0]: with [r]
    what [float()] makes of the proposed value (of 2.0 when there is none),
    it is 1.0 when [r] is below 1.0, [r] itself from 1.0 to 100.0, and
    100.0 when [r] is above or is no number. *)
Theorem C10_min_delta_min_ratio_clamped cfg call call' :
  get k_tool call = JStr s_increasing_error_services ->
  validate_and_normalize_call cfg call = (call', Ok tt) ->
  exists args args' v r d r',
    get k_args call = JDict args /\
    get k_args call' = JDict args' /\
    py_int (get_default k_min_delta (JInt 10) args) = Ok v /\
    get k_min_delta args' = JInt d /\
    1 <= d <= 999999 /\
    (v < 1 -> d = 1) /\
    (1 <= v <= 999999 -> d = v) /\
    (999999 < v -> d = 999999) /\
    py_float (get_default k_min_ratio (JFloat f_2) args) = Ok r /\
    get k_min_ratio args' = JFloat r' /\
    SFleb f_1 r' = true /\ SFleb r' f_100 = true /\
    (SFltb r f_1 = true -> r' = f_1) /\
    (SFleb f_1 r = true -> SFleb r f_100 = true -> r' = r) /\
    (SFltb f_100 r = true -> r' = f_100) /\
    (r = S754_nan -> r' = f_100).
Proof.
  intros Htool Hok.
  destruct (validate_ok _ _ Hok) as (args & args' & Hargs & Hnorm & ->).
  rewrite Htool in Hnorm.
  destruct (normalize_args_increasing _ _ Hnorm) as (v & r & Hv & Hf & Hd & Hr).
  exists args, args', v, r, (clamp_int v 1 999999), (clamp_float r f_1 f_100).
  split; [exact Hargs|]. split; [apply get_set_same|]. split; [exact Hv|].
  split; [exact Hd|]. split; [apply clamp_int_range; lia|].
  split; [unfold clamp_int; lia|]. split; [unfold clamp_int; lia|].
  split; [unfold clamp_int; lia|]. split; [exact Hf|]. split; [exact Hr|].
  split; [apply clamp_float_range|]. split; [apply clamp_float_range|].
  apply clamp_float_cases.
Qed.

End Normalisation.

Lemma C10_witness :
  exists args',
    get k_args (fst (@validate_and_normalize_call example_runtime
                       (default_settings []) call_increasing)) = JDict args' /\
    get k_min_delta args' = JInt 999999 /\
    get k_min_ratio args' = JFloat f_100.
Proof.
  destruct (@C10_min_delta_min_ratio_clamped example_runtime (default_settings [])
              call_increasing
              (fst (@validate_and_normalize_call example_runtime
                      (default_settings []) call_increasing)))
    as (args & args' & v & r & d & r' & Hargs & Hargs' & Hv & Hd & _ & _ & _ & Hbig
        & Hr & Hr' & _ & _ & _ & _ & Habove & _).
  - reflexivity.
  - vm_compute. reflexivity.
  - vm_compute in Hargs. injection Hargs as <-.
    assert (Ev : Ok v = Ok 5000000) by (rewrite <- Hv; reflexivity).
    assert (Er : Ok r = Ok (binary_normalize prec emax 250 0 false))
      by (rewrite <- Hr; vm_compute; reflexivity).
    injection Ev as ->. injection Er as ->.
    exists args'. split; [exact Hargs'|]. split.
    + rewrite Hd, Hbig; [reflexivity | lia].
    + rewrite Hr', Habove; reflexivity.
Defined.

(** ** The trace counters *)

Lemma count_type_app t a b : count_type t (a ++ b) = count_type t a + count_type t b.
Proof.
  unfold count_type, entries_of_type. rewrite filter_app, length_app. lia.
Qed.

Lemma count_type_nil t : count_type t [] = 0.
Proof. reflexivity. Qed.

Lemma count_type_entry t t' fields es :
  count_type t (entry t' fields :: es) =
  (if str_eqb (u t') (u t) then 1 else 0) + count_type t es.
Proof.
  unfold count_type, entries_of_type, entry. cbn [filter].
  replace (get k_type ((k_type, JStr (u t')) :: fields)) with (JStr (u t')) by reflexivity.
  cbn [eq_str]. destruct (str_eqb (u t') (u t)); cbn [List.length]; lia.
Qed.

Lemma count_type_same t fields es :
  count_type t (entry t fields :: es) = 1 + count_type t es.
Proof. rewrite count_type_entry. now rewrite str_eqb_refl. Qed.

Lemma count_type_other t t' fields es :
  str_eqb (u t') (u t) = false ->
  count_type t (entry t' fields :: es) = count_type t es.
Proof. intro H. rewrite count_type_entry, H. lia. Qed.

Ltac count_entries :=
  repeat first
    [ rewrite count_type_app
    | rewrite count_type_same
    | rewrite count_type_other by reflexivity
    | rewrite count_type_nil ].

Section LoopFacts.
Context {RT : PyRuntime}.
Variable cfg : settings.
Variable w : world.
Variable h : hints.

(** The raw-text retries touch the conversation and the trace only, and
    what they add to the trace are [llm_raw_rejected_language] entries. *)
Lemma raw_language_retry_frame left : forall text st st1,
  st1 = snd (raw_language_retry w left text st) ->
  tool_calls st1 = tool_calls st /\ lang_retry st1 = lang_retry st /\
  invocations st1 = invocations st /\
  (forall t, str_eqb (u "llm_raw_rejected_language") (u t) = false ->
             count_type t (trace st1) = count_type t (trace st)).
Proof.
  induction left as [|left IH]; intros text st st1 ->; cbn [raw_language_retry].
  - cbn [snd]. auto.
  - destruct (contains_cjk text); [|cbn [snd]; auto].
    match goal with |- context [raw_language_retry w left ?t ?s] =>
      destruct (IH t s _ eq_refl) as (H1 & H2 & H3 & H4) end.
    split; [exact H1|]. split; [exact H2|]. split; [exact H3|].
    intros t Ht. rewrite H4 by assumption. cbn [trace append_messages append_trace].
    rewrite count_type_app, count_type_other, count_type_nil by assumption. lia.
Qed.

Lemma await_model_frame st :
  tool_calls (snd (await_model w st)) = tool_calls st /\
  lang_retry (snd (await_model w st)) = lang_retry st /\
  invocations (snd (await_model w st)) = invocations st /\
  ungated (snd (await_model w st)) = ungated st /\
  rejected_finals (snd (await_model w st)) = rejected_finals st.
Proof.
  destruct (@raw_language_retry_frame 2 (llm_chat w (messages st)) st _ eq_refl)
    as (H1 & H2 & H3 & H4).
  unfold await_model. split; [exact H1|]. split; [exact H2|]. split; [exact H3|]. split.
  - unfold ungated. now rewrite !H4 by reflexivity.
  - unfold rejected_finals. now rewrite H4 by reflexivity.
Qed.

End LoopFacts.

Section PassEffect.
Context {RT : PyRuntime}.
Variable cfg : settings.
Variable w : world.
Variable h : hints.

Ltac counters :=
  unfold executed, language_rejected, turned_away, counters_of, ungated, rejected_finals;
  cbv zeta;
  cbn [state_of c_tool_calls c_lang_retry c_invocations c_ungated c_rejected_finals
       trace tool_calls lang_retry invocations messages
       append_trace append_messages set_lang_retry set_tool_calls log_requests
       reject_tool_call invalid_tool_call];
  count_entries.

Lemma on_final_effect obj st : pass_effect cfg (counters_of st) (on_final cfg obj st).
Proof.
  unfold on_final. cbv zeta.
  destruct (contains_cjk (json_dumps obj)).
  - destruct (MAX_LANG_RETRY cfg <=? lang_retry st + 1) eqn:E.
    + apply Z.leb_le in E. right. counters. repeat split; lia.
    + apply Z.leb_gt in E. right. left. counters. repeat split; lia.
  - left. cbn [state_of]. counters. f_equal; lia.
Qed.

Lemma run_tool_requests tool args :
  (List.length (fst (run_tool w tool args)) <= 1)%nat.
Proof.
  unfold run_tool, current_error_services, increasing_error_services, post.
  repeat match goal with
         | |- context [if ?b then _ else _] => destruct b
         | |- context [match ?x with Ok _ => _ | Raise _ => _ end] => destruct x
         end; cbn; lia.
Qed.

Lemma execute_tool_effect call st :
  tool_calls st < MAX_TOOL_CALLS cfg ->
  pass_effect cfg (counters_of st) (execute_tool w call st).
Proof.
  intro Hlt. unfold execute_tool.
  destruct (dict_get k_tool call) as [tool|]; [|left; reflexivity].
  destruct (dict_get k_args call) as [args|]; [|left; reflexivity].
  pose proof (run_tool_requests tool args) as Hreq.
  destruct (run_tool w tool args) as [requests r]. cbn [fst] in Hreq.
  assert (Hinv : Z.of_nat (List.length (invocations st))
                 <= Z.of_nat (List.length (invocations st ++ requests))
                 <= Z.of_nat (List.length (invocations st)) + 1).
  { rewrite length_app. lia. }
  destruct r as [result|e].
  - destruct (compact_tool_result tool result) as [compact|e].
    + left. counters. repeat split; lia.
    + right. counters. repeat split; lia.
  - right. counters. repeat split; lia.
Qed.

Lemma on_tool_call_effect obj st :
  pass_effect cfg (counters_of st) (on_tool_call cfg w h obj st).
Proof.
  unfold on_tool_call.
  destruct (MAX_TOOL_CALLS cfg <=? tool_calls st) eqn:E.
  - right. right. counters. repeat split; lia.
  - apply Z.leb_gt in E.
    destruct (backfill h obj) as [obj1|e]; [|left; reflexivity].
    destruct (validate_and_normalize_call cfg obj1) as [obj2 [[]|e]].
    + now apply execute_tool_effect.
    + destruct e; try (left; reflexivity).
      right. right. counters. repeat split; lia.
Qed.

Lemma dispatch_effect obj st :
  pass_effect cfg (counters_of st) (dispatch cfg w h obj st).
Proof.
  unfold dispatch. destruct obj as [ | | | | | |d]; try (left; reflexivity).
  destruct (eq_str (get k_action d) s_final); [apply on_final_effect|].
  destruct (eq_str (get k_action d) s_tool_call); [apply on_tool_call_effect|].
  left. cbn [state_of]. counters. f_equal; lia.
Qed.

Lemma counters_await st : counters_of (snd (await_model w st)) = counters_of st.
Proof.
  destruct (await_model_frame w st) as (H1 & H2 & H3 & H4 & H5).
  unfold counters_of. now rewrite H1, H2, H3, H4, H5.
Qed.

Lemma loop_body_effect st : pass_effect cfg (counters_of st) (loop_body cfg w h st).
Proof.
  unfold loop_body. rewrite <- (counters_await st).
  destruct (await_model w st) as [text st1]. cbn [snd].
  destruct (envelope (extract_first_json_object text)) as [obj|].
  - apply dispatch_effect.
  - left. cbn [state_of]. counters. f_equal; lia.
Qed.


Lemma pass_keeps_bounds k st :
  good cfg k (counters_of st) -> bounded cfg (k + 1) (loop_body cfg w h st).
Proof.
  intros (Hinv & Htc & Hlr & Hrf & Hk).
  pose proof (loop_body_effect st) as He.
  destruct (loop_body cfg w h st) as [st'|f st'|e st']; unfold pass_effect in He;
    cbn [state_of] in He; unfold bounded, good; cbn [state_of running].
  - assert (Hg : good cfg (k + 1) (counters_of st')).
    { unfold good.
      destruct He as [He|[[He Hlt]|He]]; unfold executed, language_rejected, turned_away in He;
        intuition lia. }
    unfold good in Hg. intuition lia.
  - destruct He as [->|[He Hge]]; [intuition (try lia; try discriminate)|].
    unfold language_rejected in He. intuition (try lia; try discriminate).
  - destruct He as [->|He]; [intuition (try lia; try discriminate)|].
    unfold executed in He. intuition (try lia; try discriminate).
Qed.

Lemma iterate_bounded n : forall k st,
  good cfg k (counters_of st) -> bounded cfg (k + Z.of_nat n) (iterate cfg w h n st).
Proof.
  induction n as [|n IH]; intros k st Hg.
  - cbn [iterate]. unfold bounded. cbn [state_of running].
    replace (k + Z.of_nat 0) with k by lia.
    unfold good in *. intuition lia.
  - cbn [iterate]. pose proof (pass_keeps_bounds Hg) as Hb.
    destruct (loop_body cfg w h st) as [st'|f st'|e st'] eqn:E.
    + replace (k + Z.of_nat (S n)) with ((k + 1) + Z.of_nat n) by lia.
      apply IH. unfold bounded in Hb. cbn [state_of running] in Hb. now apply Hb.
    + unfold bounded in *. cbn [state_of running] in *. intuition (try lia; try discriminate).
    + unfold bounded in *. cbn [state_of running] in *. intuition (try lia; try discriminate).
Qed.

End PassEffect.

(** ** The bounds of the loop *)

Section LoopBounds.
Context {RT : PyRuntime}.

Lemma initial_good cfg question :
  0 <= MAX_TOOL_CALLS cfg -> 1 <= MAX_LANG_RETRY cfg ->
  good cfg 0 (counters_of (initial_state cfg question)).
Proof. intros H1 H2. unfold good. cbn. lia. Qed.

Lemma run_agent_bounded cfg w question n :
  0 <= MAX_TOOL_CALLS cfg -> 1 <= MAX_LANG_RETRY cfg ->
  bounded cfg (Z.of_nat n) (run_agent cfg w question n).
Proof.
  intros H1 H2. unfold run_agent.
  replace (Z.of_nat n) with (0 + Z.of_nat n) by lia.
  apply iterate_bounded. now apply initial_good.
Qed.

(** C1 (amended). With a ceiling of at least zero tool calls and at least
    one language retry, however the model behaves and however long the loop
    has run, the requests made to the tool service number at most
    [MAX_TOOL_CALLS] and the final envelopes turned down for their language
    at most [MAX_LANG_RETRY].  Each pass that goes back to the model counts
    a tool call, counts a language retry, or records a rejected or invalid
    tool call; no counter gates the last kind, so the loop is still running
    after [n] passes only when more than
    [n - MAX_TOOL_CALLS - MAX_LANG_RETRY] of them were of that kind, and it
    has ended within [MAX_TOOL_CALLS + MAX_LANG_RETRY + k] passes when the
    model never has more than [k] tool calls rejected or found invalid. *)
Theorem C1_bounded_calls_and_retries cfg w question :
  0 <= MAX_TOOL_CALLS cfg -> 1 <= MAX_LANG_RETRY cfg ->
  (forall n,
     let o := run_agent cfg w question n in
     let st := state_of o in
     Z.of_nat (List.length (invocations st)) <= MAX_TOOL_CALLS cfg /\
     rejected_finals st = lang_retry st /\
     lang_retry st <= MAX_LANG_RETRY cfg /\
     (running o = true ->
      Z.of_nat n = tool_calls st + lang_retry st + ungated st /\
      Z.of_nat n < MAX_TOOL_CALLS cfg + MAX_LANG_RETRY cfg + ungated st)) /\
  (forall k,
     (forall n, ungated (state_of (run_agent cfg w question n)) <= k) ->
     running (run_agent cfg w question
                (Z.to_nat (MAX_TOOL_CALLS cfg + MAX_LANG_RETRY cfg + k))) = false).
Proof.
  intros H1 H2.
  assert (Hn : forall n,
     let o := run_agent cfg w question n in
     let st := state_of o in
     Z.of_nat (List.length (invocations st)) <= MAX_TOOL_CALLS cfg /\
     rejected_finals st = lang_retry st /\
     lang_retry st <= MAX_LANG_RETRY cfg /\
     (running o = true ->
      Z.of_nat n = tool_calls st + lang_retry st + ungated st /\
      Z.of_nat n < MAX_TOOL_CALLS cfg + MAX_LANG_RETRY cfg + ungated st)).
  { intros n o st.
    pose proof (@run_agent_bounded cfg w question n H1 H2) as Hb.
    fold o in Hb. unfold bounded in Hb. fold st in Hb.
    unfold good, counters_of in Hb.
    cbn [c_tool_calls c_lang_retry c_invocations c_ungated c_rejected_finals] in Hb.
    intuition lia. }
  split; [exact Hn|].
  intros k Hk.
  set (n := Z.to_nat (MAX_TOOL_CALLS cfg + MAX_LANG_RETRY cfg + k)).
  destruct (running (run_agent cfg w question n)) eqn:Er; [|reflexivity].
  exfalso. destruct (Hn n) as (_ & _ & _ & Hrun). specialize (Hrun Er).
  specialize (Hk n).
  assert (0 <= ungated (state_of (run_agent cfg w question n))).
  { unfold ungated, count_type. lia. }
  unfold n in Hrun at 1 3. rewrite Z2Nat.id in Hrun by lia. lia.
Qed.

End LoopBounds.

Lemma C1_witness :
  (forall n,
     let o := @run_agent example_runtime (default_settings [])
                (constant_model stubborn_reply) (u "hello") n in
     let st := state_of o in
     Z.of_nat (List.length (invocations st)) <= 2 /\
     rejected_finals st = lang_retry st /\
     lang_retry st <= 3 /\
     (running o = true ->
      Z.of_nat n = tool_calls st + lang_retry st + ungated st /\
      Z.of_nat n < 2 + 3 + ungated st)) /\
  (forall k,
     (forall n, ungated (state_of (@run_agent example_runtime (default_settings [])
                                     (constant_model stubborn_reply) (u "hello") n)) <= k) ->
     running (@run_agent example_runtime (default_settings [])
                (constant_model stubborn_reply) (u "hello") (Z.to_nat (2 + 3 + k))) = false).
Proof.
  apply (@C1_bounded_calls_and_retries example_runtime (default_settings [])
           (constant_model stubborn_reply) (u "hello")); cbn; lia.
Defined.

(** A reply without Han characters goes to the extractor as it came. *)
Lemma await_model_clean {RT : PyRuntime} w st :
  contains_cjk (llm_chat w (messages st)) = false ->
  await_model w st = (llm_chat w (messages st), st).
Proof. intro H. unfold await_model. cbn [raw_language_retry]. now rewrite H. Qed.

Lemma stubborn_pass st :
  tool_calls st = 0 ->
  @loop_body example_runtime (default_settings []) (constant_model stubborn_reply)
    (@question_hints example_runtime (u "hello")) st
  = Continue (@invalid_tool_call example_runtime (u "Tool not allowed: None")
                [(k_action, JStr s_tool_call); (k_args, JDict [(k_status, JStr s_error)])]
                st).
Proof.
  intro Hz. unfold loop_body.
  rewrite await_model_clean by reflexivity.
  cbn [llm_chat constant_model].
  assert (E : envelope (extract_first_json_object stubborn_reply)
              = Some (JDict [(k_action, JStr s_tool_call)])) by reflexivity.
  rewrite E. unfold dispatch.
  replace (eq_str (get k_action [(k_action, JStr s_tool_call)]) s_final) with false
    by reflexivity.
  replace (eq_str (get k_action [(k_action, JStr s_tool_call)]) s_tool_call) with true
    by reflexivity.
  unfold on_tool_call. rewrite Hz.
  replace (MAX_TOOL_CALLS (default_settings []) <=? 0) with false by reflexivity.
  assert (B : backfill (@question_hints example_runtime (u "hello"))
                [(k_action, JStr s_tool_call)]
              = Ok [(k_action, JStr s_tool_call); (k_args, JDict [(k_status, JStr s_error)])])
    by (vm_compute; reflexivity).
  rewrite B.
  assert (V : @validate_and_normalize_call example_runtime (default_settings [])
                [(k_action, JStr s_tool_call); (k_args, JDict [(k_status, JStr s_error)])]
              = ([(k_action, JStr s_tool_call); (k_args, JDict [(k_status, JStr s_error)])],
                 Raise (ValueError (u "Tool not allowed: None"))))
    by (vm_compute; reflexivity).
  rewrite V. reflexivity.
Qed.

Lemma stubborn_runs n : forall st,
  tool_calls st = 0 ->
  running (@iterate example_runtime (default_settings []) (constant_model stubborn_reply)
             (@question_hints example_runtime (u "hello")) n st) = true.
Proof.
  induction n as [|n IH]; intros st Hz; cbn [iterate]; [reflexivity|].
  rewrite (stubborn_pass st Hz).
  apply IH. exact Hz.
Qed.

(** C1 as stated fails: a model that keeps proposing a tool call without
    a tool is sent back to the model after every pass, and no counter moves. *)
Lemma C1_counterexample :
  ~ (forall (RT : PyRuntime) cfg w question,
       exists n, running (run_agent cfg w question n) = false).
Proof.
  intro H.
  destruct (H example_runtime (default_settings []) (constant_model stubborn_reply)
              (u "hello")) as [n Hn].
  unfold run_agent in Hn. rewrite stubborn_runs in Hn by reflexivity. discriminate.
Qed.

(** ** The ceiling on tool calls *)

Section Ceiling.
Context {RT : PyRuntime}.

Lemma pass_below_ceiling cfg w h st :
  below_ceiling cfg (counters_of st) ->
  below_ceiling cfg (counters_of (state_of (loop_body cfg w h st))).
Proof.
  intros [Hi Ht]. pose proof (loop_body_effect cfg w h st) as He.
  unfold pass_effect in He. cbv zeta in He. unfold below_ceiling.
  destruct (loop_body cfg w h st) as [st'|f st'|e st']; cbn [state_of] in *.
  - destruct He as [He|[[He _]|He]];
      unfold executed, language_rejected, turned_away in He; intuition lia.
  - destruct He as [->|[He _]]; [lia|]. unfold language_rejected in He. intuition lia.
  - destruct He as [->|He]; [lia|]. unfold executed in He. intuition lia.
Qed.

Lemma iterate_below_ceiling cfg w h n : forall st,
  below_ceiling cfg (counters_of st) ->
  below_ceiling cfg (counters_of (state_of (iterate cfg w h n st))).
Proof.
  induction n as [|n IH]; intros st Hb; cbn [iterate]; [exact Hb|].
  pose proof (pass_below_ceiling w h Hb) as Hp.
  destruct (loop_body cfg w h st) as [st'|f st'|e st']; cbn [state_of] in Hp.
  - now apply IH.
  - exact Hp.
  - exact Hp.
Qed.

(** C2. With a ceiling of at least zero, at every point of every run the
    requests that reached the tool service are no more than the tool calls
    counted, and these no more than [MAX_TOOL_CALLS].  Once the counter has
    reached the ceiling, a tool_call envelope is rejected: the trace gets a
    [tool_call_rejected] entry with reason [limit_reached], the conversation
    gets the envelope and the instruction to answer with [final], no request
    is made and the counter stays. *)
Theorem C2_tool_call_ceiling cfg w h question n st obj :
  0 <= MAX_TOOL_CALLS cfg ->
  get k_action obj = JStr s_tool_call ->
  MAX_TOOL_CALLS cfg <= tool_calls st ->
  (let reached := state_of (run_agent cfg w question n) in
   Z.of_nat (List.length (invocations reached)) <= tool_calls reached /\
   tool_calls reached <= MAX_TOOL_CALLS cfg) /\
  exists st',
    dispatch cfg w h (JDict obj) st = Continue st' /\
    trace st' = trace st ++
      [JDict [(u "type", JStr (u "tool_call_rejected"));
              (u "reason", JStr (u "limit_reached"));
              (u "call", JDict obj)]] /\
    messages st' = messages st ++
      [say assistant (json_dumps (JDict obj)); say user LIMIT_REACHED] /\
    invocations st' = invocations st /\
    tool_calls st' = tool_calls st.
Proof.
  intros Hmax Hact Hfull. split.
  - cbv zeta. unfold run_agent.
    apply (@iterate_below_ceiling cfg w (question_hints question) n
             (initial_state cfg question)).
    unfold below_ceiling. cbn. lia.
  - exists (reject_tool_call obj st).
    unfold dispatch, on_tool_call. rewrite Hact.
    replace (eq_str (JStr s_tool_call) s_final) with false by reflexivity.
    replace (eq_str (JStr s_tool_call) s_tool_call) with true by reflexivity.
    apply Z.leb_le in Hfull. rewrite Hfull.
    repeat split; reflexivity.
Qed.

End Ceiling.

Lemma C2_witness :
  (let reached := state_of (@run_agent example_runtime (default_settings [])
                              (constant_model stubborn_reply) (u "hello") 5) in
   Z.of_nat (List.length (invocations reached)) <= tool_calls reached /\
   tool_calls reached <= 2) /\
  exists st',
    @dispatch example_runtime (default_settings []) (constant_model stubborn_reply)
      (@question_hints example_runtime (u "hello"))
      (JDict [(k_action, JStr s_tool_call)]) state_at_ceiling = Continue st' /\
    trace st' = trace state_at_ceiling ++
      [JDict [(u "type", JStr (u "tool_call_rejected"));
              (u "reason", JStr (u "limit_reached"));
              (u "call", JDict [(k_action, JStr s_tool_call)])]] /\
    messages st' = messages state_at_ceiling ++
      [say assistant (@json_dumps example_runtime (JDict [(k_action, JStr s_tool_call)]));
       say user LIMIT_REACHED] /\
    invocations st' = invocations state_at_ceiling /\
    tool_calls st' = tool_calls state_at_ceiling.
Proof.
  apply (@C2_tool_call_ceiling example_runtime (default_settings [])
           (constant_model stubborn_reply) (@question_hints example_runtime (u "hello"))
           (u "hello") 5 state_at_ceiling [(k_action, JStr s_tool_call)]).
  - cbn. lia.
  - reflexivity.
  - cbn. lia.
Defined.

(** ** A tool call without a cluster *)

Lemma get_is_dict k d x : get k d = JDict x -> dict_get k d = Some (JDict x).
Proof. unfold get. destruct (dict_get k d); [congruence | discriminate]. Qed.

Lemma backfill_shape h obj obj1 :
  backfill h obj = Ok obj1 ->
  exists args_obj, obj1 = dict_set k_args args_obj
    match dict_get k_args obj with
    | Some _ => obj
    | None => dict_set k_args (JDict []) obj
    end.
Proof.
  unfold backfill. cbv zeta.
  repeat match goal with
         | |- bind ?m _ = _ -> _ => destruct m; cbn [bind]; [|discriminate]
         end.
  intros [= <-]. now eexists.
Qed.

Lemma backfill_keeps h obj obj1 k :
  backfill h obj = Ok obj1 -> str_eqb k k_args = false -> get k obj1 = get k obj.
Proof.
  intros H Hk. destruct (backfill_shape _ _ H) as [a ->].
  rewrite get_set_other by assumption.
  destruct (dict_get k_args obj); [reflexivity|]. now apply get_set_other.
Qed.

Section MissingCluster.
Context {RT : PyRuntime}.

Lemma normalize_args_no_cluster cfg tool args :
  is_blank_or_not_str (get k_cluster args) = true ->
  normalize_args cfg tool args = (args, Raise E_cluster).
Proof.
  intro H. unfold normalize_args, bindM, arg.
  destruct (get k_cluster args) as [ | | | |c| | ]; try reflexivity.
  cbn [is_blank_or_not_str] in H. apply negb_true_iff in H. now rewrite H.
Qed.

Lemma validate_no_cluster cfg call args :
  get k_action call = JStr s_tool_call ->
  allowed_tool (get k_tool call) = true ->
  get k_args call = JDict args ->
  is_blank_or_not_str (get k_cluster args) = true ->
  validate_and_normalize_call cfg call = (call, Raise E_cluster).
Proof.
  intros Ha Ht Hargs Hc. unfold validate_and_normalize_call.
  rewrite Ha, Ht, Hargs.
  replace (negb (eq_str (JStr s_tool_call) s_tool_call)) with false by reflexivity.
  cbn [negb]. destruct (truthy (JDict args)) eqn:Etr.
  - rewrite normalize_args_no_cluster by assumption.
    now rewrite (dict_set_same _ _ (get_is_dict _ _ Hargs)).
  - destruct args; [|discriminate]. now rewrite normalize_args_no_cluster.
Qed.

(** C8 (amended). When the tool-call ceiling is not reached and the
    proposed call names one of the two allowed tools, a call whose args,
    after the hints were filled in, hold no cluster that is a string and
    non-blank after trimming fails validation with "cluster must be
    specified explicitly": no request is made, the counter stays, the
    conversation gets the envelope and a message that quotes the error, the
    trace gets a [tool_call_invalid] entry, and the loop goes on. *)
Theorem C8_missing_cluster_is_invalid cfg w h obj obj1 args st :
  get k_action obj = JStr s_tool_call ->
  allowed_tool (get k_tool obj) = true ->
  tool_calls st < MAX_TOOL_CALLS cfg ->
  backfill h obj = Ok obj1 ->
  get k_args obj1 = JDict args ->
  is_blank_or_not_str (get k_cluster args) = true ->
  validate_and_normalize_call cfg obj1 =
    (obj1, Raise (ValueError (u "cluster must be specified explicitly"))) /\
  exists st',
    dispatch cfg w h (JDict obj) st = Continue st' /\
    invocations st' = invocations st /\
    tool_calls st' = tool_calls st /\
    messages st' = messages st ++
      [say assistant (json_dumps (JDict obj1));
       say user (invalid_call_message (u "cluster must be specified explicitly"))] /\
    trace st' = trace st ++
      [JDict [(u "type", JStr (u "tool_call_invalid"));
              (u "error", JStr (u "cluster must be specified explicitly"));
              (u "call", JDict obj1)]].
Proof.
  intros Ha Ht Hlt Hb Hargs Hc.
  assert (Hv : validate_and_normalize_call cfg obj1 = (obj1, Raise E_cluster)).
  { apply validate_no_cluster with (args := args); auto.
    - rewrite (backfill_keeps _ _ k_action Hb) by reflexivity. exact Ha.
    - rewrite (backfill_keeps _ _ k_tool Hb) by reflexivity. exact Ht. }
  split; [exact Hv|].
  exists (invalid_tool_call (u "cluster must be specified explicitly") obj1 st).
  unfold dispatch, on_tool_call. rewrite Ha.
  replace (eq_str (JStr s_tool_call) s_final) with false by reflexivity.
  replace (eq_str (JStr s_tool_call) s_tool_call) with true by reflexivity.
  apply Z.leb_gt in Hlt. rewrite Hlt, Hb, Hv.
  repeat split; reflexivity.
Qed.

End MissingCluster.

Lemma C8_witness :
  @validate_and_normalize_call example_runtime (default_settings [])
      [(k_action, JStr s_tool_call); (k_tool, JStr s_current_error_services);
       (k_args, JDict [(k_status, JStr s_error)])] =
    ([(k_action, JStr s_tool_call); (k_tool, JStr s_current_error_services);
      (k_args, JDict [(k_status, JStr s_error)])],
     Raise (ValueError (u "cluster must be specified explicitly"))) /\
  exists st',
    @dispatch example_runtime (default_settings []) (constant_model stubborn_reply)
      no_hints (JDict scenario_E_call) (initial_state (default_settings []) (u "hello"))
    = Continue st' /\
    invocations st' = [] /\
    tool_calls st' = 0 /\
    messages st' = messages (initial_state (default_settings []) (u "hello")) ++
      [say assistant (@json_dumps example_runtime
         (JDict [(k_action, JStr s_tool_call); (k_tool, JStr s_current_error_services);
                 (k_args, JDict [(k_status, JStr s_error)])]));
       say user (invalid_call_message (u "cluster must be specified explicitly"))] /\
    trace st' = [] ++
      [JDict [(u "type", JStr (u "tool_call_invalid"));
              (u "error", JStr (u "cluster must be specified explicitly"));
              (u "call", JDict [(k_action, JStr s_tool_call);
                                (k_tool, JStr s_current_error_services);
                                (k_args, JDict [(k_status, JStr s_error)])])]].
Proof.
  apply (@C8_missing_cluster_is_invalid example_runtime (default_settings [])
           (constant_model stubborn_reply) no_hints scenario_E_call
           [(k_action, JStr s_tool_call); (k_tool, JStr s_current_error_services);
            (k_args, JDict [(k_status, JStr s_error)])]
           [(k_status, JStr s_error)]
           (initial_state (default_settings []) (u "hello"))).
  - reflexivity.
  - reflexivity.
  - cbn. lia.
  - reflexivity.
  - reflexivity.
  - reflexivity.
Defined.

(** C8 as stated fails: the tool is checked before the cluster, so a call
    for a tool that is not allowed fails with that error instead. *)
Lemma C8_counterexample :
  ~ (forall (RT : PyRuntime) cfg h obj obj1 args,
       get k_action obj = JStr s_tool_call ->
       backfill h obj = Ok obj1 ->
       get k_args obj1 = JDict args ->
       is_blank_or_not_str (get k_cluster args) = true ->
       snd (validate_and_normalize_call cfg obj1) =
       Raise (ValueError (u "cluster must be specified explicitly"))).
Proof.
  intro H.
  specialize (H example_runtime (default_settings []) no_hints unlisted_tool_call
                [(k_action, JStr s_tool_call); (k_tool, JStr (u "restart_service"));
                 (k_args, JDict [(k_status, JStr s_error)])]
                [(k_status, JStr s_error)]
                eq_refl eq_refl eq_refl eq_refl).
  assert (V : snd (@validate_and_normalize_call example_runtime (default_settings [])
                [(k_action, JStr s_tool_call); (k_tool, JStr (u "restart_service"));
                 (k_args, JDict [(k_status, JStr s_error)])])
              = Raise (ValueError (u "Tool not allowed: restart_service")))
    by (vm_compute; reflexivity).
  rewrite V in H. vm_compute in H. discriminate.
Qed.

(** ** Hints fill gaps *)


(** On a dict the hint injection is its four assignments in turn. *)
Lemma backfill_dict h obj args :
  or_else (get k_args obj) (JDict []) = JDict args ->
  backfill h obj =
  Ok (dict_set k_args
        (JDict (fill_status h (fill_window h (fill_namespace h (fill_cluster h args)))))
        match dict_get k_args obj with
        | Some _ => obj
        | None => dict_set k_args (JDict []) obj
        end).
Proof.
  intros Hargs. unfold backfill. cbv zeta.
  assert (Ha : or_else (get k_args match dict_get k_args obj with
                                   | Some _ => obj
                                   | None => dict_set k_args (JDict []) obj
                                   end) (JDict []) = JDict args).
  { destruct (dict_get k_args obj) eqn:E; [exact Hargs|].
    rewrite get_set_same. unfold get in Hargs. rewrite E in Hargs. exact Hargs. }
  rewrite Ha. clear Ha Hargs.
  assert (S1 : match some_nonempty (hinted_cluster h) with
               | Some c =>
                 v <- attr_get k_cluster (JDict args) ;;
                 if is_blank_or_not_str v then set_item k_cluster (JStr c) (JDict args)
                 else Ok (JDict args)
               | None => Ok (JDict args)
               end = Ok (JDict (fill_cluster h args))).
  { unfold fill_cluster. destruct (some_nonempty (hinted_cluster h)); [|reflexivity].
    cbn [attr_get bind]. now destruct (is_blank_or_not_str (get k_cluster args)). }
  rewrite S1. cbn [bind]. clear S1. generalize (fill_cluster h args). intro a1.
  assert (S2 : match some_nonempty (hinted_namespace h) with
               | Some ns =>
                 v <- attr_get k_namespace (JDict a1) ;;
                 if namespace_unset v then set_item k_namespace (JStr ns) (JDict a1)
                 else Ok (JDict a1)
               | None => Ok (JDict a1)
               end = Ok (JDict (fill_namespace h a1))).
  { unfold fill_namespace. destruct (some_nonempty (hinted_namespace h)); [|reflexivity].
    cbn [attr_get bind]. now destruct (namespace_unset (get k_namespace a1)). }
  rewrite S2. cbn [bind]. clear S2. generalize (fill_namespace h a1). intro a2.
  assert (S3 : match hinted_window h with
               | Some n => if n =? 0 then Ok (JDict a2)
                           else set_item k_window_minutes (JInt n) (JDict a2)
               | None => Ok (JDict a2)
               end = Ok (JDict (fill_window h a2))).
  { unfold fill_window. destruct (hinted_window h) as [n|]; [|reflexivity].
    now destruct (n =? 0). }
  rewrite S3. cbn [bind]. clear S3. generalize (fill_window h a2). intro a3.
  assert (S4 : match hinted_status h with
               | [] => Ok (JDict a3)
               | z :: l =>
                 v <- attr_get k_status (JDict a3) ;;
                 if is_none v then set_item k_status (JStr (z :: l)) (JDict a3)
                 else Ok (JDict a3)
               end = Ok (JDict (fill_status h a3))).
  { unfold fill_status. destruct (hinted_status h); [reflexivity|].
    cbn [attr_get bind]. now destruct (is_none (get k_status a3)). }
  rewrite S4. reflexivity.
Qed.




Lemma get_fill_status h args k :
  str_eqb k k_status = false -> get k (fill_status h args) = get k args.
Proof.
  intro Hk. unfold fill_status. destruct (hinted_status h); [reflexivity|].
  destruct (is_none _); [now apply get_set_other | reflexivity].
Qed.










(** The window hint is written whenever there is one that is not zero,
    over a window the call proposed. *)
Lemma backfill_window_hint h obj obj1 args n :
  or_else (get k_args obj) (JDict []) = JDict args ->
  backfill h obj = Ok obj1 ->
  hinted_window h = Some n -> n <> 0 ->
  exists args1, get k_args obj1 = JDict args1 /\ get k_window_minutes args1 = JInt n.
Proof.
  intros Hargs Hb Hw Hn. rewrite (backfill_dict h obj Hargs) in Hb. injection Hb as <-.
  eexists. split; [apply get_set_same|].
  rewrite get_fill_status by reflexivity. unfold fill_window. rewrite Hw.
  apply Z.eqb_neq in Hn. rewrite Hn. apply get_set_same.
Qed.

(** ** What the caller receives *)

Section Caller.
Context {RT : PyRuntime}.

Lemma get_walk k d :
  get k (map (fun kv : str * json => let '(k0, v) := kv in (k0, _walk v)) d)
  = _walk (get k d).
Proof.
  unfold get. induction d as [|[k0 v] d IH]; cbn [map dict_get]; [reflexivity|].
  destruct (str_eqb k k0); [reflexivity | exact IH].
Qed.

Lemma eq_str_eq x s : eq_str x s = true <-> x = JStr s.
Proof.
  destruct x; cbn [eq_str]; split; try discriminate.
  - intro H. apply str_eqb_eq in H. now subst.
  - intros [= ->]. apply str_eqb_refl.
Qed.

(** Whatever a pass returns is a mapping whose action is [final]. *)
Lemma loop_body_returns_final cfg w h st f st' :
  loop_body cfg w h st = Return f st' ->
  exists d, f = JDict d /\ get k_action d = JStr s_final.
Proof.
  unfold loop_body. destruct (await_model w st) as [text st1].
  destruct (envelope (extract_first_json_object text)) as [obj|].
  - unfold dispatch. destruct obj as [ | | | | | |d]; try discriminate.
    destruct (eq_str (get k_action d) s_final) eqn:Ef.
    + apply eq_str_eq in Ef. unfold on_final. cbv zeta.
      destruct (contains_cjk (json_dumps (JDict d))).
      * destruct (MAX_LANG_RETRY cfg <=? lang_retry st1 + 1); [|discriminate].
        intros [= <- _]. unfold sanitize_korean_only. cbn [_walk]. eexists.
        split; [reflexivity|]. rewrite get_walk, Ef. reflexivity.
      * intros [= <- _]. now exists d.
    + destruct (eq_str (get k_action d) s_tool_call).
      * unfold on_tool_call.
        destruct (MAX_TOOL_CALLS cfg <=? tool_calls st1); [discriminate|].
        destruct (backfill h d) as [obj1|e]; [|discriminate].
        destruct (validate_and_normalize_call cfg obj1) as [obj2 [[]|e]].
        -- unfold execute_tool.
           destruct (dict_get k_tool obj2) as [tool|]; [|discriminate].
           destruct (dict_get k_args obj2) as [args|]; [|discriminate].
           destruct (run_tool w tool args) as [rq [r|e]]; [|discriminate].
           destruct (compact_tool_result tool r); discriminate.
        -- destruct e; discriminate.
      * intros [= <- _]. eexists. split; reflexivity.
  - intros [= <- _]. eexists. split; reflexivity.
Qed.

Lemma run_agent_returns_final cfg w question n f st :
  run_agent cfg w question n = Return f st ->
  exists d, f = JDict d /\ get k_action d = JStr s_final.
Proof.
  unfold run_agent. generalize (initial_state cfg question).
  induction n as [|n IH]; intros st0; cbn [iterate]; [discriminate|].
  destruct (loop_body cfg w (question_hints question) st0) as [st1|f1 st1|e st1] eqn:E.
  - apply IH.
  - intros [= <- <-]. eapply loop_body_returns_final. exact E.
  - discriminate.
Qed.

(** C3, at a failing input. The model proposes a tool call whose [limit]
    is null: [int(None)] raises a [TypeError], which the handler for
    [ValueError] does not catch, so it leaves [run_agent] although no
    request was made to the tool service. *)
Theorem C3_null_limit_raises_type_error tool_spec post :
  exists st,
    run_agent (default_settings tool_spec)
      {| llm_chat := fun _ => null_limit_reply; http_post := post |} (u "hello") 1
    = Raised TypeError st /\
    invocations st = [] /\ trace st = [].
Proof.
  eexists. split; [vm_compute; reflexivity | split; reflexivity].
Qed.

(** C5, at a failing input. The model answers every prompt with a final
    envelope one key of which is written in Han characters; at the third
    rejection the sanitizing fallback fires and returns the envelope as it
    came, so what the caller receives still holds Han text. *)
Theorem C5_sanitized_envelope_keeps_han_key tool_spec :
  exists st,
    run_agent (default_settings tool_spec) (constant_model han_key_reply) (u "hello") 3
    = Return han_key_envelope st /\
    lang_retry st = 3 /\
    last (trace st) JNull = entry "final_sanitized" [(k_content, han_key_envelope)] /\
    sanitize_korean_only han_key_envelope = han_key_envelope /\
    In (u "摘要") (strings_of han_key_envelope) /\
    contains_cjk (u "摘要") = true /\
    contains_cjk (json_dumps han_key_envelope) = true.
Proof.
  eexists. split; [vm_compute; reflexivity|].
  repeat split; try (vm_compute; reflexivity).
  vm_compute. tauto.
Qed.

(** What the fallback does achieve: no string value of the sanitized
    envelope is non-compliant (keys are not values). *)
Lemma sanitized_values_compliant x :
  Forall (fun s => contains_cjk s = false) (values_of (sanitize_korean_only x)).
Proof.
  unfold sanitize_korean_only.
  induction x as [ | b | n | f | s | l IH | d IH] using json_nested_ind;
    cbn [_walk values_of]; try constructor.
  - unfold _fix_str. destruct (contains_cjk s) eqn:E; [vm_compute; reflexivity | exact E].
  - constructor.
  - induction IH as [|x l Hx _ IHl]; cbn [map flat_map]; [constructor|].
    apply Forall_app. split; assumption.
  - induction IH as [|[k v] d Hv _ IHd]; cbn [map flat_map]; [constructor|].
    apply Forall_app. split; assumption.
Qed.

End Caller.

(** ** The scenarios of the specification *)

Section Scenarios.
Context {RT : PyRuntime}.

(** For the comparison tool, thresholds of 5000000 and 250 come out as
    999999 and 100.0. *)
Example increasing_call_normalized cfg :
  validate_and_normalize_call cfg call_increasing =
  ([(k_action, JStr s_tool_call);
    (k_tool, JStr s_increasing_error_services);
    (k_args, JDict [(k_cluster, JStr (u "marios-prd-eks"));
                    (k_min_delta, JInt 999999);
                    (k_min_ratio, JFloat f_100);
                    (k_status, JStr s_error);
                    (k_namespace, JNull);
                    (k_window_minutes,
                     JInt (clamp_int 15 (WINDOW_MIN cfg) (WINDOW_MAX cfg)));
                    (k_limit, JInt (clamp_int 10 (LIMIT_MIN cfg) (LIMIT_MAX cfg)))])],
   Ok tt).
Proof. reflexivity. Qed.

(** Scenario B: a first reply with a Han character, then a clean final
    envelope: that envelope is returned, and the trace has one
    [llm_raw_rejected_language] entry, with retry 1. *)
Example scenario_B tool_spec :
  exists st,
    run_agent (default_settings tool_spec)
      (scripted_model [u "好的 " ++ final_reply; final_reply]) (u "hello") 1
    = Return final_envelope st /\
    entries_of_type "llm_raw_rejected_language" (trace st) =
      [entry "llm_raw_rejected_language"
             [(k_content, JStr (u "好的 " ++ final_reply)); (k_retry, JInt 1)]].
Proof. eexists. split; vm_compute; reflexivity. Qed.

(** Scenario C: with a ceiling of two, the third of three tool calls is
    rejected, two requests were made, and the loop awaits a final answer. *)
Example scenario_C tool_spec :
  exists st rejected,
    run_agent (default_settings tool_spec)
      (scripted_model [tool_call_reply; tool_call_reply; tool_call_reply]) (u "hello") 3
    = Continue st /\
    List.length (invocations st) = 2%nat /\ tool_calls st = 2 /\
    last (trace st) JNull = entry "tool_call_rejected" rejected /\
    get k_reason rejected = JStr (u "limit_reached") /\
    option_map content (last (map Some (messages st)) None) = Some LIMIT_REACHED.
Proof. do 2 eexists. split; [vm_compute; reflexivity|]. repeat split. Qed.

(** Scenario D: a reply without a JSON object ends the run with the fixed
    diagnostic envelope, and no request was made. *)
Example scenario_D tool_spec :
  exists st,
    run_agent (default_settings tool_spec)
      (scripted_model [u "here you go: not json"]) (u "hello") 1
    = Return parse_failure_final st /\
    get (u "title") match parse_failure_final with JDict d => d | _ => [] end
      = JStr (u "LLM 출력 오류") /\
    get (u "findings") match parse_failure_final with JDict d => d | _ => [] end
      = JList [] /\
    invocations st = [].
Proof. eexists. split; [vm_compute; reflexivity|]. repeat split. Qed.

End Scenarios.

(** * Further properties of the code *)

(** ** Trimming *)

Lemma lstrip_by_clean space s : clean_head space (lstrip_by space s).
Proof.
  induction s as [|c s IH]; simpl; [exact I|].
  destruct (space c) eqn:E; [exact IH | exact E].
Qed.

Lemma lstrip_by_id space s : clean_head space s -> lstrip_by space s = s.
Proof. destruct s as [|c s]; simpl; [reflexivity|]. now intros ->. Qed.

Lemma lstrip_by_suffix space s : exists p, s = p ++ lstrip_by space s.
Proof.
  induction s as [|c s [p IH]]; simpl; [now exists []|].
  destruct (space c); [|now exists []].
  exists (c :: p). simpl. now f_equal.
Qed.

Lemma clean_head_prefix space t q : clean_head space (t ++ q) -> t <> [] -> clean_head space t.
Proof. destruct t; simpl; [congruence | auto]. Qed.

Lemma strip_by_fixed space s :
  clean_head space s -> clean_head space (rev s) -> strip_by space s = s.
Proof.
  intros H1 H2. unfold strip_by.
  rewrite (lstrip_by_id _ _ H1), (lstrip_by_id _ _ H2). apply rev_involutive.
Qed.

Lemma strip_by_clean space s :
  clean_head space (strip_by space s) /\ clean_head space (rev (strip_by space s)).
Proof.
  unfold strip_by. rewrite rev_involutive. split; [|apply lstrip_by_clean].
  set (a := lstrip_by space s).
  destruct (lstrip_by_suffix space (rev a)) as [p Hp].
  set (b := lstrip_by space (rev a)) in *.
  assert (Ha : a = rev b ++ rev p).
  { rewrite <- rev_app_distr, <- Hp. symmetry. apply rev_involutive. }
  destruct (rev b) as [|x t] eqn:E; [exact I|].
  assert (Hc : clean_head space a) by apply lstrip_by_clean.
  rewrite Ha in Hc. exact Hc.
Qed.

Lemma strip_by_idem space s : strip_by space (strip_by space s) = strip_by space s.
Proof. apply strip_by_fixed; apply strip_by_clean. Qed.

Lemma strip_idem s : strip (strip s) = strip s.
Proof. apply strip_by_idem. Qed.

(** ** Validation *)

Section Validate.
Context {RT : PyRuntime}.
Variable cfg : settings.

Ltac bind_ok H a d E :=
  apply bindM_ok in H as (a & d & E & H).

Lemma normalize_args_inv tool args args' :
  normalize_args cfg tool args = (args', Ok tt) ->
  exists c st nsv window limit,
    get k_cluster args = JStr c /\ nonblank c = true /\
    (if is_none (get_default k_status (JStr s_error) args)
     then JStr s_error else get_default k_status (JStr s_error) args) = JStr st /\
    namespace_value (get_default k_namespace JNull args) = Some nsv /\
    py_int (get_default k_window_minutes (JInt 15) args) = Ok window /\
    py_int (get_default k_limit (JInt 10) args) = Ok limit /\
    let base := common_args cfg args c st nsv window limit in
    if eq_str tool s_increasing_error_services then
      exists md mr,
        py_int (get_default k_min_delta (JInt 10) args) = Ok md /\
        py_float (get_default k_min_ratio (JFloat f_2) args) = Ok mr /\
        args' = dict_set k_min_ratio (JFloat (clamp_float mr f_1 f_100))
                  (dict_set k_min_delta (JInt (clamp_int md 1 999999)) base)
    else args' = base.
Proof.
  unfold normalize_args. intro H.
  bind_ok H cluster d0 E0. unfold arg in E0. injection E0 as <- <-.
  bind_ok H c d1 E1.
  destruct (get k_cluster args) as [ | | | |c0| | ] eqn:Ec; try discriminate.
  destruct (nonblank c0) eqn:Enb; [|discriminate].
  injection E1 as <- <-.
  bind_ok H x d2 E2. unfold set_arg in E2. injection E2 as <- _.
  bind_ok H status d3 E3. unfold arg_default in E3. injection E3 as <- <-.
  rewrite get_default_set_other in H by reflexivity.
  bind_ok H st d4 E4.
  destruct (if is_none (get_default k_status (JStr s_error) args)
            then JStr s_error else get_default k_status (JStr s_error) args)
    as [ | | | |st0| | ] eqn:Est; try discriminate.
  injection E4 as <- <-.
  bind_ok H x1 d5 E5. unfold set_arg in E5. injection E5 as <- _.
  bind_ok H ns d6 E6. unfold arg_default in E6. injection E6 as <- <-.
  repeat rewrite get_default_set_other in H by reflexivity.
  bind_ok H x2 d7 E7.
  assert (exists nsv, namespace_value (get_default k_namespace JNull args) = Some nsv /\
            d7 = dict_set k_namespace nsv
                   (dict_set k_status (JStr (or_default (strip st0) s_error))
                      (dict_set k_cluster (JStr (strip c0)) args))) as (nsv & Hns & ->).
  { destruct (get_default k_namespace JNull args); try discriminate;
      unfold set_arg in E7; injection E7 as <- _; eexists; split; reflexivity. }
  clear E7.
  bind_ok H wv d8 E8. unfold arg_default in E8. injection E8 as <- <-.
  bind_ok H window d9 E9. unfold lift in E9. injection E9 as <- E9.
  bind_ok H lv d10 E10. unfold arg_default in E10. injection E10 as <- <-.
  bind_ok H limit d11 E11. unfold lift in E11. injection E11 as <- E11.
  bind_ok H x3 d12 E12. unfold set_arg in E12. injection E12 as <- _.
  bind_ok H x4 d13 E13. unfold set_arg in E13. injection E13 as <- _.
  repeat rewrite get_default_set_other in E9 by reflexivity.
  repeat rewrite get_default_set_other in E11 by reflexivity.
  exists c0, st0, nsv, window, limit.
  repeat (split; [assumption || reflexivity|]).
  cbv zeta. fold (common_args cfg args c0 st0 nsv window limit) in H.
  destruct (eq_str tool s_increasing_error_services).
  - bind_ok H dv d14 E14. unfold arg_default in E14. injection E14 as <- <-.
    bind_ok H min_delta d15 E15. unfold lift in E15. injection E15 as <- E15.
    bind_ok H x5 d16 E16. unfold set_arg in E16. injection E16 as <- _.
    bind_ok H rv d17 E17. unfold arg_default in E17. injection E17 as <- <-.
    bind_ok H min_ratio d18 E18. unfold lift in E18. injection E18 as <- E18.
    unfold set_arg in H. injection H as <-.
    unfold common_args in E15, E18.
    repeat rewrite get_default_set_other in E15 by reflexivity.
    repeat rewrite get_default_set_other in E18 by reflexivity.
    now exists min_delta, min_ratio.
  - unfold ret in H. now injection H as <-.
Qed.


Lemma clamp_int_idem v lo hi : clamp_int (clamp_int v lo hi) lo hi = clamp_int v lo hi.
Proof. unfold clamp_int. lia. Qed.

Lemma clamp_float_idem v :
  clamp_float (clamp_float v f_1 f_100) f_1 f_100 = clamp_float v f_1 f_100.
Proof.
  unfold clamp_float, float_max, float_min, float_lt.
  destruct (SFltb v f_100) eqn:Ehi.
  - destruct (SFltb f_1 v) eqn:Elo.
    + now rewrite Ehi, Elo.
    + reflexivity.
  - reflexivity.
Qed.

Lemma or_default_strip st :
  or_default (strip st) s_error <> [] /\
  strip (or_default (strip st) s_error) = or_default (strip st) s_error.
Proof.
  unfold or_default. destruct (strip st) eqn:E.
  - split; [discriminate | reflexivity].
  - rewrite <- E. split; [congruence | apply strip_idem].
Qed.

Lemma nonblank_strip c : nonblank c = true -> strip c <> [].
Proof. unfold nonblank. destruct (strip c); [discriminate | discriminate]. Qed.

Lemma namespace_value_normal x nsv :
  namespace_value x = Some nsv ->
  nsv = JNull \/ exists ns, nsv = JStr ns /\ ns <> [] /\ strip ns = ns.
Proof.
  destruct x; try discriminate; cbn [namespace_value].
  - intros [= <-]. now left.
  - destruct (strip s) eqn:E; intros [= <-]; [now left|].
    right. eexists. split; [reflexivity|]. rewrite <- E.
    split; [congruence | apply strip_idem].
Qed.

Ltac keys := repeat (rewrite dict_get_set_other by reflexivity); try apply dict_get_set_same.

Lemma normalize_args_normal tool args args' :
  normalize_args cfg tool args = (args', Ok tt) -> normal_args cfg tool args'.
Proof.
  intro H. apply normalize_args_inv in H
    as (c & st & nsv & window & limit & Hc & Hnb & Hst & Hns & Hw & Hl & H).
  cbv zeta in H.
  exists (strip c), (or_default (strip st) s_error), nsv,
    (clamp_int window (WINDOW_MIN cfg) (WINDOW_MAX cfg)),
    (clamp_int limit (LIMIT_MIN cfg) (LIMIT_MAX cfg)).
  assert (Hbase : forall k v, dict_get k (common_args cfg args c st nsv window limit) = Some v ->
            str_eqb k k_min_delta = false -> str_eqb k k_min_ratio = false ->
            dict_get k args' = Some v).
  { intros k v Hk H1 H2. destruct (eq_str tool s_increasing_error_services).
    - destruct H as (md & mr & _ & _ & ->).
      now rewrite !dict_get_set_other by assumption.
    - now subst. }
  repeat match goal with |- _ /\ _ => split end.
  - apply Hbase; [unfold common_args; keys | reflexivity | reflexivity].
  - now apply nonblank_strip.
  - apply strip_idem.
  - apply Hbase; [unfold common_args; keys | reflexivity | reflexivity].
  - apply or_default_strip.
  - apply or_default_strip.
  - apply Hbase; [unfold common_args; keys | reflexivity | reflexivity].
  - eapply namespace_value_normal; eassumption.
  - apply Hbase; [unfold common_args; keys | reflexivity | reflexivity].
  - apply clamp_int_idem.
  - apply Hbase; [unfold common_args; keys | reflexivity | reflexivity].
  - apply clamp_int_idem.
  - intro Ht. rewrite Ht in H. destruct H as (md & mr & _ & _ & ->).
    exists (clamp_int md 1 999999), (clamp_float mr f_1 f_100).
    split; [keys|]. split; [unfold clamp_int; lia|]. split; [keys|].
    apply clamp_float_idem.
Qed.

Lemma get_of_dict_get k d v : dict_get k d = Some v -> get k d = v.
Proof. unfold get. now intros ->. Qed.

Lemma get_default_of_dict_get k dflt d v : dict_get k d = Some v -> get_default k dflt d = v.
Proof. unfold get_default. now intros ->. Qed.

Lemma normal_args_fixed tool args :
  normal_args cfg tool args -> normalize_args cfg tool args = (args, Ok tt).
Proof.
  intros (c & st & nsv & w & l & Hc & Hc1 & Hc2 & Hs & Hs1 & Hs2 & Hn & Hn1
          & Hw & Hw1 & Hl & Hl1 & Hinc).
  unfold normalize_args, bindM, arg, arg_default, set_arg, lift, ret.
  rewrite (get_of_dict_get _ _ Hc).
  assert (Hnb : nonblank c = true).
  { unfold nonblank. rewrite Hc2. destruct c; [congruence | reflexivity]. }
  rewrite Hnb, Hc2, (dict_set_same _ _ Hc).
  rewrite (get_default_of_dict_get _ _ _ Hs). cbn [is_none].
  assert (Hod : or_default (strip st) s_error = st).
  { rewrite Hs2. destruct st; [congruence | reflexivity]. }
  rewrite Hod, (dict_set_same _ _ Hs).
  rewrite (get_default_of_dict_get _ _ _ Hn).
  assert (Hdone : forall nsv', nsv' = nsv ->
            dict_set k_namespace nsv' args = args).
  { intros ? ->. apply (dict_set_same _ _ Hn). }
  destruct Hn1 as [-> | (ns & -> & Hne & Hfix)];
    [|rewrite Hfix; destruct ns as [|x ns]; [congruence|]];
    rewrite (Hdone _ eq_refl);
    rewrite (get_default_of_dict_get _ _ _ Hw); cbn [py_int];
    rewrite (get_default_of_dict_get _ _ _ Hl); cbn [py_int];
    rewrite Hw1, Hl1, (dict_set_same _ _ Hw), (dict_set_same _ _ Hl);
    (destruct (eq_str tool s_increasing_error_services); [|reflexivity]);
    destruct (Hinc eq_refl) as (md & mr & Hd & Hd1 & Hr & Hr1);
    rewrite (get_default_of_dict_get _ _ _ Hd); cbn [py_int];
    replace (clamp_int md 1 999999) with md by (unfold clamp_int; lia);
    rewrite (dict_set_same _ _ Hd);
    rewrite (get_default_of_dict_get _ _ _ Hr); cbn [py_float];
    now rewrite Hr1, (dict_set_same _ _ Hr).
Qed.

End Validate.

Section ValidateCall.
Context {RT : PyRuntime}.
Variable cfg : settings.

Lemma validate_inv call call' :
  validate_and_normalize_call cfg call = (call', Ok tt) ->
  exists args args',
    get k_action call = JStr s_tool_call /\
    allowed_tool (get k_tool call) = true /\
    get k_args call = JDict args /\
    normalize_args cfg (get k_tool call) args = (args', Ok tt) /\
    call' = dict_set k_args (JDict args') call.
Proof.
  unfold validate_and_normalize_call.
  destruct (eq_str (get k_action call) s_tool_call) eqn:Ea; [|discriminate].
  destruct (allowed_tool (get k_tool call)) eqn:Et; [|discriminate].
  cbn [negb]. apply eq_str_eq in Ea.
  destruct (truthy (get k_args call)) eqn:Eh.
  - destruct (get k_args call) as [ | | | | | |args]; try discriminate.
    destruct (normalize_args cfg (get k_tool call) args) as [args' [[]|e]] eqn:En;
      [|discriminate].
    intros [= <-]. now exists args, args'.
  - destruct (normalize_args cfg (get k_tool call) []) as [args' [[]|e]] eqn:En;
      [|discriminate].
    now apply normalize_args_needs_cluster in En.
Qed.

(** X1. A call that passes validation comes out with its five common
    arguments present and in normal form: [cluster] and [status] are
    non-empty strings without surrounding white space, [namespace] is null
    or such a string, [window_minutes] and [limit] are integers within the
    configured bounds. *)
Theorem validated_call_is_normalized call call' :
  WINDOW_MIN cfg <= WINDOW_MAX cfg -> LIMIT_MIN cfg <= LIMIT_MAX cfg ->
  validate_and_normalize_call cfg call = (call', Ok tt) ->
  exists args' c st w l,
    dict_get k_args call' = Some (JDict args') /\
    dict_get k_cluster args' = Some (JStr c) /\ c <> [] /\ strip c = c /\
    dict_get k_status args' = Some (JStr st) /\ st <> [] /\ strip st = st /\
    (dict_get k_namespace args' = Some JNull \/
     exists ns, dict_get k_namespace args' = Some (JStr ns) /\ ns <> [] /\ strip ns = ns) /\
    dict_get k_window_minutes args' = Some (JInt w) /\
    WINDOW_MIN cfg <= w <= WINDOW_MAX cfg /\
    dict_get k_limit args' = Some (JInt l) /\
    LIMIT_MIN cfg <= l <= LIMIT_MAX cfg.
Proof.
  intros Hw Hl H.
  apply validate_inv in H as (args & args' & _ & _ & _ & Hn & ->).
  apply normalize_args_normal in Hn
    as (c & st & nsv & w & l & Hc & Hc1 & Hc2 & Hs & Hs1 & Hs2 & Hns & Hns1
        & Hwv & Hw1 & Hlv & Hl1 & _).
  exists args', c, st, w, l.
  split; [apply dict_get_set_same|].
  repeat (split; [assumption|]).
  split.
  { destruct Hns1 as [-> | (ns & -> & ?)]; [now left | right; now exists ns]. }
  split; [assumption|]. split; [rewrite <- Hw1; now apply clamp_int_range|].
  split; [assumption|]. rewrite <- Hl1. now apply clamp_int_range.
Qed.

(** X2. Validation is idempotent: a call that passed validation passes it
    again, and comes out unchanged. *)
Theorem validate_and_normalize_call_idempotent call call' :
  validate_and_normalize_call cfg call = (call', Ok tt) ->
  validate_and_normalize_call cfg call' = (call', Ok tt).
Proof.
  intro H. apply validate_inv in H as (args & args' & Ha & Ht & _ & Hn & ->).
  pose proof (normalize_args_normal _ _ _ Hn) as Hnormal.
  unfold validate_and_normalize_call.
  rewrite !get_set_other by reflexivity. rewrite get_set_same.
  rewrite Ha, Ht. cbn [eq_str]. rewrite str_eqb_refl. cbn [negb].
  assert (Hne : truthy (JDict args') = true).
  { destruct Hnormal as (c & ? & ? & ? & ? & Hc & _). destruct args'; [discriminate | reflexivity]. }
  rewrite Hne, (normal_args_fixed Hnormal).
  f_equal. apply dict_set_same. apply dict_get_set_same.
Qed.

End ValidateCall.

Lemma dict_set_keys k v d :
  exists added, map fst (dict_set k v d) = map fst d ++ added /\ incl added [k].
Proof.
  induction d as [|[k0 v0] d (added & IH & Hin)]; simpl.
  - exists [k]. split; [reflexivity | apply incl_refl].
  - destruct (str_eqb k k0).
    + exists []. simpl. rewrite app_nil_r. split; [reflexivity | apply incl_nil_l].
    + exists added. simpl. rewrite IH. split; [reflexivity | exact Hin].
Qed.

Lemma dict_get_set_neq k k' v d : k' <> k -> dict_get k' (dict_set k v d) = dict_get k' d.
Proof.
  intro H. apply dict_get_set_other.
  destruct (str_eqb k' k) eqn:E; [|reflexivity]. now apply str_eqb_eq in E.
Qed.

Section ValidateFrame.
Context {RT : PyRuntime}.
Variable cfg : settings.

Lemma normalize_args_frame tool args args' :
  normalize_args cfg tool args = (args', Ok tt) ->
  (forall k, ~ In k known_arguments -> dict_get k args' = dict_get k args) /\
  exists added, map fst args' = map fst args ++ added /\ incl added known_arguments.
Proof.
  intro H. apply normalize_args_inv in H
    as (c & st & nsv & window & limit & _ & _ & _ & _ & _ & _ & H).
  cbv zeta in H.
  assert (Hbase :
    (forall k, ~ In k known_arguments ->
       dict_get k (common_args cfg args c st nsv window limit) = dict_get k args) /\
    exists added, map fst (common_args cfg args c st nsv window limit) = map fst args ++ added
                  /\ incl added known_arguments).
  { unfold common_args. split.
    - intros k Hk. rewrite !dict_get_set_neq; [reflexivity|..];
        intros ->; apply Hk; unfold known_arguments; simpl; tauto.
    - repeat match goal with |- context [dict_set ?k ?v ?d] =>
        let a := fresh "a" in let E := fresh "E" in let I := fresh "I" in
        destruct (dict_set_keys k v d) as (a & E & I); rewrite E; clear E
      end.
      rewrite <- !app_assoc. eexists. split; [reflexivity|].
      repeat apply incl_app;
        (eapply incl_tran; [eassumption|]); intros x [<-|[]];
        unfold known_arguments; simpl; tauto. }
  destruct (eq_str tool s_increasing_error_services); [|now subst].
  destruct H as (md & mr & _ & _ & ->). destruct Hbase as [Hget (added & Hkeys & Hincl)].
  split.
  - intros k Hk. rewrite !dict_get_set_neq; [now apply Hget|..];
      intros ->; apply Hk; unfold known_arguments; simpl; tauto.
  - repeat match goal with |- context [dict_set ?k ?v ?d] =>
      let a := fresh "a" in let E := fresh "E" in let I := fresh "I" in
      destruct (dict_set_keys k v d) as (a & E & I); rewrite E; clear E
    end.
    rewrite Hkeys, <- !app_assoc. eexists. split; [reflexivity|].
    repeat apply incl_app; try assumption;
      (eapply incl_tran; [eassumption|]); intros x [<-|[]];
      unfold known_arguments; simpl; tauto.
Qed.

(** X3. Validation touches nothing but the arguments it knows: the other
    fields of the call keep their values and the call its keys in their
    order; inside [args] every key the model supplied is kept in place, a
    key outside the seven known arguments keeps its value, and only known
    arguments are added. *)
Theorem validation_keeps_unknown_arguments call call' :
  validate_and_normalize_call cfg call = (call', Ok tt) ->
  exists args args' added,
    get k_args call = JDict args /\ get k_args call' = JDict args' /\
    map fst call' = map fst call /\
    (forall k, k <> k_args -> dict_get k call' = dict_get k call) /\
    map fst args' = map fst args ++ added /\ incl added known_arguments /\
    (forall k, ~ In k known_arguments -> dict_get k args' = dict_get k args).
Proof.
  intro H. apply validate_inv in H as (args & args' & _ & _ & Hargs & Hn & ->).
  apply normalize_args_frame in Hn as (Hget & added & Hkeys & Hincl).
  exists args, args', added.
  split; [exact Hargs|]. split; [apply get_set_same|]. split.
  { clear -Hargs. unfold get in Hargs.
    induction call as [|[k0 v0] call IH]; [discriminate|].
    cbn [dict_get dict_set] in *. destruct (str_eqb k_args k0); [reflexivity|].
    cbn [map]. f_equal. apply IH, Hargs. }
  split; [intros k Hk; now apply dict_get_set_neq|].
  repeat split; assumption.
Qed.

End ValidateFrame.

(** ** The language check and the sanitizer *)

Lemma existsb_flat_map A B (p : B -> bool) (f : A -> list B) l :
  existsb p (flat_map f l) = existsb (fun a => existsb p (f a)) l.
Proof.
  induction l as [|a l IH]; simpl; [reflexivity|]. now rewrite existsb_app, IH.
Qed.

Lemma existsb_map A B (p : B -> bool) (f : A -> B) l :
  existsb p (map f l) = existsb (fun a => p (f a)) l.
Proof. induction l as [|a l IH]; simpl; [reflexivity|]. now rewrite IH. Qed.

Lemma existsb_join (p : Z -> bool) sep l :
  existsb p sep = false -> existsb p (join sep l) = existsb (existsb p) l.
Proof.
  intro Hsep. induction l as [|x l IH]; [reflexivity|].
  destruct l as [|y l].
  - simpl. now rewrite orb_false_r.
  - change (join sep (x :: y :: l)) with (x ++ sep ++ join sep (y :: l)).
    rewrite !existsb_app, Hsep, IH. reflexivity.
Qed.

Lemma is_han_small c : c < 19968 -> is_han c = false.
Proof. intro H. unfold is_han. destruct (Z.leb_spec 19968 c); [lia | reflexivity]. Qed.

Lemma is_han_escape_char c : existsb is_han (escape_char c) = is_han c.
Proof.
  unfold escape_char.
  repeat match goal with
  | |- context [if ?c =? ?n then _ else _] =>
    destruct (Z.eqb_spec c n); [subst; reflexivity|]
  end.
  destruct (Z.ltb_spec c 32).
  - rewrite existsb_app. cbn [existsb].
    replace (existsb _ (u "\u00")) with false by reflexivity.
    rewrite (is_han_small (c := c)) by lia. unfold hex_digit.
    pose proof (Z.mod_pos_bound c 16 eq_refl).
    assert (c / 16 < 2) by (apply Z.div_lt_upper_bound; lia).
    destruct (c / 16 <? 10), (c mod 16 <? 10);
      rewrite !is_han_small by lia; reflexivity.
  - cbn. now rewrite orb_false_r.
Qed.

Lemma is_han_escaped s : existsb is_han (flat_map escape_char s) = existsb is_han s.
Proof.
  induction s as [|c s IH]; simpl; [reflexivity|].
  now rewrite existsb_app, is_han_escape_char, IH.
Qed.

Lemma is_han_quote s : existsb is_han (quote s) = existsb is_han s.
Proof.
  unfold quote. rewrite !existsb_app, is_han_escaped. cbn [existsb].
  replace (is_han 34) with false by reflexivity.
  now rewrite !orb_false_r.
Qed.

Lemma is_han_digits_pos fuel : forall n acc,
  existsb is_han (digits_pos fuel n acc) = existsb is_han acc.
Proof.
  induction fuel as [|fuel IH]; intros n acc; cbn [digits_pos]; [reflexivity|].
  destruct (Z.ltb_spec n 10).
  - cbn [existsb]. rewrite is_han_small by lia. reflexivity.
  - rewrite IH. cbn [existsb]. pose proof (Z.mod_pos_bound n 10 eq_refl).
    rewrite is_han_small by lia. reflexivity.
Qed.

Lemma is_han_str_of_Z n : existsb is_han (str_of_Z n) = false.
Proof.
  unfold str_of_Z. destruct (n <? 0); cbn [existsb]; now rewrite is_han_digits_pos.
Qed.

Section LanguageCheck.
Context {RT : PyRuntime}.

Lemma existsb_contains_cjk l : existsb contains_cjk l = existsb (existsb is_han) l.
Proof.
  induction l as [|s l IH]; simpl; [reflexivity|]. now rewrite contains_cjk_existsb, IH.
Qed.

Lemma is_han_dumps :
  (forall f, contains_cjk (py_repr (JFloat f)) = false) ->
  forall x level,
    existsb is_han (dumps None level x) = existsb (existsb is_han) (strings_of x).
Proof.
  intros Hrepr.
  induction x as [ | b | n | f | s | l IH | d IH] using json_nested_ind; intro level.
  - reflexivity.
  - destruct b; reflexivity.
  - apply is_han_str_of_Z.
  - cbn [dumps strings_of existsb]. unfold dumps_float.
    destruct f as [ | [|] | | ]; try reflexivity;
      rewrite <- contains_cjk_existsb; apply Hrepr.
  - cbn [dumps strings_of existsb]. now rewrite is_han_quote, orb_false_r.
  - destruct l as [|x l]; [reflexivity|].
    cbn [dumps newline_indent item_separator].
    rewrite !existsb_app, existsb_join by reflexivity.
    replace (existsb is_han (u "[")) with false by reflexivity.
    replace (existsb is_han (u "]")) with false by reflexivity.
    cbn [existsb orb app]. rewrite orb_false_r.
    cbn [strings_of]. rewrite existsb_flat_map, existsb_map.
    generalize dependent (x :: l). clear x l. intros l IH.
    induction IH as [|y l Hy _ IHl]; cbn [existsb]; [reflexivity|]. now rewrite Hy, IHl.
  - destruct d as [|kv d]; [reflexivity|].
    cbn [dumps newline_indent item_separator].
    rewrite !existsb_app, existsb_join by reflexivity.
    replace (existsb is_han (u "{")) with false by reflexivity.
    replace (existsb is_han (u "}")) with false by reflexivity.
    cbn [existsb orb app]. rewrite orb_false_r.
    cbn [strings_of]. rewrite existsb_flat_map, existsb_map.
    generalize dependent (kv :: d). clear kv d. intros d IH.
    induction IH as [|[k v] d Hv _ IHd]; cbn [existsb]; [reflexivity|].
    cbn [snd] in Hv. cbn [existsb] in IHd.
    rewrite !existsb_app, is_han_quote, Hv, IHd.
    replace (existsb is_han (u ": ")) with false by reflexivity.
    reflexivity.
Qed.

(** X5. With [ensure_ascii] off, the language check on the dump of an
    envelope finds a Han character exactly when one of the strings of the
    envelope, a key or a value at any depth, contains one (the digits of a
    float never do). *)
Theorem dump_has_han_iff_a_string_has x :
  (forall f, contains_cjk (py_repr (JFloat f)) = false) ->
  contains_cjk (json_dumps x) = existsb contains_cjk (strings_of x).
Proof.
  intro Hrepr. rewrite contains_cjk_existsb, existsb_contains_cjk.
  now apply is_han_dumps.
Qed.

Lemma fallback_compliant : contains_cjk FALLBACK = false.
Proof. rewrite contains_cjk_existsb. vm_compute. reflexivity. Qed.

Lemma walk_idempotent x : _walk (_walk x) = _walk x.
Proof.
  induction x as [ | b | n | f | s | l IH | d IH] using json_nested_ind;
    cbn [_walk]; try reflexivity.
  - unfold _fix_str. destruct (contains_cjk s) eqn:E.
    + now rewrite fallback_compliant.
    + now rewrite E.
  - f_equal. rewrite map_map. induction IH as [|y l Hy _ IHl]; simpl; [reflexivity|].
    now rewrite Hy, IHl.
  - f_equal. rewrite map_map. induction IH as [|[k v] d Hv _ IHd]; simpl; [reflexivity|].
    simpl in Hv. now rewrite Hv, IHd.
Qed.

Lemma walk_fixed x :
  Forall (fun s => contains_cjk s = false) (values_of x) -> _walk x = x.
Proof.
  induction x as [ | b | n | f | s | l IH | d IH] using json_nested_ind;
    cbn [_walk values_of]; try reflexivity.
  - intro H. inversion_clear H as [|? ? Hs _]. unfold _fix_str. now rewrite Hs.
  - intro H. f_equal. induction IH as [|y l Hy _ IHl]; simpl; [reflexivity|].
    simpl in H. apply Forall_app in H as [H1 H2]. now rewrite Hy, IHl.
  - intro H. f_equal. induction IH as [|[k v] d Hv _ IHd]; simpl; [reflexivity|].
    simpl in H, Hv. apply Forall_app in H as [H1 H2]. now rewrite Hv, IHd.
Qed.

(** X4. The sanitizer is idempotent, and it returns its argument unchanged
    exactly when no string value of the argument contains a Han
    character. *)
Theorem sanitize_korean_only_idempotent x :
  sanitize_korean_only (sanitize_korean_only x) = sanitize_korean_only x /\
  (sanitize_korean_only x = x <->
   Forall (fun s => contains_cjk s = false) (values_of x)).
Proof.
  unfold sanitize_korean_only. split; [apply walk_idempotent|]. split.
  - intro H. rewrite <- H. apply (sanitized_values_compliant x).
  - apply walk_fixed.
Qed.

End LanguageCheck.

(** ** The conversation and the trace of a run *)

Lemma extends_refl st : extends st st.
Proof. repeat split; exists []; cbn; rewrite ?app_nil_r; reflexivity. Qed.

Lemma extends_trans a b c : extends a b -> extends b c -> extends a c.
Proof.
  intros ([t1 H1] & [e1 H2] & [r1 H3]) ([t2 H4] & [e2 H5] & [r2 H6]).
  split; [|split].
  - exists (t1 ++ t2). now rewrite H4, H1, flat_map_app, app_assoc.
  - exists (e1 ++ e2). now rewrite H5, H2, app_assoc.
  - exists (r1 ++ r2). now rewrite H6, H3, app_assoc.
Qed.

Lemma extends_messages st st' a b :
  extends st st' -> extends st (append_messages [say assistant a; say user b] st').
Proof.
  intro H. eapply extends_trans; [exact H|].
  split; [|split].
  - exists [(a, b)]. cbn; rewrite ?app_nil_r; reflexivity.
  - exists []. cbn; rewrite ?app_nil_r; reflexivity.
  - exists []. cbn; rewrite ?app_nil_r; reflexivity.
Qed.

Lemma extends_trace st st' es : extends st st' -> extends st (append_trace es st').
Proof.
  intro H. eapply extends_trans; [exact H|].
  split; [|split].
  - exists []. cbn; rewrite ?app_nil_r; reflexivity.
  - now exists es.
  - exists []. cbn; rewrite ?app_nil_r; reflexivity.
Qed.

Lemma extends_requests st st' rs : extends st st' -> extends st (log_requests rs st').
Proof.
  intro H. eapply extends_trans; [exact H|].
  split; [|split].
  - exists []. cbn; rewrite ?app_nil_r; reflexivity.
  - exists []. cbn; rewrite ?app_nil_r; reflexivity.
  - now exists rs.
Qed.

Lemma extends_lang_retry st st' n : extends st st' -> extends st (set_lang_retry n st').
Proof. intro H. eapply extends_trans; [exact H|]. repeat split; exists []; cbn; rewrite ?app_nil_r; reflexivity. Qed.

Lemma extends_tool_calls st st' n : extends st st' -> extends st (set_tool_calls n st').
Proof. intro H. eapply extends_trans; [exact H|]. repeat split; exists []; cbn; rewrite ?app_nil_r; reflexivity. Qed.

Ltac extends :=
  repeat first
    [ assumption
    | apply extends_messages
    | apply extends_trace
    | apply extends_requests
    | apply extends_lang_retry
    | apply extends_tool_calls
    | apply extends_refl ].

Section Conversation.
Context {RT : PyRuntime}.
Variable cfg : settings.
Variable w : world.
Variable h : hints.

Lemma raw_language_retry_extends left : forall text st st0,
  extends st0 st -> extends st0 (snd (raw_language_retry w left text st)).
Proof.
  induction left as [|left IH]; intros text st st0 H; cbn [raw_language_retry].
  - exact H.
  - destruct (contains_cjk text); [|exact H]. apply IH. extends.
Qed.

Lemma loop_body_extends st : extends st (state_of (loop_body cfg w h st)).
Proof.
  unfold loop_body.
  pose proof (@raw_language_retry_extends 2 (llm_chat w (messages st)) st st (extends_refl st)) as H.
  fold (await_model w st) in H.
  destruct (await_model w st) as [text st1]. cbn [snd] in H.
  destruct (envelope (extract_first_json_object text)) as [obj|]; [|cbn [state_of]; extends].
  unfold dispatch. destruct obj as [ | | | | | |d]; try exact H.
  destruct (eq_str (get k_action d) s_final).
  { unfold on_final. cbv zeta. destruct (contains_cjk (json_dumps (JDict d))).
    - destruct (MAX_LANG_RETRY cfg <=? lang_retry st1 + 1); cbn [state_of]; extends.
    - cbn [state_of]. extends. }
  destruct (eq_str (get k_action d) s_tool_call); [|cbn [state_of]; extends].
  unfold on_tool_call.
  destruct (MAX_TOOL_CALLS cfg <=? tool_calls st1).
  { cbn [state_of]. unfold reject_tool_call. extends. }
  destruct (backfill h d) as [obj1|e]; [|exact H].
  destruct (validate_and_normalize_call cfg obj1) as [obj2 [[]|e]].
  - unfold execute_tool.
    destruct (dict_get k_tool obj2) as [tool|]; [|exact H].
    destruct (dict_get k_args obj2) as [args|]; [|exact H].
    destruct (run_tool w tool args) as [rq [r|e]]; [|cbn [state_of]; extends].
    destruct (compact_tool_result tool r); cbn [state_of]; extends.
  - destruct e; try exact H. cbn [state_of]. unfold invalid_tool_call. extends.
Qed.

Lemma iterate_extends n : forall st, extends st (state_of (iterate cfg w h n st)).
Proof.
  induction n as [|n IH]; intro st; cbn [iterate]; [apply extends_refl|].
  pose proof (loop_body_extends st) as H.
  destruct (loop_body cfg w h st) as [st'|f st'|e st']; cbn [state_of] in *; try exact H.
  eapply extends_trans; [exact H | apply IH].
Qed.

Lemma iterate_add m : forall k st,
  iterate cfg w h (m + k) st =
  match iterate cfg w h m st with
  | Continue st' => iterate cfg w h k st'
  | o => o
  end.
Proof.
  induction m as [|m IH]; intros k st; cbn [iterate Nat.add]; [reflexivity|].
  destruct (loop_body cfg w h st); [apply IH | reflexivity | reflexivity].
Qed.

End Conversation.

Section ConversationOfRun.
Context {RT : PyRuntime}.

(** X6. However long a run has gone on, its conversation is the three
    opening messages (the two system prompts and the question) followed by
    whole exchanges of one assistant message and one user message; and a
    run only ever appends: the conversation, the trace and the requests
    made after [m] passes are prefixes of those after [m + k] passes. *)
Theorem run_agent_only_appends cfg w question m k :
  (exists turns,
     messages (state_of (run_agent cfg w question m)) =
     [say system LANG_SPEC; say system (TOOL_SPEC cfg); say user question]
       ++ flat_map turn turns) /\
  extends (state_of (run_agent cfg w question m))
          (state_of (run_agent cfg w question (m + k))).
Proof.
  split.
  - destruct (iterate_extends cfg w (question_hints question) m (initial_state cfg question))
      as [[turns H] _].
    exists turns. exact H.
  - unfold run_agent. rewrite iterate_add.
    destruct (iterate cfg w (question_hints question) m (initial_state cfg question));
      cbn [state_of]; [apply iterate_extends | apply extends_refl | apply extends_refl].
Qed.

Lemma loop_body_recorded cfg w h st f st' :
  loop_body cfg w h st = Return f st' -> recorded f (trace st').
Proof.
  unfold loop_body. destruct (await_model w st) as [text st1].
  destruct (envelope (extract_first_json_object text)) as [obj|].
  - unfold dispatch. destruct obj as [ | | | | | |d]; try discriminate.
    destruct (eq_str (get k_action d) s_final) eqn:Ef.
    + unfold on_final. cbv zeta.
      destruct (contains_cjk (json_dumps (JDict d))).
      * destruct (MAX_LANG_RETRY cfg <=? lang_retry st1 + 1); [|discriminate].
        intros [= <- <-]. right. left. cbn [trace append_trace set_lang_retry].
        apply last_last.
      * intros [= <- <-]. left. cbn [trace append_trace]. apply last_last.
    + destruct (eq_str (get k_action d) s_tool_call).
      * unfold on_tool_call.
        destruct (MAX_TOOL_CALLS cfg <=? tool_calls st1); [discriminate|].
        destruct (backfill h d) as [obj1|e]; [|discriminate].
        destruct (validate_and_normalize_call cfg obj1) as [obj2 [[]|e]].
        -- unfold execute_tool.
           destruct (dict_get k_tool obj2) as [tool|]; [|discriminate].
           destruct (dict_get k_args obj2) as [args|]; [|discriminate].
           destruct (run_tool w tool args) as [rq [r|e]]; [|discriminate].
           destruct (compact_tool_result tool r); discriminate.
        -- destruct e; discriminate.
      * intros [= <- <-]. right. right. right. exists d.
        split; [reflexivity|]. cbn [trace append_trace]. apply last_last.
  - intros [= <- <-]. right. right. left. split; [reflexivity|].
    exists text. cbn [trace append_trace]. apply last_last.
Qed.

(** X7. Whatever [run_agent] returns is a mapping whose action is [final],
    never a [tool_call] envelope, and the last entry of the trace records
    it: a [final] or [final_sanitized] entry that holds the very envelope
    returned, an [llm_raw] entry for the fixed diagnostic of an unparsable
    reply, or an [unknown_action] entry for the diagnostic of an unknown
    action. *)
Theorem run_agent_returns_what_it_recorded cfg w question n f st :
  run_agent cfg w question n = Return f st ->
  (exists d, f = JDict d /\ get k_action d = JStr s_final) /\
  recorded f (trace st).
Proof.
  unfold run_agent. generalize (initial_state cfg question).
  induction n as [|n IH]; intros st0; cbn [iterate]; [discriminate|].
  destruct (loop_body cfg w (question_hints question) st0) as [st1|f1 st1|e st1] eqn:E.
  - apply IH.
  - intros [= <- <-]. split.
    + eapply loop_body_returns_final. exact E.
    + eapply loop_body_recorded. exact E.
  - discriminate.
Qed.

(** X8. Waiting for the model: the text the loop goes on with is the
    model's reply to the conversation as it then stands; before it, at most
    two replies were turned down for a Han character, each recorded with
    its retry number and answered with the corrective message; and a text
    that still contains a Han character is only let through after two such
    retries. *)
Theorem await_model_retries_at_most_twice w st :
  let '(text, st1) := await_model w st in
  text = llm_chat w (messages st1) /\
  exists rejected,
    (List.length rejected <= 2)%nat /\
    Forall (fun t => contains_cjk t = true) rejected /\
    messages st1 = messages st ++ flat_map (fun t => turn (t, RAW_CORRECTION)) rejected /\
    trace st1 = trace st ++
      map (fun p => entry "llm_raw_rejected_language"
                          [(k_content, JStr (snd p)); (k_retry, JInt (fst p))])
          (combine [1; 2] rejected) /\
    (contains_cjk text = true -> List.length rejected = 2%nat).
Proof.
  unfold await_model. cbn [raw_language_retry].
  set (t0 := llm_chat w (messages st)).
  destruct (contains_cjk t0) eqn:E0.
  - set (st2 := append_messages _ _).
    set (t1 := llm_chat w (messages st2)).
    destruct (contains_cjk t1) eqn:E1.
    + split; [reflexivity|]. exists [t0; t1].
      split; [cbn; lia|]. split; [now repeat constructor|].
      subst st2.
      cbn [messages trace append_messages append_trace flat_map turn fst snd app combine map].
      rewrite <- !app_assoc. repeat split.
    + split; [reflexivity|]. exists [t0].
      split; [cbn; lia|]. split; [now repeat constructor|].
      subst st2.
      cbn [messages trace append_messages append_trace flat_map turn fst snd app combine map].
      repeat split. intro H. fold t1 in H. congruence.
  - split; [reflexivity|]. exists [].
    split; [cbn; lia|]. split; [constructor|].
    cbn [flat_map combine map]. rewrite !app_nil_r. repeat split.
    intro H. congruence.
Qed.

End ConversationOfRun.

Section HappyPath.
Context {RT : PyRuntime}.

Lemma iterate_continue cfg w h m : forall st st',
  iterate cfg w h m st = Continue st' ->
  forall k, iterate cfg w h (m + k) st = iterate cfg w h k st'.
Proof. intros st st' H k. now rewrite iterate_add, H. Qed.

(** X9. The happy path, at any pass: when the reply to the conversation
    contains no Han character, its first JSON object is a non-empty
    mapping with action [final], and the dump of that mapping contains no
    Han character either, the run returns exactly that mapping, records it
    in a [final] entry, and changes nothing else. *)
Theorem compliant_final_is_returned_as_is cfg w question m k st d :
  run_agent cfg w question m = Continue st ->
  contains_cjk (llm_chat w (messages st)) = false ->
  extract_first_json_object (llm_chat w (messages st)) = Some (JDict d) ->
  d <> [] ->
  get k_action d = JStr s_final ->
  contains_cjk (json_dumps (JDict d)) = false ->
  run_agent cfg w question (m + S k) =
  Return (JDict d) (append_trace [entry "final" [(k_content, JDict d)]] st).
Proof.
  intros Hrun Hraw Hobj Hne Hact Hdump. unfold run_agent in *.
  rewrite (iterate_continue _ _ _ _ _ Hrun). cbn [iterate].
  unfold loop_body, await_model. cbn [raw_language_retry]. rewrite Hraw, Hobj.
  unfold envelope. replace (truthy (JDict d)) with true by (destruct d; [congruence | reflexivity]).
  unfold dispatch. rewrite Hact. cbn [eq_str]. rewrite str_eqb_refl.
  unfold on_final. cbv zeta. rewrite Hdump. reflexivity.
Qed.

End HappyPath.

(** ** The tool runner *)

Lemma bind_parameters_binds sig kwargs payload :
  bind_parameters sig kwargs = Ok payload ->
  Forall2 (fun param item =>
             fst item = fst param /\ bound_value kwargs param = Some (snd item))
          sig payload.
Proof.
  revert payload. induction sig as [|[k dflt] sig IH]; intros payload; cbn [bind_parameters].
  - intros [= <-]. constructor.
  - unfold bound_value at 1. cbn [fst snd].
    destruct (dict_get k kwargs) as [v|] eqn:Ek; [|destruct dflt as [v|]; [|discriminate]];
      (destruct (bind_parameters sig kwargs) as [rest|e]; [|discriminate]);
      cbn [bind]; intros [= <-]; (constructor; [|now apply IH]);
      unfold bound_value; cbn [fst snd]; rewrite Ek; split; reflexivity.
Qed.

Section ToolRunner.
Context {RT : PyRuntime}.

(** X10. [run_tool] either makes no request and raises (a [TypeError] when
    the arguments do not fit the parameters of the tool: no mapping, an
    unexpected keyword, no [cluster]; a [ValueError] for an unknown tool),
    or makes exactly one request, to the endpoint of the tool named, whose
    payload holds the parameters of that tool in their declared order, each
    with the value supplied or else its default; the result is the answer of
    the service to that request. *)
Theorem run_tool_posts_the_parameters w tool args :
  let '(requests, r) := run_tool w tool args in
  (requests = [] /\
   (r = Raise TypeError \/ r = Raise (ValueError (u "Unknown tool")))) \/
  exists name path sig kwargs payload,
    In (name, (path, sig)) tools /\ tool = JStr name /\ args = JDict kwargs /\
    requests = [(path, JDict payload)] /\ r = http_post w path (JDict payload) /\
    incl (map fst kwargs) (map fst sig) /\
    Forall2 (fun param item =>
               fst item = fst param /\ bound_value kwargs param = Some (snd item))
            sig payload.
Proof.
  assert (Hcall : forall sig kwargs payload,
            call_with_keywords sig (JDict kwargs) = Ok payload ->
            incl (map fst kwargs) (map fst sig) /\ bind_parameters sig kwargs = Ok payload).
  { intros sig kwargs payload. cbn [call_with_keywords].
    destruct (forallb _ kwargs) eqn:Ef; [|discriminate]. intro Hb. split; [|exact Hb].
    intros k Hk. apply in_map_iff in Hk as ([k0 v] & <- & Hin).
    rewrite forallb_forall in Ef. specialize (Ef _ Hin). cbn [fst] in *.
    apply existsb_exists in Ef as ([k1 d] & Hin1 & Heq). cbn [fst] in Heq.
    apply str_eqb_eq in Heq. subst k1. apply in_map_iff. now exists (k0, d). }
  assert (Hpost : forall name path sig,
            In (name, (path, sig)) tools -> tool = JStr name ->
            let '(requests, r) := post w path (call_with_keywords sig args) in
            (requests = [] /\
             (r = Raise TypeError \/ r = Raise (ValueError (u "Unknown tool")))) \/
            exists name path sig kwargs payload,
              In (name, (path, sig)) tools /\ tool = JStr name /\ args = JDict kwargs /\
              requests = [(path, JDict payload)] /\ r = http_post w path (JDict payload) /\
              incl (map fst kwargs) (map fst sig) /\
              Forall2 (fun param item =>
                         fst item = fst param /\ bound_value kwargs param = Some (snd item))
                      sig payload).
  { intros name path sig Hin Htool. unfold post.
    destruct (call_with_keywords sig args) as [payload|e] eqn:Ec.
    - right. destruct args as [ | | | | | |kwargs]; try discriminate.
      destruct (Hcall _ _ _ Ec) as [Hincl Hb].
      exists name, path, sig, kwargs, payload.
      repeat (split; [assumption || reflexivity|]). now apply bind_parameters_binds.
    - left. split; [reflexivity|]. left. f_equal.
      destruct args as [ | | | | | |kwargs]; try (now injection Ec as <-).
      cbn [call_with_keywords] in Ec.
      destruct (forallb _ kwargs); [|now injection Ec as <-].
      clear -Ec. revert e Ec. induction sig as [|[k dflt] sig IH]; intros e; cbn [bind_parameters].
      + discriminate.
      + destruct (dict_get k kwargs); [|destruct dflt; [|now intros [= <-]]];
          (destruct (bind_parameters sig kwargs) as [rest|e0]; [discriminate|]);
          cbn [bind]; intros [= <-]; now apply IH. }
  unfold run_tool, current_error_services, increasing_error_services.
  destruct (eq_str tool s_current_error_services) eqn:E1.
  { apply eq_str_eq in E1. apply (Hpost s_current_error_services); [left; reflexivity | exact E1]. }
  destruct (eq_str tool s_increasing_error_services) eqn:E2.
  { apply eq_str_eq in E2.
    apply (Hpost s_increasing_error_services); [right; left; reflexivity | exact E2]. }
  left. split; [reflexivity | now right].
Qed.

End ToolRunner.

Section UnexpectedKeyword.
Context {RT : PyRuntime}.

Lemma call_with_unexpected_keyword sig kwargs k :
  In k (map fst kwargs) -> ~ In k (map fst sig) ->
  call_with_keywords sig (JDict kwargs) = Raise TypeError.
Proof.
  intros Hin Hout. cbn [call_with_keywords].
  destruct (forallb _ kwargs) eqn:Ef; [|reflexivity]. exfalso. apply Hout.
  apply in_map_iff in Hin as ([k0 v] & <- & Hin).
  rewrite forallb_forall in Ef. specialize (Ef _ Hin). cbn [fst] in *.
  apply existsb_exists in Ef as ([k1 d] & Hin1 & Heq). cbn [fst] in Heq.
  apply str_eqb_eq in Heq. subst k1. apply in_map_iff. now exists (k0, d).
Qed.

(** X11. Validation does not look at the keys it does not know, and the
    tool functions are called with the arguments as keywords: a call that
    passed validation but carries an argument that is no parameter of the
    tool it names makes [run_agent] raise a [TypeError]; the call has been
    counted by then, and no request was made. *)
Theorem unexpected_keyword_raises_after_validation
    cfg w h obj obj1 call st name path sig kwargs k :
  tool_calls st < MAX_TOOL_CALLS cfg ->
  backfill h obj = Ok obj1 ->
  validate_and_normalize_call cfg obj1 = (call, Ok tt) ->
  get k_tool call = JStr name -> In (name, (path, sig)) tools ->
  get k_args call = JDict kwargs ->
  In k (map fst kwargs) -> ~ In k (map fst sig) ->
  exists st',
    on_tool_call cfg w h obj st = Raised TypeError st' /\
    tool_calls st' = tool_calls st + 1 /\
    invocations st' = invocations st /\
    trace st' = trace st /\ messages st' = messages st.
Proof.
  intros Hlt Hb Hv Htool Hin Hargs Hk Hnk.
  unfold on_tool_call. apply Z.leb_gt in Hlt. rewrite Hlt, Hb, Hv.
  unfold execute_tool.
  pose proof Hv as Hinv. apply validate_inv in Hinv as (a & a' & _ & _ & Ha & _ & ->).
  rewrite dict_get_set_same. rewrite get_set_same in Hargs. injection Hargs as ->.
  rewrite get_set_other in Htool by reflexivity.
  assert (Hcall' := call_with_unexpected_keyword sig kwargs k Hk Hnk).
  destruct (dict_get k_tool (dict_set k_args (JDict kwargs) obj1)) as [tool|] eqn:Et.
  2:{ rewrite dict_get_set_other in Et by reflexivity.
      unfold get in Htool. rewrite Et in Htool. discriminate. }
  assert (tool = JStr name) as ->.
  { rewrite dict_get_set_other in Et by reflexivity.
    unfold get in Htool. rewrite Et in Htool. exact Htool. }
  assert (Hrun : run_tool w (JStr name) (JDict kwargs) = ([], Raise TypeError)).
  { unfold run_tool, current_error_services, increasing_error_services.
    destruct Hin as [[= <- <- <-]|[[= <- <- <-]|[]]].
    - cbn [eq_str]. rewrite str_eqb_refl. now rewrite Hcall'.
    - replace (eq_str (JStr s_increasing_error_services) s_current_error_services)
        with false by reflexivity.
      cbn [eq_str]. rewrite str_eqb_refl. now rewrite Hcall'. }
  rewrite Hrun. eexists. split; [reflexivity|].
  cbn [tool_calls invocations trace messages log_requests set_tool_calls].
  rewrite app_nil_r. repeat split.
Qed.

End UnexpectedKeyword.

(** ** The request models of the tool service *)

Section RequestsFit.
Context {RT : PyRuntime}.
Variable cfg : settings.
Hypothesis window_bounds : 5 <= WINDOW_MIN cfg /\ WINDOW_MIN cfg <= WINDOW_MAX cfg
                           /\ WINDOW_MAX cfg <= 20160.
Hypothesis limit_bounds : 1 <= LIMIT_MIN cfg /\ LIMIT_MIN cfg <= LIMIT_MAX cfg
                          /\ LIMIT_MAX cfg <= 20.

Lemma leb_true a b : a <= b -> (a <=? b) = true.
Proof. apply Z.leb_le. Qed.

Lemma normal_request w tool args :
  allowed_tool tool = true -> normal_args cfg tool args ->
  Forall well_formed_request (fst (run_tool w tool (JDict args))).
Proof.
  intros Hallowed (c & st & nsv & wv & l & Hc & Hc1 & Hc2 & Hs & Hs1 & Hs2 & Hn & Hn1
                   & Hw & Hw1 & Hl & Hl1 & Hinc).
  assert (Hwr : 5 <= wv <= 20160).
  { rewrite <- Hw1. unfold clamp_int. lia. }
  assert (Hlr : 1 <= l <= 20).
  { rewrite <- Hl1. unfold clamp_int. lia. }
  assert (Hlen : forall s : str, s <> [] -> (1 <=? List.length s)%nat = true).
  { intros [|x s] Hne; [congruence | reflexivity]. }
  assert (Hnsv : meets a_optional_str nsv = true).
  { destruct Hn1 as [-> | (ns & -> & _)]; reflexivity. }
  unfold allowed_tool in Hallowed. unfold run_tool.
  destruct (eq_str tool s_current_error_services) eqn:E1.
  - unfold current_error_services, post, call_with_keywords.
    destruct (forallb _ args); [|constructor].
    cbn [bind_parameters current_error_services_sig].
    rewrite Hc, Hw, Hl, Hs, Hn. cbn [bind fst].
    constructor; [|constructor].
    eexists _, _. split; [reflexivity|]. split; [reflexivity|].
    cbn [fits forallb CurrentErrorServicesRequest field_name field_annotation field_default].
    cbn [dict_get str_eqb k_cluster k_namespace k_status k_window_minutes k_limit
         Z.eqb Pos.eqb andb].
    rewrite Hnsv. cbn [meets]. rewrite !Hlen, !leb_true by (assumption || lia). reflexivity.
  - cbn [orb] in Hallowed. rewrite Hallowed.
    destruct (Hinc Hallowed) as (md & mr & Hd & Hd1 & Hr & Hr1).
    unfold increasing_error_services, post, call_with_keywords.
    destruct (forallb _ args); [|constructor].
    cbn [bind_parameters increasing_error_services_sig].
    rewrite Hc, Hw, Hl, Hs, Hn, Hd, Hr. cbn [bind fst].
    constructor; [|constructor].
    eexists _, _. split; [reflexivity|]. split; [reflexivity|].
    cbn [fits forallb IncreasingErrorServicesRequest field_name field_annotation field_default].
    cbn [dict_get str_eqb k_cluster k_namespace k_status k_window_minutes k_limit
         k_min_delta k_min_ratio Z.eqb Pos.eqb andb].
    rewrite Hnsv. cbn [meets]. rewrite !Hlen, !leb_true by (assumption || lia).
    cbn [andb]. rewrite <- Hr1. destruct (clamp_float_range mr) as [H1 H2].
    now rewrite H1, H2.
Qed.

Lemma validated_requests w call call' tool args :
  validate_and_normalize_call cfg call = (call', Ok tt) ->
  dict_get k_tool call' = Some tool -> dict_get k_args call' = Some args ->
  Forall well_formed_request (fst (run_tool w tool args)).
Proof.
  intros Hv Ht Ha.
  apply validate_inv in Hv as (a & a' & _ & Hallowed & _ & Hn & ->).
  rewrite dict_get_set_same in Ha. injection Ha as <-.
  rewrite dict_get_set_other in Ht by reflexivity.
  unfold get in *. rewrite Ht in *.
  apply normal_request; [exact Hallowed | now apply normalize_args_normal in Hn].
Qed.

Lemma loop_body_requests w h st :
  exists rq,
    invocations (state_of (loop_body cfg w h st)) = invocations st ++ rq /\
    Forall well_formed_request rq.
Proof.
  assert (Hnone : forall st', invocations st' = invocations st ->
            exists rq, invocations st' = invocations st ++ rq /\ Forall well_formed_request rq).
  { intros st' H. exists []. rewrite app_nil_r. split; [exact H | constructor]. }
  unfold loop_body.
  destruct (await_model_frame w st) as (_ & _ & Hinv & _).
  destruct (await_model w st) as [text st1]. cbn [snd] in Hinv.
  destruct (envelope (extract_first_json_object text)) as [obj|]; [|now apply Hnone].
  unfold dispatch. destruct obj as [ | | | | | |d]; try (now apply Hnone).
  destruct (eq_str (get k_action d) s_final).
  { unfold on_final. cbv zeta. destruct (contains_cjk (json_dumps (JDict d))).
    - destruct (MAX_LANG_RETRY cfg <=? lang_retry st1 + 1); now apply Hnone.
    - now apply Hnone. }
  destruct (eq_str (get k_action d) s_tool_call); [|now apply Hnone].
  unfold on_tool_call.
  destruct (MAX_TOOL_CALLS cfg <=? tool_calls st1); [now apply Hnone|].
  destruct (backfill h d) as [obj1|e]; [|now apply Hnone].
  destruct (validate_and_normalize_call cfg obj1) as [obj2 [[]|e]] eqn:Ev.
  - unfold execute_tool.
    destruct (dict_get k_tool obj2) as [tool|] eqn:Et; [|now apply Hnone].
    destruct (dict_get k_args obj2) as [args|] eqn:Ea; [|now apply Hnone].
    pose proof (validated_requests w _ Ev Et Ea) as Hrq.
    destruct (run_tool w tool args) as [rq [r|e]]; cbn [fst] in Hrq.
    + destruct (compact_tool_result tool r); exists rq;
        cbn [state_of invocations append_messages append_trace log_requests set_tool_calls];
        rewrite Hinv; now split.
    + exists rq.
      cbn [state_of invocations append_messages append_trace log_requests set_tool_calls].
      rewrite Hinv; now split.
  - destruct e; now apply Hnone.
Qed.

Lemma iterate_requests w h n : forall st,
  Forall well_formed_request (invocations st) ->
  Forall well_formed_request (invocations (state_of (iterate cfg w h n st))).
Proof.
  induction n as [|n IH]; intros st H; cbn [iterate]; [exact H|].
  destruct (loop_body_requests w h st) as (rq & Hrq & Hok).
  assert (Hnext : Forall well_formed_request
                    (invocations (state_of (loop_body cfg w h st)))).
  { rewrite Hrq. apply Forall_app. now split. }
  destruct (loop_body cfg w h st) as [st'|f st'|e st']; cbn [state_of] in *;
    [now apply IH | exact Hnext | exact Hnext].
Qed.

(** X12. The agent and the tool service agree on what a request is: when
    the bounds the agent is configured with lie within those of the request
    models (windows of 5 to 20160 minutes, limits of 1 to 20), every request
    of every run goes to one of the two endpoints, and its payload gives
    every field of the request model of that endpoint a value of the
    declared type within the declared bounds. *)
Theorem every_request_fits_its_model w question n :
  Forall well_formed_request (invocations (state_of (run_agent cfg w question n))).
Proof. unfold run_agent. apply iterate_requests. constructor. Qed.

End RequestsFit.

(** ** The result compactor *)

Section Compactor.
Context {RT : PyRuntime}.

Lemma compact_row_shape s row : compact_row s = Ok row -> compact_row_of s row.
Proof.
  unfold compact_row. destruct s as [ | | | | | |d]; try discriminate.
  fold row_keys.
  destruct (or_else (get (u "samples") d) (JList [])) as [ | | | |t|l| ];
    try discriminate.
  - destruct t as [|c t]; [discriminate|]. intros [= <-].
    exists d, [(u "sample", JStr [c])]. split; [reflexivity|]. split; [reflexivity|].
    right. exists [c]. split; [reflexivity | cbn; lia].
  - destruct l as [|x l]; intros [= <-].
    + exists d, []. rewrite app_nil_r. split; [reflexivity|]. split; [reflexivity|]. now left.
    + exists d, [(u "sample", JStr (firstn 220 (py_str x)))].
      split; [reflexivity|]. split; [reflexivity|].
      right. eexists. split; [reflexivity|]. apply firstn_le_length.
Qed.

Lemma compact_rows_shape top : forall rows,
  compact_rows top = Ok rows -> Forall2 compact_row_of top rows.
Proof.
  induction top as [|s top IH]; intros rows; cbn [compact_rows].
  - intros [= <-]. constructor.
  - destruct (compact_row s) as [row|e] eqn:Er; [|discriminate]. cbn [bind].
    destruct (compact_rows top) as [rest|e]; [|discriminate]. cbn [bind].
    intros [= <-]. constructor; [now apply compact_row_shape | now apply IH].
Qed.

(** X13. What the model is shown of a tool result: the five fields
    [tool], [summary], [window] (the [comparison] when there is no
    [window]), [services_total] and [services_top5]; [services_total]
    counts every service of the result, while [services_top5] has a row for
    each of the first five only, made of the six fields of the service and
    at most one sample cut to 220 characters. *)
Theorem compact_tool_result_keeps_five tool result compact :
  compact_tool_result tool result = Ok compact ->
  exists r services rows,
    result = JDict r /\
    or_else (get (u "services") r) (JList []) = JList services /\
    compact = JDict [(k_tool, tool);
                     (u "summary", get (u "summary") r);
                     (u "window", or_else (get (u "window") r) (get (u "comparison") r));
                     (u "services_total", JInt (Z.of_nat (List.length services)));
                     (u "services_top5", JList rows)] /\
    (List.length rows <= 5)%nat /\
    Forall2 compact_row_of (firstn 5 services) rows.
Proof.
  unfold compact_tool_result.
  destruct result as [ | | | | | |r]; try discriminate. cbn [attr_get bind].
  destruct (or_else (get (u "services") r) (JList [])) as [ | | | |t|services| ] eqn:Es;
    try discriminate.
  destruct (compact_rows (firstn 5 services)) as [rows|e] eqn:Er; [|discriminate].
  cbn [bind]. intros [= <-].
  apply compact_rows_shape in Er.
  exists r, services, rows.
  split; [reflexivity|]. split; [exact Es|]. split; [reflexivity|].
  split; [|exact Er].
  rewrite <- (Forall2_length Er). apply firstn_le_length.
Qed.

End Compactor.

(** ** The matcher on runs of characters *)

Section Matcher.
Context {RT : PyRuntime}.

Lemma rmatch_star f ic a cur cs k :
  rmatch (S f) ic (RStar a) cur cs k =
  match rmatch f ic a cur cs (fun cur' cs' =>
          if (List.length (after cur') <? List.length (after cur))%nat
          then rmatch f ic (RStar a) cur' cs' k
          else None) with
  | Some m => Some m
  | None => k cur cs
  end.
Proof. reflexivity. Qed.

(** A greedy star over a one-character pattern takes a whole run of
    characters the pattern accepts, when what follows the run is not
    accepted and the rest of the pattern matches from there. *)
Lemma star_takes_run ic r (ok : Z -> bool) rest cs k m :
  (forall f cur cs k, rmatch (S f) ic r cur cs k = one_char cur ok (fun cur' => k cur' cs)) ->
  match rest with x :: _ => ok x = false | [] => True end ->
  forall run pre f,
    Forall (fun c => ok c = true) run ->
    (List.length run <= f)%nat ->
    k {| before := rev run ++ pre; after := rest |} cs = Some m ->
    rmatch (S f) ic (RStar r) {| before := pre; after := run ++ rest |} cs k = Some m.
Proof.
  intros Hr Hstop. induction run as [|c run IH]; intros pre f Hrun Hlen Hk.
  - cbn [app rev] in Hk. rewrite rmatch_star. cbn [app].
    destruct f as [|f]; [exact Hk|]. rewrite Hr. unfold one_char. cbn [after].
    destruct rest as [|x rest']; [exact Hk|]. now rewrite Hstop.
  - destruct f as [|f]; [cbn in Hlen; lia|].
    rewrite rmatch_star, Hr. unfold one_char. cbn [after app].
    inversion_clear Hrun as [|? ? Hc Hrun']. rewrite Hc.
    unfold advance. cbn [after before].
    replace (List.length (run ++ rest) <? List.length (c :: run ++ rest))%nat with true
      by (symmetry; apply Nat.ltb_lt; cbn; lia).
    rewrite (IH (c :: pre) f Hrun'); [reflexivity | cbn in Hlen; lia |].
    cbn [rev] in Hk. now rewrite <- app_assoc in Hk.
Qed.

Lemma digit_is_one_char ic f cur cs k :
  rmatch (S f) ic RDigit cur cs k = one_char cur is_digit (fun cur' => k cur' cs).
Proof. reflexivity. Qed.

Lemma space_is_one_char ic f cur cs k :
  rmatch (S f) ic RSpace cur cs k = one_char cur is_space (fun cur' => k cur' cs).
Proof. reflexivity. Qed.

Lemma set_is_one_char ic rs f cur cs k :
  rmatch (S f) ic (RSet rs) cur cs k =
  one_char cur (fun x => existsb (in_ranges rs) (variants ic x)) (fun cur' => k cur' cs).
Proof. reflexivity. Qed.

(** [re.search] skips the positions at which the pattern does not match. *)
Lemma search_from_skips ic r prefix : forall pre rest,
  (forall p1 p2, prefix = p1 ++ p2 -> p2 <> [] ->
     match_at ic r {| before := rev p1 ++ pre; after := p2 ++ rest |} = None) ->
  search_from ic r pre (prefix ++ rest) = search_from ic r (rev prefix ++ pre) rest.
Proof.
  induction prefix as [|x prefix IH]; intros pre rest H; [reflexivity|].
  pose proof (H [] (x :: prefix) eq_refl ltac:(discriminate)) as H0.
  cbn [rev app] in H0. cbn [app search_from]. rewrite H0.
  rewrite IH.
  - cbn [rev]. now rewrite <- app_assoc.
  - intros p1 p2 -> Hne. specialize (H (x :: p1) p2 eq_refl Hne).
    cbn [rev] in H. now rewrite <- app_assoc in H.
Qed.

End Matcher.

(** ** The hint extractors *)

Section Steps.
Context {RT : PyRuntime}.

Lemma rmatch_seq f ic a b cur cs k :
  rmatch (S f) ic (RSeq a b) cur cs k =
  rmatch f ic a cur cs (fun cur' cs' => rmatch f ic b cur' cs' k).
Proof. reflexivity. Qed.

Lemma rmatch_alt f ic a b cur cs k :
  rmatch (S f) ic (RAlt a b) cur cs k =
  match rmatch f ic a cur cs k with
  | Some m => Some m
  | None => rmatch f ic b cur cs k
  end.
Proof. reflexivity. Qed.

Lemma rmatch_group f ic n a cur cs k :
  rmatch (S f) ic (RGroup n a) cur cs k =
  rmatch f ic a cur cs (fun cur' cs' =>
    k cur' ((n, rev (firstn (List.length (before cur') - List.length (before cur))
                            (before cur'))) :: cs')).
Proof. reflexivity. Qed.

Lemma rmatch_chr f ic c cur cs k :
  rmatch (S f) ic (RChr c) cur cs k =
  one_char cur (fun x => existsb (Z.eqb c) (variants ic x)) (fun cur' => k cur' cs).
Proof. reflexivity. Qed.

Lemma rmatch_boundary f ic cur cs k :
  rmatch (S f) ic RBoundary cur cs k = if at_boundary cur then k cur cs else None.
Proof. reflexivity. Qed.

Lemma one_char_cons p x rest ok k :
  one_char {| before := p; after := x :: rest |} ok k =
  if ok x then k {| before := x :: p; after := rest |} else None.
Proof. reflexivity. Qed.

Lemma one_char_nil p ok k : one_char {| before := p; after := [] |} ok k = None.
Proof. reflexivity. Qed.

(** What a group captures: the text the cursor moved over. *)
Lemma captured (m b : str) :
  rev (firstn (List.length (rev m ++ b) - List.length b) (rev m ++ b)) = m.
Proof.
  rewrite length_app, Nat.add_sub.
  rewrite firstn_app, Nat.sub_diag, firstn_O, app_nil_r, firstn_all.
  apply rev_involutive.
Qed.

Ltac rstep :=
  first [ rewrite rmatch_seq | rewrite rmatch_group | rewrite rmatch_chr
        | rewrite rmatch_alt | rewrite rmatch_boundary
        | rewrite digit_is_one_char | rewrite space_is_one_char | rewrite set_is_one_char
        | rewrite one_char_cons | rewrite one_char_nil ];
  cbv beta.

Lemma digits_group f ds rest pre cs k m :
  ds <> [] -> Forall (fun c => is_digit c = true) ds ->
  match rest with x :: _ => is_digit x = false | [] => True end ->
  (List.length ds <= S f)%nat ->
  k {| before := rev ds ++ pre; after := rest |} ((1%nat, ds) :: cs) = Some m ->
  rmatch (S (S (S (S f)))) false (RGroup 1 (plus RDigit))
         {| before := pre; after := ds ++ rest |} cs k = Some m.
Proof.
  intros Hne Hds Hstop Hlen Hk. destruct ds as [|d ds]; [congruence|].
  inversion_clear Hds as [|? ? Hd Hds'].
  unfold plus. rewrite rmatch_group, rmatch_seq, digit_is_one_char.
  cbn [app]. rewrite one_char_cons, Hd. cbn [before].
  eapply (@star_takes_run _ false RDigit is_digit); try eassumption.
  - intros. apply digit_is_one_char.
  - cbn in Hlen. lia.
  - cbn [before]. cbn [rev] in Hk. rewrite <- app_assoc in Hk. cbn [app] in Hk.
    replace (rev ds ++ d :: pre) with (rev (d :: ds) ++ pre)
      by (cbn [rev]; now rewrite <- app_assoc).
    rewrite captured. cbn [rev]. now rewrite <- app_assoc.
Qed.


Lemma hangul_no_digit c : is_hangul c = true -> is_digit c = false.
Proof.
  intro H. unfold is_digit, decimal_value. rewrite H.
  unfold is_hangul in H. apply andb_prop in H as [H _]. apply Z.leb_le in H.
  destruct (Z.ltb_spec c 128); [lia | reflexivity].
Qed.

Ltac evalpos :=
  repeat match goal with
  | |- context [(?a =? ?b)%positive] =>
    let v := eval vm_compute in (a =? b)%positive in
    progress change (a =? b)%positive with v
  end.

Ltac rsteps :=
  repeat (rstep; cbn [existsb variants Z.eqb orb app before after]; evalpos;
          cbn [orb]; cbv iota).

Lemma units_group f b unit factor rest cs :
  In (unit, factor) window_units ->
  exists unit' cur,
    rmatch (S (S (S (S (S (S (S (S f)))))))) false unit_re
           {| before := b; after := unit ++ rest |} cs
           (fun cur' cs' => Some (cur', cs')) = Some (cur, (2%nat, unit') :: cs) /\
    In (unit', factor) window_units.
Proof.
  intro Hin.
  let v := eval vm_compute in unit_re in change unit_re with v.
  vm_compute in Hin.
  assert (Hcap : forall m : str,
            rev (firstn (List.length (rev m ++ b) - List.length b) (rev m ++ b)) = m)
    by (intro; apply captured).
  destruct Hin as [H|[H|[H|[H|[H|[]]]]]]; injection H as <- <-; cbn [app].
  - rsteps. exists (u "주일"). eexists. split.
    + f_equal. f_equal. f_equal. f_equal. apply (Hcap [51452; 51068]).
    + left. reflexivity.
  - destruct rest as [|x rest].
    + rsteps. exists (u "주"). eexists. split.
      * f_equal. f_equal. f_equal. f_equal. apply (Hcap [51452]).
      * right. left. reflexivity.
    + rsteps. destruct (Z.eqb_spec 51068 x) as [<-|Hx].
      * evalpos. cbn [orb]. cbv iota. exists (u "주일"). eexists. split.
        -- f_equal. f_equal. f_equal. f_equal. apply (Hcap [51452; 51068]).
        -- left. reflexivity.
      * replace ((match x with Z.pos q => (51068 =? q)%positive | _ => false end) || false)
          with false.
        2:{ symmetry. rewrite orb_false_r. destruct x as [|q|q]; try reflexivity.
            apply Pos.eqb_neq. congruence. }
        cbv iota. exists (u "주"). eexists. split.
        -- f_equal. f_equal. f_equal. f_equal. apply (Hcap [51452]).
        -- right. left. reflexivity.
  - rsteps. exists (u "일"). eexists. split.
    + f_equal. f_equal. f_equal. f_equal. apply (Hcap [51068]).
    + right. right. left. reflexivity.
  - rsteps. exists (u "시간"). eexists. split.
    + f_equal. f_equal. f_equal. f_equal. apply (Hcap [49884; 44036]).
    + right. right. right. left. reflexivity.
  - rsteps. exists (u "분"). eexists. split.
    + f_equal. f_equal. f_equal. f_equal. apply (Hcap [48516]).
    + right. right. right. right. left. reflexivity.
Qed.

Lemma window_match_at pre ds unit factor rest :
  ds <> [] -> Forall (fun c => is_digit c = true) ds ->
  In (unit, factor) window_units ->
  exists cs unit',
    match_at false window_re
      {| before := pre; after := u "최근" ++ ds ++ unit ++ rest |} = Some cs /\
    group 1 cs = Some ds /\ group 2 cs = Some unit' /\
    In (unit', factor) window_units.
Proof.
  intros Hne Hds Hin.
  assert (Hstop : match unit ++ rest with x :: _ => is_digit x = false | [] => True end).
  { pose proof Hin as H. vm_compute in H.
    destruct H as [H|[H|[H|[H|[H|[]]]]]]; injection H as <- <-; reflexivity. }
  unfold match_at. cbn [after].
  set (text := u "최근" ++ ds ++ unit ++ rest).
  assert (Hfuel : exists f, (regex_size window_re + List.length text + 1 = 24 + f)%nat
                            /\ (List.length ds <= f)%nat).
  { exists (List.length text + 1)%nat. split; [reflexivity|].
    subst text. rewrite !length_app. lia. }
  destruct Hfuel as (f & -> & Hlen). subst text.
  destruct (@units_group (Nat.iter 14 S f) (rev ds ++ 44540 :: 52572 :: pre)
              unit factor rest [(1%nat, ds)] Hin) as (unit' & cur & Hu & Hin').
  exists [(2%nat, unit'); (1%nat, ds)], unit'.
  split; [|split; [reflexivity | split; [reflexivity | exact Hin']]].
  change window_re with
    (RSeq (lit (u "최근")) (RSeq (RGroup 1 (plus RDigit)) unit_re)).
  let v := eval vm_compute in (lit (u "최근")) in change (lit (u "최근")) with v.
  let v := eval vm_compute in (u "최근") in change (u "최근") with v.
  cbn [Nat.add app].
  do 6 (rstep; cbn [existsb variants Z.eqb orb app before after]; evalpos;
        cbn [orb]; cbv iota).
  rewrite rmatch_seq.
  erewrite (@digits_group _ _ _ _ _ _ (cur, [(2%nat, unit'); (1%nat, ds)]));
    [reflexivity | assumption | assumption | assumption | lia |].
  exact Hu.
Qed.

Lemma window_no_match_at pre x rest :
  x <> 52572 ->
  match_at false window_re {| before := pre; after := x :: rest |} = None.
Proof.
  intro Hx. unfold match_at. cbn [after].
  change (regex_size window_re) with 24%nat. cbn [Nat.add].
  let v := eval vm_compute in window_re in change window_re with v.
  do 4 (rstep; cbn [existsb variants Z.eqb orb app before after]).
  replace (match x with Z.pos q => (52572 =? q)%positive | _ => false end || false)
    with false; [reflexivity|].
  symmetry. rewrite orb_false_r. destruct x as [|q|q]; try reflexivity.
  apply Pos.eqb_neq. congruence.
Qed.

(** X14. A question that, spaces removed, reads: some text without the
    syllable U+CD5C, then the two syllables of the word for "recent", a run
    of decimal digits, and one of the five units (weeks in two spellings,
    days, hours, minutes), gives as window the number the digits stand for
    times the minutes of the unit. *)
Theorem parse_window_minutes_ko_converts_units question prefix ds unit factor rest :
  remove_char 32 question = prefix ++ u "최근" ++ ds ++ unit ++ rest ->
  ~ In 52572 prefix ->
  ds <> [] -> Forall (fun c => is_digit c = true) ds ->
  In (unit, factor) window_units ->
  parse_window_minutes_ko question = Some (int_of_digits ds * factor).
Proof.
  intros Hq Hprefix Hne Hds Hin.
  unfold parse_window_minutes_ko. cbv zeta. rewrite Hq. unfold re_search.
  rewrite search_from_skips.
  2:{ intros p1 p2 -> Hp2. destruct p2 as [|x p2]; [congruence|].
      cbn [app]. apply window_no_match_at. intros ->.
      apply Hprefix. apply in_or_app. right. now left. }
  destruct (window_match_at (rev prefix ++ []) rest Hne Hds Hin)
    as (cs & unit' & Hm & Hg1 & Hg2 & Hin').
  assert (Hs : forall r, search_from false window_re (rev prefix ++ [])
                 (u "최근" ++ ds ++ unit ++ rest) = r ->
               r = Some cs).
  { intros r <-. destruct (u "최근" ++ ds ++ unit ++ rest); cbn [search_from]; now rewrite Hm. }
  rewrite (Hs _ eq_refl), Hg1, Hg2.
  clear -Hin Hin'. vm_compute in Hin, Hin'.
  destruct Hin' as [H|[H|[H|[H|[H|[]]]]]]; injection H as <- <-;
    match goal with
    | |- context [str_eqb ?a ?b] => idtac
    end;
    repeat match goal with
    | |- context [str_eqb ?a (u ?b)] =>
      let v := eval vm_compute in (str_eqb a (u b)) in
      change (str_eqb a (u b)) with v
    end; cbn [orb]; cbv iota; f_equal; lia.
Qed.

Lemma in_range lo hi c : (lo <=? c) && (c <=? hi) = true <-> lo <= c <= hi.
Proof. rewrite andb_true_iff, !Z.leb_le. tauto. Qed.

Lemma out_of_range lo hi c : c < lo \/ hi < c -> (lo <=? c) && (c <=? hi) = false.
Proof.
  intro H. destruct ((lo <=? c) && (c <=? hi)) eqn:E; [|reflexivity].
  apply in_range in E. lia.
Qed.

Lemma name_start_cases c :
  name_start c = true <-> 97 <= c <= 122 \/ 65 <= c <= 90 \/ 48 <= c <= 57.
Proof.
  unfold name_start, is_ascii_lower, is_ascii_upper, is_ascii_digit.
  rewrite !orb_true_iff, !in_range. tauto.
Qed.

Lemma name_char_cases c :
  name_char c = true <-> 97 <= c <= 122 \/ 65 <= c <= 90 \/ 48 <= c <= 57 \/ c = 45.
Proof.
  unfold name_char. rewrite orb_true_iff, name_start_cases, Z.eqb_eq. tauto.
Qed.

Lemma ci_variants_cases c :
  (65 <= c <= 90 /\ ci_variants c = [c; c + 32]) \/
  (97 <= c <= 122 /\ ci_variants c = [c; c - 32]) \/
  (c = 304 \/ c = 305 \/ c = 383 \/ c = 8490) \/
  ((c < 65 \/ 90 < c < 97 \/ 122 < c) /\ ci_variants c = [c]).
Proof.
  unfold ci_variants, is_ascii_upper, is_ascii_lower.
  destruct ((65 <=? c) && (c <=? 90)) eqn:E1.
  { apply in_range in E1. now left. }
  destruct ((97 <=? c) && (c <=? 122)) eqn:E2.
  { apply in_range in E2. right. now left. }
  destruct (Z.eqb_spec c 304); [right; right; left; lia|].
  destruct (Z.eqb_spec c 305); [right; right; left; lia|].
  destruct (Z.eqb_spec c 383); [right; right; left; lia|].
  destruct (Z.eqb_spec c 8490); [right; right; left; lia|].
  right. right. right. cbn [orb]. split; [|reflexivity].
  assert (~ 65 <= c <= 90) by (rewrite <- in_range; congruence).
  assert (~ 97 <= c <= 122) by (rewrite <- in_range; congruence).
  lia.
Qed.

Lemma name_start_matches c :
  name_start c = true ->
  existsb (in_ranges [(97, 122); (48, 57)]) (variants true c) = true.
Proof.
  intro H. apply name_start_cases in H. unfold variants.
  destruct (ci_variants_cases c) as [[Hr ->]|[[Hr ->]|[Hr|[Hr ->]]]];
    unfold in_ranges; cbn [existsb fst snd]; lia.
Qed.

Lemma name_char_matches c :
  name_char c = true ->
  existsb (in_ranges [(97, 122); (48, 57); (45, 45)]) (variants true c) = true.
Proof.
  intro H. apply name_char_cases in H. unfold variants.
  destruct (ci_variants_cases c) as [[Hr ->]|[[Hr ->]|[Hr|[Hr ->]]]];
    unfold in_ranges; cbn [existsb fst snd]; lia.
Qed.

Lemma is_space_cases c :
  is_space c = true -> c < 45 \/ (122 < c /\ c <> 304 /\ c <> 305 /\ c <> 383 /\ c <> 8490).
Proof.
  unfold is_space. rewrite !orb_true_iff, !in_range, !Z.eqb_eq. lia.
Qed.

Lemma space_ends_name c :
  is_space c = true ->
  existsb (in_ranges [(97, 122); (48, 57); (45, 45)]) (variants true c) = false.
Proof.
  intro H. apply is_space_cases in H. unfold variants.
  destruct (ci_variants_cases c) as [[Hr ->]|[[Hr ->]|[Hr|[Hr ->]]]];
    unfold in_ranges; cbn [existsb fst snd]; lia.
Qed.

Lemma name_char_no_space c : name_char c = true -> is_space c = false.
Proof.
  intro H. apply name_char_cases in H.
  destruct (is_space c) eqn:E; [|reflexivity].
  apply is_space_cases in E. lia.
Qed.

Lemma name_start_is_word c : name_start c = true -> is_word c = true.
Proof.
  intro H. pose proof H as H'. apply name_start_cases in H'. unfold is_word.
  destruct (Z.ltb_spec c 128); [|lia].
  unfold name_start in H.
  destruct (is_ascii_lower c), (is_ascii_upper c), (is_ascii_digit c);
    try reflexivity; discriminate.
Qed.

Lemma name_group f name rest pre cs k m :
  is_name name = true -> ends_name rest ->
  (List.length name <= S f)%nat ->
  k {| before := rev name ++ pre; after := rest |} ((1%nat, name) :: cs) = Some m ->
  rmatch (S (S (S (S f)))) true token_re
         {| before := pre; after := name ++ rest |} cs k = Some m.
Proof.
  intros Hname Hstop Hlen Hk. destruct name as [|c name]; [discriminate|].
  cbn [is_name] in Hname. apply andb_prop in Hname as [Hc Hname].
  rewrite forallb_forall in Hname.
  unfold token_re. rewrite rmatch_group, rmatch_seq, set_is_one_char.
  cbn [app]. rewrite one_char_cons, (name_start_matches _ Hc). cbn [before].
  eapply (@star_takes_run _ true (RSet [(97, 122); (48, 57); (45, 45)])
            (fun x => existsb (in_ranges [(97, 122); (48, 57); (45, 45)]) (variants true x))).
  - intros. apply set_is_one_char.
  - exact Hstop.
  - apply Forall_forall. intros x Hx. apply name_char_matches. now apply Hname.
  - cbn in Hlen. lia.
  - cbn [before].
    replace (rev name ++ c :: pre) with (rev (c :: name) ++ pre)
      by (cbn [rev]; now rewrite <- app_assoc).
    rewrite captured. exact Hk.
Qed.

Lemma is_name_stripped name : is_name name = true -> strip name = name.
Proof.
  intro H. destruct name as [|c name]; [discriminate|].
  cbn [is_name] in H. apply andb_prop in H as [Hc Hname].
  rewrite forallb_forall in Hname.
  assert (Hall : forall x, In x (c :: name) -> is_space x = false).
  { intros x [<-|Hx]; apply name_char_no_space.
    - unfold name_char. now rewrite Hc.
    - now apply Hname. }
  apply strip_by_fixed.
  - apply Hall. now left.
  - destruct (rev (c :: name)) as [|y l] eqn:E; [exact I|].
    cbn [clean_head]. apply Hall. apply in_rev. rewrite E. now left.
Qed.

Ltac evalchr :=
  repeat match goal with
  | |- context [existsb (Z.eqb ?c) (variants ?ic ?x)] =>
    let v := eval vm_compute in (existsb (Z.eqb c) (variants ic x)) in
    progress change (existsb (Z.eqb c) (variants ic x)) with v
  end.

Ltac ksteps := repeat (rstep; cbn [app before after]; evalchr; cbv iota).

Lemma cluster_match_at name sp word rest :
  is_name name = true -> Forall (fun c => is_space c = true) sp ->
  In word cluster_words -> (sp <> [] \/ word = u "클러스터") -> word_ends rest ->
  exists cs,
    match_at true cluster_re {| before := []; after := name ++ sp ++ word ++ rest |}
    = Some cs /\ group 1 cs = Some name.
Proof.
  intros Hname Hsp Hword Hsep Hrest.
  unfold match_at. cbn [after].
  set (text := name ++ sp ++ word ++ rest).
  assert (Hfuel : exists f, (regex_size cluster_re + List.length text + 1 = 35 + f)%nat
                            /\ (List.length name <= f)%nat /\ (List.length sp <= f)%nat).
  { exists (List.length text + 1)%nat. split; [reflexivity|].
    subst text. rewrite !length_app. lia. }
  destruct Hfuel as (f & -> & Hlen1 & Hlen2). subst text.
  assert (Hstart : at_boundary {| before := []; after := name ++ sp ++ word ++ rest |} = true).
  { destruct name as [|c name]; [discriminate|]. unfold at_boundary. cbn [before after app].
    cbn [is_name] in Hname. apply andb_prop in Hname as [Hc _].
    now rewrite (name_start_is_word _ Hc). }
  assert (Hend : forall b x, is_word x = true ->
            at_boundary {| before := x :: b; after := rest |} = true).
  { intros b x Hx. unfold at_boundary. cbn [before after]. rewrite Hx.
    destruct rest as [|y rest]; [reflexivity|]. cbn in Hrest. now rewrite Hrest. }
  assert (Hstop1 : ends_name (sp ++ word ++ rest)).
  { destruct sp as [|x sp].
    - destruct Hsep as [H| ->]; [congruence|]. reflexivity.
    - cbn [app ends_name]. apply space_ends_name. now inversion Hsp. }
  assert (Hstop2 : match word ++ rest with x :: _ => is_space x = false | [] => True end).
  { vm_compute in Hword. destruct Hword as [<-|[<-|[]]]; reflexivity. }
  assert (H : exists cur x,
    rmatch (35 + f) true cluster_re {| before := []; after := name ++ sp ++ word ++ rest |} []
      (fun cur' cs => Some (cur', cs)) = Some (cur, [(2%nat, x); (1%nat, name)])).
  { vm_compute in Hword.
    destruct Hword as [<-|[<-|[]]]; do 2 eexists; cbn [Nat.add]; unfold cluster_re;
      rewrite rmatch_seq, rmatch_boundary, Hstart, rmatch_seq;
      (eapply name_group; [exact Hname | exact Hstop1 | lia |]);
      rewrite rmatch_seq;
      (eapply (@star_takes_run _ true RSpace is_space);
         [intros; apply space_is_one_char | exact Hstop2 | exact Hsp | lia |]);
      (let v := eval vm_compute in (lit (u "클러스터")) in
       change (lit (u "클러스터")) with v);
      (let v := eval vm_compute in (lit (u "cluster")) in
       change (lit (u "cluster")) with v);
      cbn [app]; ksteps; rewrite Hend by reflexivity; reflexivity. }
  destruct H as (cur & x & ->). eexists. split; reflexivity.
Qed.

Lemma namespace_match_at name sp word rest :
  is_name name = true -> Forall (fun c => is_space c = true) sp ->
  In word namespace_words -> (sp <> [] \/ word = u "네임스페이스") -> word_ends rest ->
  exists cs,
    match_at true namespace_re {| before := []; after := name ++ sp ++ word ++ rest |}
    = Some cs /\ group 1 cs = Some name.
Proof.
  intros Hname Hsp Hword Hsep Hrest.
  unfold match_at. cbn [after].
  set (text := name ++ sp ++ word ++ rest).
  assert (Hfuel : exists f, (regex_size namespace_re + List.length text + 1 = 43 + f)%nat
                            /\ (List.length name <= f)%nat /\ (List.length sp <= f)%nat).
  { exists (List.length text + 1)%nat. split; [reflexivity|].
    subst text. rewrite !length_app. lia. }
  destruct Hfuel as (f & -> & Hlen1 & Hlen2). subst text.
  assert (Hstart : at_boundary {| before := []; after := name ++ sp ++ word ++ rest |} = true).
  { destruct name as [|c name]; [discriminate|]. unfold at_boundary. cbn [before after app].
    cbn [is_name] in Hname. apply andb_prop in Hname as [Hc _].
    now rewrite (name_start_is_word _ Hc). }
  assert (Hend : forall b x, is_word x = true ->
            at_boundary {| before := x :: b; after := rest |} = true).
  { intros b x Hx. unfold at_boundary. cbn [before after]. rewrite Hx.
    destruct rest as [|y rest]; [reflexivity|]. cbn in Hrest. now rewrite Hrest. }
  assert (Hstop1 : ends_name (sp ++ word ++ rest)).
  { destruct sp as [|x sp].
    - destruct Hsep as [H| ->]; [congruence|]. reflexivity.
    - cbn [app ends_name]. apply space_ends_name. now inversion Hsp. }
  assert (Hstop2 : match word ++ rest with x :: _ => is_space x = false | [] => True end).
  { vm_compute in Hword. destruct Hword as [<-|[<-|[]]]; reflexivity. }
  assert (H : exists cur x,
    rmatch (43 + f) true namespace_re {| before := []; after := name ++ sp ++ word ++ rest |} []
      (fun cur' cs => Some (cur', cs)) = Some (cur, [(2%nat, x); (1%nat, name)])).
  { vm_compute in Hword.
    destruct Hword as [<-|[<-|[]]]; do 2 eexists; cbn [Nat.add]; unfold namespace_re;
      rewrite rmatch_seq, rmatch_boundary, Hstart, rmatch_seq;
      (eapply name_group; [exact Hname | exact Hstop1 | lia |]);
      rewrite rmatch_seq;
      (eapply (@star_takes_run _ true RSpace is_space);
         [intros; apply space_is_one_char | exact Hstop2 | exact Hsp | lia |]);
      (let v := eval vm_compute in (lit (u "네임스페이스")) in
       change (lit (u "네임스페이스")) with v);
      (let v := eval vm_compute in (lit (u "namespace")) in
       change (lit (u "namespace")) with v);
      cbn [app]; ksteps; rewrite Hend by reflexivity; reflexivity. }
  destruct H as (cur & x & ->). eexists. split; reflexivity.
Qed.


Lemma search_from_here ic r text cs :
  match_at ic r {| before := []; after := text |} = Some cs ->
  re_search ic r text = Some cs.
Proof. intro H. unfold re_search. destruct text; cbn [search_from]; now rewrite H. Qed.

(** X15. A question that begins with a name (ASCII letters and digits,
    hyphens after the first character), then white space, then the word
    for cluster in Korean or in English, and that goes on with no word
    character, gives that name as the cluster hint; the white space may be
    missing before the Korean word. *)
Theorem extract_cluster_from_question_finds_the_name question name sp word rest :
  question = name ++ sp ++ word ++ rest ->
  is_name name = true -> Forall (fun c => is_space c = true) sp ->
  In word cluster_words -> (sp <> [] \/ word = u "클러스터") -> word_ends rest ->
  extract_cluster_from_question question = Some name.
Proof.
  intros -> Hname Hsp Hword Hsep Hrest.
  destruct (cluster_match_at name rest Hname Hsp Hword Hsep Hrest) as (cs & Hm & Hg).
  unfold extract_cluster_from_question. rewrite (search_from_here _ _ _ Hm).
  unfold group1_stripped. rewrite Hg. cbn [option_map].
  now rewrite is_name_stripped.
Qed.

(** X16. The same for the namespace hint, with the word for namespace in
    Korean or in English. *)
Theorem extract_namespace_from_question_finds_the_name question name sp word rest :
  question = name ++ sp ++ word ++ rest ->
  is_name name = true -> Forall (fun c => is_space c = true) sp ->
  In word namespace_words -> (sp <> [] \/ word = u "네임스페이스") -> word_ends rest ->
  extract_namespace_from_question question = Some name.
Proof.
  intros -> Hname Hsp Hword Hsep Hrest.
  destruct (namespace_match_at name rest Hname Hsp Hword Hsep Hrest) as (cs & Hm & Hg).
  unfold extract_namespace_from_question. rewrite (search_from_here _ _ _ Hm).
  unfold group1_stripped. rewrite Hg. cbn [option_map].
  now rewrite is_name_stripped.
Qed.

End Steps.

(** ** The status hint and the window hint *)

Lemma starts_with_app p s : starts_with p (p ++ s) = true.
Proof. induction p as [|c p IH]; [reflexivity|]. cbn. now rewrite Z.eqb_refl. Qed.

Lemma str_in_app p a b : str_in p (a ++ p ++ b) = true.
Proof.
  induction a as [|c a IH].
  - cbn [app]. destruct (p ++ b) eqn:E; cbn [str_in]; rewrite <- E, starts_with_app; reflexivity.
  - cbn [app str_in]. rewrite IH. apply orb_true_r.
Qed.

Section StatusHint.
Context {RT : PyRuntime}.

Lemma lower_app a b : lower (a ++ b) = lower a ++ lower b.
Proof. unfold lower. apply flat_map_app. Qed.

(** X17. The status hint is always one of the four statuses, never empty;
    and a question that mentions a warning, by the Korean word or by the
    letters of "warn" in any case and at any place, gives [warn] whatever
    else it mentions. *)
Theorem choose_status_from_question_prefers_warn question :
  In (choose_status_from_question question) [u "warn"; u "info"; u "debug"; u "error"] /\
  forall pre word post,
    question = pre ++ word ++ post ->
    lower word = u "warn" \/ word = u "경고" ->
    choose_status_from_question question = u "warn".
Proof.
  split.
  - unfold choose_status_from_question. cbv zeta.
    repeat match goal with |- context [if ?b then _ else _] => destruct b end;
      cbn [In]; tauto.
  - intros pre word post -> [Hw| ->]; unfold choose_status_from_question; cbv zeta.
    + rewrite !lower_app, Hw, str_in_app. reflexivity.
    + rewrite (str_in_app (u "경고") pre post), !orb_true_r. reflexivity.
Qed.

(** X19. A window the question names wins over the one the model proposed:
    when the window hint is a number other than zero, every call that comes
    out of the hint injection and passes validation carries that number,
    clamped to the configured bounds, as its [window_minutes]. *)
Theorem hinted_window_overrides_the_proposed_one cfg h obj obj1 call args n :
  or_else (get k_args obj) (JDict []) = JDict args ->
  hinted_window h = Some n -> n <> 0 ->
  backfill h obj = Ok obj1 ->
  validate_and_normalize_call cfg obj1 = (call, Ok tt) ->
  exists args',
    get k_args call = JDict args' /\
    get k_window_minutes args' =
    JInt (clamp_int n (WINDOW_MIN cfg) (WINDOW_MAX cfg)).
Proof.
  intros Hargs Hw Hn Hb Hv.
  destruct (backfill_window_hint h obj Hargs Hb Hw Hn) as (args1 & Ha1 & Hw1).
  apply validate_inv in Hv as (a & a' & _ & _ & Ha & Hnorm & ->).
  rewrite Ha1 in Ha. injection Ha as <-.
  apply normalize_args_inv in Hnorm
    as (c & st & nsv & window & limit & _ & _ & _ & _ & Hwin & _ & H).
  cbv zeta in H.
  assert (window = n) as ->.
  { unfold get in Hw1. unfold get_default in Hwin.
    destruct (dict_get k_window_minutes args1); [|discriminate].
    subst. cbn [py_int] in Hwin. now injection Hwin. }
  exists a'. split; [apply get_set_same|].
  destruct (eq_str (get k_tool obj1) s_increasing_error_services).
  - destruct H as (md & mr & _ & _ & ->).
    rewrite !get_set_other by reflexivity. unfold common_args.
    rewrite get_set_other by reflexivity. apply get_set_same.
  - subst a'. unfold common_args.
    rewrite get_set_other by reflexivity. apply get_set_same.
Qed.

End StatusHint.

(** ** The endpoint *)

Section Server.
Context {RT : PyRuntime}.
Variable AGENT_API_KEY : str.
Variable exception_text : exn -> str.
Variable format_exc : exn -> str.

Lemma key_refused_iff x_api_key :
  key_refused AGENT_API_KEY x_api_key = false <-> key_accepted AGENT_API_KEY x_api_key.
Proof.
  unfold key_refused, key_accepted. destruct AGENT_API_KEY as [|c key].
  - split; [now left | reflexivity].
  - destruct x_api_key as [[|x k]|].
    + split; [discriminate | intros [H|H]; discriminate].
    + rewrite negb_false_iff, str_eqb_eq. split.
      * intros ->. now right.
      * intros [H|H]; [discriminate | congruence].
    + split; [discriminate | intros [H|H]; discriminate].
Qed.

(** X18. What the endpoint answers. With a key configured, a request whose
    header is missing, empty or different is answered 401 before the agent
    is run. Otherwise the answer is a body whose [result] is a mapping with
    action [final], with the trace beside it exactly when the request asked
    for it, or it is a 502 that reports the exception that left
    [run_agent]; no exception leaves [ask] otherwise. *)
Theorem ask_answers cfg w req x_api_key n :
  match ask AGENT_API_KEY exception_text format_exc cfg w req x_api_key n with
  | Some (HTTPException code detail) =>
    (code = 401 /\ detail = JStr (u "Invalid API key") /\
     ~ key_accepted AGENT_API_KEY x_api_key) \/
    (code = 502 /\ key_accepted AGENT_API_KEY x_api_key /\
     exists e st, run_agent cfg w (question req) n = Raised e st /\
                  get (u "error") match detail with JDict d => d | _ => [] end
                  = JStr (exception_text e))
  | Some (Body body) =>
    key_accepted AGENT_API_KEY x_api_key /\
    exists d st,
      run_agent cfg w (question req) n = Return (JDict d) st /\
      get k_action d = JStr s_final /\
      body = if include_trace req
             then [(u "result", JDict d); (u "trace", JList (trace st))]
             else [(u "result", JDict d)]
  | None =>
    key_accepted AGENT_API_KEY x_api_key /\
    exists st, run_agent cfg w (question req) n = Continue st
  end.
Proof.
  unfold ask. destruct (key_refused AGENT_API_KEY x_api_key) eqn:Ek.
  - left. split; [reflexivity|]. split; [reflexivity|].
    intro H. apply key_refused_iff in H. congruence.
  - apply key_refused_iff in Ek.
    destruct (run_agent cfg w (question req) n) as [st|f st|e st] eqn:Er.
    + split; [exact Ek | now exists st].
    + split; [exact Ek|].
      destruct (run_agent_returns_final _ _ _ _ Er) as (d & -> & Hd).
      now exists d, st.
    + right. split; [reflexivity|]. split; [exact Ek|]. now exists e, st.
Qed.

End Server.

(** ** The envelope is a mapping *)

Lemma parse_members_is_dict pv n : forall s acc v r,
  parse_members pv n s acc = Some (v, r) -> exists d, v = JDict d.
Proof.
  induction n as [|n IH]; intros s acc v r; cbn [parse_members]; [discriminate|].
  destruct s as [|c s]; [discriminate|].
  destruct c as [|p|p]; try discriminate.
  repeat (destruct p as [p|p|]; try discriminate).
  destruct (scan_string s []) as [[k r1]|]; [|discriminate].
  destruct (skip_ws r1) as [|c2 r2]; [discriminate|].
  destruct c2 as [|p|p]; try discriminate.
  repeat (destruct p as [p|p|]; try discriminate).
  destruct (pv (skip_ws r2)) as [[v0 r3]|]; [|discriminate].
  destruct (skip_ws r3) as [|c4 r4]; [discriminate|].
  destruct c4 as [|p|p]; try discriminate.
  repeat (destruct p as [p|p|]; try discriminate).
  - intros [= <- _]. eexists. reflexivity.
  - apply IH.
Qed.

Lemma json_loads_brace r v : json_loads (123 :: r) = Some v -> exists d, v = JDict d.
Proof.
  unfold json_loads. cbn [skip_ws is_json_ws Z.eqb Pos.eqb orb].
  change (skip_ws (123 :: r)) with (123 :: r).
  cbn [parse_value Z.eqb].
  change (123 =? 34) with false. change (123 =? 123) with true. cbv iota.
  match goal with
  | |- match ?x with Some _ => _ | None => _ end = _ -> _ =>
    destruct x as [[v0 r0]|] eqn:Ep; [|discriminate]
  end.
  intro H.
  assert (exists d, v0 = JDict d) as [d ->].
  { revert Ep. destruct (skip_ws r) as [|c r'].
    - cbn [List.length parse_members]. discriminate.
    - destruct c as [|p|p]; try (now apply parse_members_is_dict).
      repeat (destruct p as [p|p|]; try (now apply parse_members_is_dict)).
      intros [= <- _]. eexists. reflexivity. }
  destruct (skip_ws r0); [|discriminate]. injection H as <-. now exists d.
Qed.

(** X20. Whatever [extract_first_json_object] returns is a mapping (never
    a list, a string or a number), so the [obj.get] of the loop cannot
    fail on it. *)
Theorem extract_first_json_object_gives_a_mapping text v :
  extract_first_json_object text = Some v -> exists d, v = JDict d.
Proof.
  intro H. apply extract_some in H as (prefix & bj & suffix & _ & _ & Hb & Hv).
  destruct Hb as [[r ->] _]. now apply json_loads_brace in Hv.
Qed.

(** ** Counting the tool calls *)

Ltac accounts :=
  unfold settled, interrupted in *;
  cbn [state_of trace tool_calls lang_retry invocations messages
       append_trace append_messages set_lang_retry set_tool_calls log_requests
       reject_tool_call invalid_tool_call] in *;
  count_entries.

Section Accounts.
Context {RT : PyRuntime}.
Variable cfg : settings.
Variable w : world.
Variable h : hints.

Lemma run_tool_answered tool args rq result :
  run_tool w tool args = (rq, Ok result) -> List.length rq = 1%nat.
Proof.
  unfold run_tool, current_error_services, increasing_error_services, post.
  repeat match goal with
         | |- context [if ?b then _ else _] => destruct b
         | |- context [match ?x with Ok _ => _ | Raise _ => _ end] => destruct x
         end; intros [= <- E]; try discriminate; reflexivity.
Qed.

Lemma await_model_settled st : settled st -> settled (snd (await_model w st)).
Proof.
  intros (H1 & H2 & H3).
  destruct (@raw_language_retry_frame _ w 2 (llm_chat w (messages st)) st _ eq_refl)
    as (F1 & F2 & F3 & F4).
  fold (await_model w st) in F1, F2, F3, F4.
  unfold settled. rewrite F1, F3, !F4 by reflexivity. auto.
Qed.

Lemma loop_body_settled st :
  settled st ->
  match loop_body cfg w h st with
  | Continue st' | Return _ st' => settled st'
  | Raised _ st' => settled st' \/ interrupted st'
  end.
Proof.
  intro Hs. apply await_model_settled in Hs. unfold loop_body.
  destruct (await_model w st) as [text st1]. cbn [snd] in Hs.
  destruct Hs as (H1 & H2 & H3).
  destruct (envelope (extract_first_json_object text)) as [obj|].
  2:{ accounts. repeat split; lia. }
  unfold dispatch. destruct obj as [ | | | | | |d]; try (left; repeat split; assumption).
  destruct (eq_str (get k_action d) s_final).
  { unfold on_final. cbv zeta. destruct (contains_cjk (json_dumps (JDict d))).
    - destruct (MAX_LANG_RETRY cfg <=? lang_retry st1 + 1); accounts; repeat split; lia.
    - accounts. repeat split; lia. }
  destruct (eq_str (get k_action d) s_tool_call).
  2:{ accounts. repeat split; lia. }
  unfold on_tool_call.
  destruct (MAX_TOOL_CALLS cfg <=? tool_calls st1).
  { accounts. repeat split; lia. }
  destruct (backfill h d) as [obj1|e]; [|left; repeat split; assumption].
  destruct (validate_and_normalize_call cfg obj1) as [obj2 [[]|e]].
  - unfold execute_tool.
    destruct (dict_get k_tool obj2) as [tool|]; [|left; repeat split; assumption].
    destruct (dict_get k_args obj2) as [args|]; [|left; repeat split; assumption].
    pose proof (run_tool_requests w tool args) as Hle.
    destruct (run_tool w tool args) as [rq [r|e]] eqn:Er; cbn [fst] in Hle.
    + apply run_tool_answered in Er.
      destruct (compact_tool_result tool r).
      * accounts. rewrite length_app, Er. repeat split; lia.
      * right. accounts. rewrite length_app, Er. repeat split; lia.
    + right. accounts. rewrite length_app. repeat split; lia.
  - destruct e; try (left; repeat split; assumption).
    accounts. repeat split; lia.
Qed.

Lemma iterate_settled n : forall st,
  settled st ->
  match iterate cfg w h n st with
  | Continue st' | Return _ st' => settled st'
  | Raised _ st' => settled st' \/ interrupted st'
  end.
Proof.
  induction n as [|n IH]; intros st Hs; cbn [iterate]; [exact Hs|].
  pose proof (loop_body_settled Hs) as Hb.
  destruct (loop_body cfg w h st) as [st'|f st'|e st']; [now apply IH | exact Hb | exact Hb].
Qed.

End Accounts.

Section AccountsOfRun.
Context {RT : PyRuntime}.

(** X21. The counter, the trace and the requests of a run agree. While
    the run has not raised, the number of calls counted is the number of
    [tool_call] entries, the number of [tool_result] entries and the
    number of requests made. When it raised, that still holds, or it holds
    but for one last call that was counted and left no entry, its request
    made or not. *)
Theorem tool_calls_are_accounted_for cfg w question n :
  match run_agent cfg w question n with
  | Continue st | Return _ st => settled st
  | Raised _ st => settled st \/ interrupted st
  end.
Proof.
  unfold run_agent. apply iterate_settled. repeat split.
Qed.

End AccountsOfRun.

(** * The tool service *)

(** ** The host of the API *)

Lemma lstrip_by_app p a b :
  lstrip_by p (a ++ b) = if forallb p a then lstrip_by p b else lstrip_by p a ++ b.
Proof.
  induction a as [|c a IH]; [reflexivity|].
  cbn [app lstrip_by forallb]. destruct (p c); [exact IH | reflexivity].
Qed.

Lemma rstrip_char_no_slash s : ~ ends_with_slash (Datadog.rstrip_char 47 s).
Proof.
  unfold ends_with_slash, Datadog.rstrip_char. rewrite rev_involutive.
  pose proof (lstrip_by_clean (Z.eqb 47) (rev s)) as H.
  destruct (lstrip_by (Z.eqb 47) (rev s)) as [|c r]; [tauto|].
  cbn in H. intros ->. discriminate.
Qed.

(** Trailing slashes are taken from the text after a prefix that does not
    end with one. *)
Lemma rstrip_char_after pre c s :
  c <> 47 -> Datadog.rstrip_char 47 ((pre ++ [c]) ++ s) = (pre ++ [c]) ++ Datadog.rstrip_char 47 s.
Proof.
  intro Hc. unfold Datadog.rstrip_char.
  assert (Hrev : rev ((pre ++ [c]) ++ s) = rev s ++ c :: rev pre).
  { rewrite !rev_app_distr. reflexivity. }
  assert (Hback : rev (c :: rev pre) = pre ++ [c]).
  { cbn [rev]. now rewrite rev_involutive. }
  rewrite Hrev, lstrip_by_app.
  destruct (forallb (Z.eqb 47) (rev s)) eqn:E.
  - cbn [lstrip_by]. replace (47 =? c) with false by (symmetry; apply Z.eqb_neq; congruence).
    assert (lstrip_by (Z.eqb 47) (rev s) = []) as ->.
    { clear -E. induction (rev s) as [|x l IH]; [reflexivity|].
      cbn in *. apply andb_prop in E as [-> E]. now apply IH. }
    rewrite Hback. cbn [rev]. now rewrite app_nil_r.
  - rewrite rev_app_distr, Hback. reflexivity.
Qed.

Lemma starts_with_prefix p s : starts_with p s = true -> exists r, s = p ++ r.
Proof.
  revert s. induction p as [|c p IH]; intros s; [now exists s|].
  destruct s as [|x s]; [discriminate|]. cbn [starts_with].
  intro H. apply andb_prop in H as [Hx Hp]. apply Z.eqb_eq in Hx. subst x.
  destruct (IH _ Hp) as [r ->]. now exists r.
Qed.

Lemma starts_with_app_l p r : starts_with p (p ++ r) = true.
Proof. induction p as [|c p IH]; [reflexivity|]. cbn. now rewrite Z.eqb_refl. Qed.

Lemma rstrip_char_after_starts pre c r :
  c <> 47 -> starts_with (pre ++ [c]) (Datadog.rstrip_char 47 ((pre ++ [c]) ++ r)) = true.
Proof. intro Hc. rewrite rstrip_char_after by exact Hc. apply starts_with_app_l. Qed.

(** X22. The host [Datadog._normalize_host] gives is never empty, begins with
    [http] and never ends with a slash; white space around the site is
    ignored and a missing or blank site gives the default host; a site
    without a scheme gives a host that begins with [https://api.]. *)
Theorem _normalize_host_is_an_api_url site :
  Datadog._normalize_host site <> [] /\
  starts_with (u "http") (Datadog._normalize_host site) = true /\
  ~ ends_with_slash (Datadog._normalize_host site) /\
  Datadog._normalize_host (option_map strip site) = Datadog._normalize_host site /\
  (strip (match site with Some s => s | None => [] end) = [] ->
   Datadog._normalize_host site = u "https://api.datadoghq.com") /\
  (starts_with (u "http://") (strip (match site with Some s => s | None => [] end)) = false ->
   starts_with (u "https://") (strip (match site with Some s => s | None => [] end)) = false ->
   starts_with (u "https://api.") (Datadog._normalize_host site) = true).
Proof.
  assert (Hidem : Datadog._normalize_host (option_map strip site) = Datadog._normalize_host site).
  { unfold Datadog._normalize_host. destruct site as [s|]; cbn [option_map]; [|reflexivity].
    cbv zeta. now rewrite strip_idem. }
  split; [|split; [|split; [|split; [exact Hidem|]]]]; clear Hidem;
    unfold Datadog._normalize_host; cbv zeta;
    generalize (strip (match site with Some s => s | None => [] end)); intros s.
  - destruct s as [|c0 s0]; [discriminate|].
    set (s := c0 :: s0).
    assert (Hne : forall x : str, starts_with (u "http") x = true -> x <> [])
      by (intros x H ->; discriminate).
    apply Hne.
    destruct (starts_with (u "http://") s || starts_with (u "https://") s) eqn:E.
    + apply orb_prop in E as [E|E]; apply starts_with_prefix in E as [r ->].
      * apply (@rstrip_char_after_starts (u "htt") 112 (u "://" ++ r)). discriminate.
      * apply (@rstrip_char_after_starts (u "htt") 112 (u "s://" ++ r)). discriminate.
    + destruct (starts_with (u "api.") s).
      * apply (@rstrip_char_after_starts (u "htt") 112 (u "s://" ++ s)). discriminate.
      * apply (@rstrip_char_after_starts (u "htt") 112 (u "s://api." ++ s)). discriminate.
  - destruct s as [|c0 s0]; [reflexivity|].
    set (s := c0 :: s0).
    destruct (starts_with (u "http://") s || starts_with (u "https://") s) eqn:E.
    + apply orb_prop in E as [E|E]; apply starts_with_prefix in E as [r ->].
      * apply (@rstrip_char_after_starts (u "htt") 112 (u "://" ++ r)). discriminate.
      * apply (@rstrip_char_after_starts (u "htt") 112 (u "s://" ++ r)). discriminate.
    + destruct (starts_with (u "api.") s).
      * apply (@rstrip_char_after_starts (u "htt") 112 (u "s://" ++ s)). discriminate.
      * apply (@rstrip_char_after_starts (u "htt") 112 (u "s://api." ++ s)). discriminate.
  - destruct s as [|c0 s0]; [intro H; vm_compute in H; discriminate|].
    set (s := c0 :: s0).
    destruct (starts_with (u "http://") s || starts_with (u "https://") s);
      [|destruct (starts_with (u "api.") s)]; apply rstrip_char_no_slash.
  - split.
    + intros ->. reflexivity.
    + intros H1 H2. destruct s as [|c0 s0]; [reflexivity|].
      set (s := c0 :: s0) in *. rewrite H1, H2. cbn [orb].
      destruct (starts_with (u "api.") s) eqn:E.
      * apply starts_with_prefix in E as [r ->].
        apply (@rstrip_char_after_starts (u "https://api") 46 r). discriminate.
      * apply (@rstrip_char_after_starts (u "https://api") 46 s). discriminate.
Qed.

(** ** The ranking of the services whose errors increase *)












Section Ranking.
Context {RT : PyRuntime}.
Variable iso : Z -> str.
Variable api : Datadog.LogsApi.

Lemma sample_logs_for_service_snippets base service time_from time_to limit samples :
  Datadog.sample_logs_for_service iso api base service time_from time_to limit = Ok samples ->
  Forall snippet samples.
Proof.
  unfold Datadog.sample_logs_for_service. cbv zeta.
  destruct (Datadog.list_logs api _) as [data|]; [|discriminate].
  cbn [bind]. intro H.
  match type of H with Ok ?l = Ok _ => assert (E : samples = l) by congruence end.
  subst samples. clear H.
  apply Forall_forall. intros x Hx. apply in_map_iff in Hx as (it & <- & _).
  eexists. split; [reflexivity|]. rewrite length_firstn. lia.
Qed.

(** ** The rows of a window *)

Lemma collect_buckets_named facet bs rows :
  Datadog.collect_buckets facet bs = Ok rows ->
  Forall (fun r => exists key n,
            r = JDict [(u "key", key); (u "count", JInt n)] /\ truthy key = true) rows.
Proof.
  revert rows. induction bs as [|b bs IH]; intros rows H; cbn [Datadog.collect_buckets] in H.
  - injection H as <-. constructor.
  - destruct (Datadog.attribute (Datadog.by_ b)) as [by_b|]; [|discriminate].
    cbn [bind] in H.
    destruct (attr_get facet _) as [key|]; [|discriminate].
    cbn [bind] in H.
    destruct (Datadog.attribute (Datadog.computes b)) as [computes_b|]; [|discriminate].
    cbn [bind] in H.
    destruct (Datadog.attr_get_default _ _ _) as [cnt|]; [|discriminate].
    cbn [bind] in H.
    destruct (truthy key) eqn:Ek; [|now apply IH].
    destruct (py_int cnt) as [n|]; [|discriminate].
    cbn [bind] in H.
    destruct (Datadog.collect_buckets facet bs) as [rest|]; [|discriminate].
    cbn [bind] in H. injection H as <-.
    constructor; [|now apply IH]. exists key, n. split; [reflexivity|exact Ek].
Qed.

Lemma service_rows_named rows rows' :
  Forall (fun r => exists key n,
            r = JDict [(u "key", key); (u "count", JInt n)] /\ truthy key = true) rows ->
  Datadog.service_rows rows = Ok rows' ->
  Forall tallied rows'.
Proof.
  intro Hr. revert rows'. induction Hr as [|r rows Hrow Hrows IH]; intros rows' H;
    cbn [Datadog.service_rows] in H.
  - injection H as <-. constructor.
  - destruct Hrow as (key & n & -> & Hk).
    replace (Datadog.item (u "key") (JDict [(u "key", key); (u "count", JInt n)]))
      with (Ok key) in H by reflexivity.
    replace (Datadog.item (u "count") (JDict [(u "key", key); (u "count", JInt n)]))
      with (Ok (JInt n)) in H by reflexivity.
    cbn [bind] in H.
    destruct (Datadog.service_rows rows) as [rest|]; [|discriminate].
    cbn [bind] in H. injection H as <-.
    constructor; [|now apply IH]. exists key, n. split; [reflexivity|exact Hk].
Qed.

Lemma aggregate_top_services_named query time_from time_to limit rows :
  Datadog.aggregate_top_services iso api query time_from time_to limit = Ok rows ->
  Forall tallied rows.
Proof.
  unfold Datadog.aggregate_top_services, Datadog.aggregate_top. intro H.
  destruct (Datadog.aggregate_logs api _) as [data|]; [|discriminate].
  cbn [bind] in H.
  destruct (Datadog.collect_buckets _ _) as [top|] eqn:Ec; [|discriminate].
  cbn [bind] in H. apply collect_buckets_named in Ec.
  now apply (service_rows_named Ec).
Qed.

(** ** The counts of the previous window *)










(** ** The rows that pass the thresholds *)





(** ** The services with errors *)

Lemma add_samples_reported base time_from time_to rows rows' :
  Forall tallied rows ->
  Datadog.add_samples iso api base time_from time_to rows = Ok rows' ->
  Forall reported rows' /\ List.length rows' = List.length rows.
Proof.
  intro Hr. revert rows'. induction Hr as [|row rows Hrow Hrows IH]; intros rows' H;
    cbn [Datadog.add_samples] in H.
  - injection H as <-. split; [constructor|reflexivity].
  - destruct Hrow as (service & n & -> & Hs).
    match type of H with
    | context [Datadog.item ?k ?r] =>
      replace (Datadog.item k r) with (Ok service) in H by reflexivity
    end.
    cbn [bind] in H.
    destruct (Datadog.sample_logs_for_service _ _ _ _ _ _ _) as [samples|] eqn:Es;
      [|discriminate].
    apply sample_logs_for_service_snippets in Es.
    cbn [bind] in H.
    match type of H with
    | context [set_item ?k ?v ?r] =>
      replace (set_item k v r)
        with (Ok (JDict [(u "service", service); (u "count", JInt n); (k, v)])) in H
        by reflexivity
    end.
    cbn [bind] in H.
    destruct (Datadog.add_samples iso api base time_from time_to rows) as [rest|];
      [|discriminate].
    cbn [bind] in H. injection H as <-. destruct (IH rest eq_refl) as [IH1 IH2].
    split; [|cbn [List.length]; now rewrite IH2].
    constructor; [|exact IH1]. exists service, n, samples. repeat split; assumption.
Qed.

(** X24. Every row [current_error_services] reports names a service (a
    bucket without a name is left out), gives its count as an integer and
    carries samples of at most 300 characters each. *)
Theorem current_error_services_reports
    cluster status namespace window_minutes limit result :
  Datadog.current_error_services iso api cluster status namespace window_minutes limit
    = Ok result ->
  exists d rows,
    result = JDict d /\ get (u "services") d = JList rows /\ Forall reported rows.
Proof.
  unfold Datadog.current_error_services. cbv zeta. intro H.
  destruct (Datadog.minus_minutes (Datadog.utc_now api) window_minutes) as [t_from|];
    [|discriminate].
  cbn [bind] in H.
  destruct (Datadog.aggregate_top_services iso api _ t_from _ limit) as [top|] eqn:Et;
    [|discriminate].
  cbn [bind] in H. apply aggregate_top_services_named in Et.
  destruct (Datadog.add_samples iso api _ t_from _ top) as [rows|] eqn:Ea; [|discriminate].
  cbn [bind] in H. injection H as <-.
  destruct (add_samples_reported _ _ _ Et Ea) as [Hr _].
  eexists. exists rows. split; [reflexivity|]. split; [reflexivity|exact Hr].
Qed.

End Ranking.

(** ** The properties at concrete inputs *)

Lemma validated_call_is_normalized_witness :
  exists args' c st w l,
    dict_get k_args (fst (@validate_and_normalize_call example_runtime
                            (default_settings []) padded_call)) = Some (JDict args') /\
    dict_get k_cluster args' = Some (JStr c) /\ c <> [] /\ strip c = c /\
    dict_get k_status args' = Some (JStr st) /\ st <> [] /\ strip st = st /\
    (dict_get k_namespace args' = Some JNull \/
     exists ns, dict_get k_namespace args' = Some (JStr ns) /\ ns <> [] /\ strip ns = ns) /\
    dict_get k_window_minutes args' = Some (JInt w) /\ 5 <= w <= 20160 /\
    dict_get k_limit args' = Some (JInt l) /\ 1 <= l <= 20.
Proof.
  apply (@validated_call_is_normalized example_runtime (default_settings []) padded_call).
  - cbn. lia.
  - cbn. lia.
  - vm_compute. reflexivity.
Defined.

Lemma validate_and_normalize_call_idempotent_witness :
  @validate_and_normalize_call example_runtime (default_settings [])
    (fst (@validate_and_normalize_call example_runtime (default_settings []) padded_call))
  = (fst (@validate_and_normalize_call example_runtime (default_settings []) padded_call),
     Ok tt).
Proof.
  apply (@validate_and_normalize_call_idempotent example_runtime (default_settings [])
           padded_call).
  vm_compute. reflexivity.
Defined.

Lemma validation_keeps_unknown_arguments_witness :
  exists args args' added,
    get k_args padded_call = JDict args /\
    get k_args (fst (@validate_and_normalize_call example_runtime
                       (default_settings []) padded_call)) = JDict args' /\
    map fst (fst (@validate_and_normalize_call example_runtime
                    (default_settings []) padded_call)) = map fst padded_call /\
    (forall k, k <> k_args ->
       dict_get k (fst (@validate_and_normalize_call example_runtime
                          (default_settings []) padded_call)) = dict_get k padded_call) /\
    map fst args' = map fst args ++ added /\ incl added known_arguments /\
    (forall k, ~ In k known_arguments -> dict_get k args' = dict_get k args).
Proof.
  apply (@validation_keeps_unknown_arguments example_runtime (default_settings [])
           padded_call).
  vm_compute. reflexivity.
Defined.

Lemma dump_has_han_iff_a_string_has_witness :
  @contains_cjk example_runtime (@json_dumps example_runtime han_key_envelope) =
  existsb (@contains_cjk example_runtime) (strings_of han_key_envelope).
Proof.
  apply (@dump_has_han_iff_a_string_has example_runtime han_key_envelope).
  intro f. reflexivity.
Defined.

Lemma run_agent_returns_what_it_recorded_witness :
  (exists d, final_envelope = JDict d /\ get k_action d = JStr s_final) /\
  @recorded example_runtime final_envelope
    (trace (state_of (@run_agent example_runtime (default_settings [])
                        (constant_model final_reply) (u "hello") 1))).
Proof.
  apply (@run_agent_returns_what_it_recorded example_runtime (default_settings [])
           (constant_model final_reply) (u "hello") 1).
  vm_compute. reflexivity.
Defined.

Lemma compliant_final_is_returned_as_is_witness :
  @run_agent example_runtime (default_settings []) (constant_model final_reply)
    (u "hello") 1 =
  Return final_envelope
    (append_trace [entry "final" [(k_content, final_envelope)]]
       (initial_state (default_settings []) (u "hello"))).
Proof.
  apply (@compliant_final_is_returned_as_is example_runtime (default_settings [])
           (constant_model final_reply) (u "hello") 0 0
           (initial_state (default_settings []) (u "hello"))).
  - reflexivity.
  - vm_compute. reflexivity.
  - vm_compute. reflexivity.
  - discriminate.
  - reflexivity.
  - vm_compute. reflexivity.
Defined.

Lemma unexpected_keyword_raises_after_validation_witness :
  exists st',
    @on_tool_call example_runtime (default_settings []) (constant_model []) no_hints
      padded_call (initial_state (default_settings []) (u "hello"))
    = Raised TypeError st' /\
    tool_calls st' = 0 + 1 /\ invocations st' = [] /\ trace st' = [] /\
    messages st' = messages (initial_state (default_settings []) (u "hello")).
Proof.
  apply (@unexpected_keyword_raises_after_validation example_runtime (default_settings [])
           (constant_model []) no_hints padded_call
           match backfill no_hints padded_call with
           | Ok o => o
           | Raise _ => []
           end
           (fst (@validate_and_normalize_call example_runtime (default_settings [])
                   match backfill no_hints padded_call with
                   | Ok o => o
                   | Raise _ => []
                   end))
           (initial_state (default_settings []) (u "hello"))
           s_current_error_services (u "/tools/current-error-services")
           current_error_services_sig
           match get k_args (fst (@validate_and_normalize_call example_runtime
                   (default_settings [])
                   match backfill no_hints padded_call with
                   | Ok o => o
                   | Raise _ => []
                   end)) with
           | JDict d => d
           | _ => []
           end
           (u "verbose")).
  - cbn. lia.
  - vm_compute. reflexivity.
  - vm_compute. reflexivity.
  - vm_compute. reflexivity.
  - left. reflexivity.
  - vm_compute. reflexivity.
  - vm_compute. intuition.
  - vm_compute. intuition discriminate.
Defined.

Lemma every_request_fits_its_model_witness :
  Forall well_formed_request
    (invocations (state_of (@run_agent example_runtime (default_settings [])
                              (scripted_model [tool_call_reply; tool_call_reply; final_reply])
                              (u "hello") 3))).
Proof.
  apply (@every_request_fits_its_model example_runtime (default_settings [])).
  - cbn. lia.
  - cbn. lia.
Defined.

Lemma compact_tool_result_keeps_five_witness :
  exists r services rows,
    six_services_result = JDict r /\
    or_else (get (u "services") r) (JList []) = JList services /\
    match @compact_tool_result example_runtime (JStr s_current_error_services)
            six_services_result with
    | Ok c => c
    | Raise _ => JNull
    end =
    JDict [(k_tool, JStr s_current_error_services);
           (u "summary", get (u "summary") r);
           (u "window", or_else (get (u "window") r) (get (u "comparison") r));
           (u "services_total", JInt (Z.of_nat (List.length services)));
           (u "services_top5", JList rows)] /\
    (List.length rows <= 5)%nat /\
    Forall2 compact_row_of (firstn 5 services) rows.
Proof.
  apply (@compact_tool_result_keeps_five example_runtime).
  vm_compute. reflexivity.
Defined.

Lemma parse_window_minutes_ko_converts_units_witness :
  @parse_window_minutes_ko example_runtime scenario_A =
  Some (@int_of_digits example_runtime (u "30") * 1).
Proof.
  apply (@parse_window_minutes_ko_converts_units example_runtime scenario_A
           (u "marios-stg-eks클러스터") (u "30") (u "분") 1 (u "에러서비스")).
  - vm_compute. reflexivity.
  - vm_compute. intuition discriminate.
  - discriminate.
  - repeat constructor.
  - vm_compute. intuition.
Defined.

Lemma extract_cluster_from_question_finds_the_name_witness :
  @extract_cluster_from_question example_runtime scenario_A = Some (u "marios-stg-eks").
Proof.
  apply (@extract_cluster_from_question_finds_the_name example_runtime scenario_A
           (u "marios-stg-eks") (u " ") (u "클러스터") (u " 최근 30분 에러 서비스")).
  - vm_compute. reflexivity.
  - vm_compute. reflexivity.
  - repeat constructor.
  - vm_compute. intuition.
  - left. discriminate.
  - vm_compute. reflexivity.
Defined.

Lemma extract_namespace_from_question_finds_the_name_witness :
  @extract_namespace_from_question example_runtime namespace_question = Some (u "dtslm").
Proof.
  apply (@extract_namespace_from_question_finds_the_name example_runtime namespace_question
           (u "dtslm") (u " ") (u "namespace") (u " errors")).
  - vm_compute. reflexivity.
  - vm_compute. reflexivity.
  - repeat constructor.
  - vm_compute. intuition.
  - left. discriminate.
  - vm_compute. reflexivity.
Defined.

Lemma hinted_window_overrides_the_proposed_one_witness :
  exists args',
    get k_args (fst (@validate_and_normalize_call example_runtime (default_settings [])
                       match backfill thirty_minute_hints five_minute_call with
                       | Ok o => o
                       | Raise _ => []
                       end)) = JDict args' /\
    get k_window_minutes args' = JInt (clamp_int 30 5 20160).
Proof.
  apply (@hinted_window_overrides_the_proposed_one example_runtime (default_settings [])
           thirty_minute_hints five_minute_call
           match backfill thirty_minute_hints five_minute_call with
           | Ok o => o
           | Raise _ => []
           end
           (fst (@validate_and_normalize_call example_runtime (default_settings [])
                   match backfill thirty_minute_hints five_minute_call with
                   | Ok o => o
                   | Raise _ => []
                   end))
           [(k_cluster, JStr (u "marios-prd-eks")); (k_window_minutes, JInt 5)] 30).
  - vm_compute. reflexivity.
  - reflexivity.
  - discriminate.
  - vm_compute. reflexivity.
  - vm_compute. reflexivity.
Defined.

Lemma extract_first_json_object_gives_a_mapping_witness :
  exists d,
    match extract_first_json_object (u "Sure! " ++ json_a1) with
    | Some v => v
    | None => JNull
    end = JDict d.
Proof.
  apply (@extract_first_json_object_gives_a_mapping (u "Sure! " ++ json_a1)).
  vm_compute. reflexivity.
Defined.


Lemma current_error_services_reports_witness :
  exists d rows,
    match @Datadog.current_error_services example_runtime example_iso example_logs_api
            (u "marios-stg-eks") (u "error") (Some (u "dtslm")) 15 10 with
    | Ok r => r
    | Raise _ => JNull
    end = JDict d /\
    get (u "services") d = JList rows /\ Forall reported rows.
Proof.
  apply (@current_error_services_reports example_runtime example_iso example_logs_api
           (u "marios-stg-eks") (u "error") (Some (u "dtslm")) 15 10).
  vm_compute. reflexivity.
Defined.
